(* ===== verification/_CoqProject ===== *)
-Q . S2P
Prelude.v
Simulation.v
JsValue.v
Double.v
RecordModel.v
Decimal.v
NumberFormat.v
LegacyFormat.v
Calendar.v
DateFormat.v
VDom.v
Render.v
Effect.v
ExportPipeline.v
Placement.v
LogoResolver.v
Spec.v
App.v
Interleaving.v
Refinement.v
Progress.v
Inputs.v
FormRefinement.v
Scenarios.v
