(* ===== verification/Prelude.v ===== *)
(** * Paystub generator: a verification development

    The program is one React component, [PaystubGenerator]
    ([src/PaystubGenerator.js], 473 lines).  It keeps a record of eight
    text fields in state, shows a form that edits the record and a preview
    (the paystub) computed from it, fetches a logo once, and on a click
    rasterises the preview and saves it as a one-page PDF.  This library
    models the component in Rocq, definition by definition, and proves what
    makes each part correct.

    ** The parts and the files

    - [JsValue]: the JavaScript values the component computes with, the
      coercion [ToBoolean], the operators [!] and [||], property reads,
      and exact arithmetic on numbers.
    - [Double]: the rounding of a real result to the nearest double, ties
      to even, and the operators [*] and [/] with it.
    - [RecordModel] (module [Record]): the record [paystubData]
      ([useState], lines 48-57) as a finite map from property names to
      strings, and [handleInputChange] (lines 81-87) as the updater it
      hands to React.
    - [Decimal] (module [Digits]): reading and printing of decimal digits,
      shared by the two formatters.
    - [NumberFormat]: [formatCurrency] (lines 89-96), and module [Intl],
      the part of [Intl.NumberFormat] that its one call exercises.
    - [LegacyFormat] (module [Legacy]): [formatCurrency] on a host whose
      formatter converts its argument to a double first, as the editions
      of ECMA-402 before 2023 have it.
    - [Calendar] (module [Time]): the time-value arithmetic of ECMA-262
      (day, year, month and date of a time value, [MakeDay], [TimeClip]).
    - [DateFormat]: [formatDate] (lines 98-109), the [Date] methods it
      calls, and class [Host], what the component assumes of the parser and
      of the time zone of the machine it runs on.
    - [VDom]: element trees, the type of what [return (...)] builds, and
      the traversals that read a tree.
    - [Render]: the JSX (lines 162-472) block by block: [form], [logo],
      [header_band], [identity], [earnings_table], [references],
      [preview], [render].
    - [Effect]: computations that record the calls they make and may throw;
      [try_catch], whose handler may throw in its turn; the value of an
      awaited promise.
    - [ExportPipeline] (module [PdfExport]): [generatePDF] (lines 111-160),
      once as an uninterrupted run and once as the two turns around its
      [await]; what can be thrown, and the [catch] block, which reads the
      message of what it caught; the contract of an export; the placement
      of the bitmap.
    - [Placement]: the rectangle the bitmap is placed in (lines 137-140)
      against the exact height of the specification.
    - [LogoResolver] (module [Logo]): the effect (lines 63-79) with its
      [onload] and [onerror] handlers, and the life cycle of the load as a
      step relation.
    - [App]: the component as a transition system.  A state holds the
      record, the state of the logo resolver, whether the ref is attached,
      the number of clicks so far, the exports suspended at their [await],
      the exports that have returned, and the log of every call of every
      export under the number of its run.  The steps are the first commit
      ([mount]), a change event from an input on screen ([change]), a step
      of the logo resolver ([load]), a click ([click]), and the settlement
      of a pending promise ([settle]).
    - [Interleaving]: the log of overlapping exports as a shuffle of
      uninterrupted runs.
    - [Simulation] (module [Sys]): transition systems, invariants,
      systems constrained by a guard, and refinement along an abstraction
      function.
    - [Spec]: the specification as a machine of its own: a record, a
      resolved logo, the exports in progress with the layouts they
      captured, the notifications and the downloads; its steps are the
      operations the specification names.
    - [Refinement]: the abstraction function from the states of [App] to
      the states of [Spec], and the component, as long as it reports
      every failure, as a refinement of the machine.
    - [Progress]: the steps of [App] that need no user ([background]), the
      work that is left in a state, termination and completion.
    - [Inputs] (modules [Html] and [Form]): the value sanitization that the
      browser applies to text, date and number inputs, the type of each
      input as the JSX declares it (lines 178-262), and the component
      driven through its inputs.
    - [FormRefinement]: the inputs, the component and the specification
      composed: the component behind its inputs as a refinement of the
      machine whose records are typed.
    - [Scenarios]: the two end-to-end scenarios of the specification, run
      from the change events to the downloaded file.

    The components meet in [App]: [view] renders the state with [Render],
    which formats the fields with [formatCurrency] and [formatDate] and
    asks the state of [Logo] whether there is an image; [click] runs
    [PdfExport.generatePDF_click] on the element the ref points to in that
    tree; [settle] runs [PdfExport.generatePDF_settle]; [change] applies
    [Record.handleInputChange].  [Form.step] restricts the change events
    of [App.step] to those that [Html.entry] builds from an input of the
    tree on screen; [Progress.background] keeps the steps of [App.step]
    that are not events of the user.  [Refinement.abs] reads a state of
    [App] as a state of [Spec]: an export in progress is a run suspended at
    its [await], the notifications and the downloads are the toasts and the
    files in the log.

    ** What is assumed of the platform

    The component calls code it does not contain.  Each such call is a
    parameter of the model, and the theorems hold for every value of it.

    - [DateFormat.Host]: [Date.parse] and [getTimezoneOffset], with one
      law, that a date-only string [YYYY-MM-DD] of a valid date is parsed
      as the midnight that starts that day in UTC (the date-time string
      format of ECMA-262).
      [strict_host] is an instance whose parser is written out; [bogota]
      and [tokyo] are that parser with an offset of 300 and of -540
      minutes.
    - [PdfExport.World]: whether [html2canvas], [canvas.toDataURL],
      [pdf.addImage] and [pdf.save] return or throw, and with what: [null]
      or [undefined], or a value whose [message] is a string or is absent
      (an [Error], or a string thrown as it is).  The
      bitmap is taken to be a function of the element tree as it is when
      [html2canvas] is called.
    - [Logo.World]: the same for [drawImage] and [toDataURL].
    - [Html] is a model written after the HTML Standard: the grammar of
      valid floating-point numbers (2.3.4.3) and of valid date strings
      (2.3.5.2), and the value sanitization algorithm of the three input
      types of the form (4.10.5.1).  The form sets no [min], [max] or
      [step], so the grammar alone decides what is delivered.
    - [Intl] and [Time] are not parameters but models, written after
      ECMA-402 (ES2023) and ECMA-262: [Intl.NumberFormat] takes a string
      argument at its exact decimal value ([ToIntlMathematicalValue]),
      rounds half away from zero to two digits and prints in the [en-US]
      currency pattern; [toLocaleDateString] with [timeZone: "UTC"] prints
      the short month, the day and the year of the time value.

    ** Numbers, strings, bounds and fuel

    - A JavaScript number is [NaN], an infinity, negative zero or the
      exact value of a double, a rational; [Fin 0] is positive zero.  The
      sign of a product or a quotient is the exclusive or of the signs of
      the operands, and a negative result that is rounded to zero is
      negative zero.  The component computes with numbers in one
      place, [imgHeight] (line 138): the handler and [PdfExport.fit]
      compute it with the operators of [Double], as the browser does,
      [Placement.exact_height] is the exact quotient, and
      [fit_keeps_proportions] bounds their distance.  The formatters take
      their arguments as strings, at their exact decimal value ([Legacy]
      has the formatter that rounds the value to a double first), and the
      time values are integers far below [2^53].
      A string of more than about 309 digits reaches the formatter as an
      infinity; the bound is [Intl.double_overflow], the least magnitude
      that rounds to infinity.
    - [Double] has 53 bits of precision and exponents from -1074 to 1023.
      The relative error of a rounding is bounded by [u = 2^-53] in the
      normal range ([Double.normal]: from [2^-1022], and small enough
      for the rounded value to stay below [2^1024]); below it the error is
      bounded absolutely ([nearest_pos_error]).  Negative numbers are
      rounded as their opposites are; the error bounds are stated for
      positive numbers, the only ones the component computes with
      ([height_is_not_negative]).  The sides of a bitmap are
      taken below [2^32] ([Placement.side_max]), the range of the
      [width] and [height] attributes of a canvas; integers up to [2^53]
      are doubles ([round_Z]), so the sides are exact.
    - Strings are sequences of bytes; a character outside ASCII is its
      UTF-8 encoding (the white space of the numeric grammar, the infinity
      sign).
    - Time values are integers (milliseconds); [TimeClip] bounds them by
      8.64e15.  The theorems on [formatDate] are stated for the years 0 to
      9999, the range of the date-only form, and for offsets of less than
      a day in either direction, which covers every time zone.
    - [Digits.print] runs on fuel [1 + log2 n], at least the number of
      decimal digits of [n]: [print_small] and [print_step] are its
      equations without fuel.  [Intl.trim] runs on the length of the
      string, one unit per character removed.  [Time.year_of_day]
      estimates the year from the mean length of a year and corrects by
      one either way; [year_of_day_spec] proves the result for every day.
    - Termination is by a measure, not by fuel: [Logo.remaining] counts the
      steps the resolver has before it (at most two), [Progress.work] adds
      one for each suspended export.  Every background step lowers the
      measure by exactly one ([background_work]), so a run of such steps
      to a state of rest has exactly [work] steps.
    - The theorem on date inputs is stated for entries of at most ten
      characters, that is, years of four digits: a date input accepts
      longer years, which the date-only form of [Date.parse] does not
      cover.

    ** The theorems

    - Record: an update replaces one field and is idempotent; updates on
      different fields commute; the eight fields stay present and no other
      property appears ([flat], [complete]); the record after a sequence
      of events holds the last value reported for each field.
    - Digits: [read] inverts [print]; [print] is injective and yields
      digits only; grouping in threes is undone by removing the commas.
    - [formatCurrency]: the result has one shape for every argument (an
      optional minus sign, the dollar sign, grouped dollars, a point, two
      digits, or else [$NaN] or an infinity); falsy amounts give [$0.00];
      a decimal literal is rounded to the nearest cent; an amount with two
      fraction digits is shown digit for digit; a whole number gets [.00];
      a string outside the grammar gives [$NaN].
    - Legacy: a double within [u] of an amount that is not within [u] of
      a half cent is rounded to the same cents ([round_cents_stable]);
      the formatter that converts to a double first displays an amount
      written with two fraction digits, below [2^52] cents, as the
      formatter that keeps the decimal value does
      ([legacy_two_decimals]); the two differ on [1.005]
      ([half_cent_depends_on_host]); the bound [Intl.double_overflow] is
      the one from which rounding to a double gives an infinity
      ([round_overflow], [clamp_overflow]).
    - Calendar: [YearFromTime], [MonthFromTime] and [DateFromTime] invert
      [MakeDay] and [MakeDate] at every time of day.
    - [formatDate]: empty for a falsy argument
      ([formatDate_without_a_date]); for a date-only string,
      the date as written when the offset is zero or positive, the day
      before when the offset is negative, and so the date as written
      exactly when the offset is not negative; [Invalid Date] for a string
      that does not parse.
    - Render: the form has one controlled input per field; text fields
      show [N/A] when blank and their text otherwise; the total row of the
      table restates its one line ([total_row_restates_line_item]); the
      logo or the placeholder glyph; the
      ref is on the preview and the preview holds no input; the text of
      the preview is the labels and the formatted fields of the four
      sections in their order ([preview_text]).
    - Export: every run is one of six cases ([run]); unless a stage
      throws [null] or [undefined] it returns and shows one toast, the
      report of the outcome the contract ([export_contract]) assigns
      ([generatePDF_meets_contract]); it downloads the files of that
      outcome; a file is downloaded only after every stage returned; a
      failure is logged, and reported with its message when it has
      properties ([failure_is_reported]); when it is [null] or [undefined]
      the [catch] block throws, no toast is shown and a [TypeError]
      escapes the handler ([nullish_rejection_is_not_reported]); the
      uninterrupted and the two-turn readings of the handler are equal.
    - Double: the binary exponent of a positive rational ([ilog2_spec]);
      the rounded value is within half a unit in the last place
      ([nearest_pos_error]) and, in the normal range, within [u] of the
      number ([nearest_pos_relative]); rounding depends on the value of a
      rational alone ([nearest_proper]); rounding twice is rounding once,
      so the results of the operators are doubles ([nearest_idempotent],
      [mul_is_double], [div_is_double]); [*] and [/] round once
      ([operators_round_once]); relative errors compose ([within_trans]);
      rounding keeps the sign, so the operators have the sign of the
      exact result ([round_sign], [mul_sign], [div_sign]);
      doubling an operand doubles a product exactly ([mul_double]);
      the operators respect [num_equiv], equality of numbers up to the
      fraction that writes their value ([mul_proper], [div_proper]).
      [one_tenth], [tie_to_even], [subnormals] and [negative_zero]
      evaluate the model on doubles whose values are known.
    - Placement: the bitmap is placed at the origin, as wide as the page,
      and its height is finite and within [2^-51] of the height that
      keeps its proportions exactly ([fit_keeps_proportions]); the factor
      two by which the capture is oversampled does not show on the page,
      to the last bit ([oversampling_does_not_show]), while a factor of
      five would ([oversampling_shows]); a bitmap of width zero gets a
      height that is [Infinity], or [NaN] when it has no height either
      ([fit_degenerate]); the height is never negative
      ([height_is_not_negative]).  [a4_bitmap] is the placement of an A4
      bitmap as a browser computes it.
    - Logo: the handlers are installed before the source is set; while the
      image has not loaded the placeholder is shown; the resolver settles
      once, and terminates after at most two steps
      ([resolver_terminates]).
    - Component: in every reachable state the record is flat, every
      suspended run was started on a preview, and every finished export is
      one uninterrupted run of [generatePDF] on the preview of its click;
      the branch for a missing target is never taken; two exports can be
      in flight at once; an export started before the logo has loaded
      captures the placeholder
      ([export_before_logo_captures_placeholder]).
    - Interleaving: in every reachable state the runs are numbered by the
      clicks, each number once ([every_click_has_one_run]); what the log
      holds of a finished run is the trace of [generatePDF] run alone
      ([log_projects_to_runs]); each finished run has shown one toast,
      unless it has logged [null] or [undefined] as its error; the
      toasts of two runs can appear in the other order than their clicks
      ([toasts_out_of_order]).
    - Progress: the background steps terminate, within [work] steps, and
      reach a state of rest ([background_terminates]); the states of rest
      are those with the logo settled and no export suspended
      ([rest_is_quiescent]); no step loses a suspended run
      ([suspended_run_is_never_lost]); every suspended export has
      finished, with one toast or with [null] or [undefined] in the log,
      when the component has come to rest ([every_export_finishes]).
    - Refinement: a refinement takes reachable states to reachable states
      and carries invariants back ([Sys.refines_reachable],
      [Sys.refines_invariant]); the machine of the specification keeps
      the record flat and gives one file, under the fixed name, for each
      success it reports ([Spec.machine_good]); every step of the
      component after which no [null] or [undefined] error is in the log
      is a step of the machine ([component_refines_spec]), so in the
      states without such an error the component gives the user what the
      machine allows ([machine_guarantees_hold]); the step in which a run
      catches [null] or [undefined] is not a step of the machine
      ([silent_failure_is_no_step]); with the button disabled during an
      export the component refines the machine in which one export runs
      at a time ([guarded_refines_sequential]); as it is, it does not
      ([component_is_not_sequential]); refinements compose
      ([Sys.refines_trans]), so the component behind its inputs refines
      the machine, and the machine in which every field holds a value of
      the type of its input ([form_refines_typed_spec]).
    - Inputs: a valid floating-point number of HTML is a numeric literal
      of ECMAScript with a finite value ([valid_float_value]); what a
      number input delivers is never shown as [$NaN]
      ([number_entry_is_an_amount]); a minus sign is delivered and shown
      ([negative_amount_shows_minus]); what a date input delivers with a
      year of four digits is never shown as [Invalid Date]
      ([date_entry_is_a_date]); the values of ten characters that a date
      input delivers are the date-only forms of valid dates
      ([date_input_values]), to which the theorems on [formatDate] apply;
      behind its inputs the record holds sanitized values only, the
      earnings table never reads [$NaN] and a date of a four-digit year
      never reads [Invalid Date] ([form_record_is_sanitized],
      [preview_never_shows_NaN], [preview_never_shows_invalid_date]).

    ** Where the program and its specification part

    - East of Greenwich [formatDate] shows the day before the date entered
      ([formatDate_east_shows_previous_day], [formatDate_as_written_iff],
      [scenario_jane_doe_east]).
    - A non-numeric amount is shown as [$NaN], not as zero
      ([formatCurrency_non_numeric]); the number inputs of the form keep
      such a value from reaching the formatter
      ([preview_never_shows_NaN], [unsanitized_shows_NaN]).
    - Half a cent is rounded up by a host of ECMA-402 2023 and, where the
      nearest double is below the amount, down by an older one
      ([half_cent_depends_on_host]).
    - A negative amount is accepted and shown with a minus sign
      ([negative_amount_shows_minus]); an amount in scientific notation
      beyond the range of a double is shown as an infinity
      ([huge_amount_shows_infinity]).
    - A date with a year of more than four digits passes the date input
      and is shown as [Invalid Date] by a host that parses the standard
      form alone ([long_year_is_invalid]).
    - An export that fails with [null] or [undefined], as a promise
      rejected without a reason does, is logged and not reported: the
      [catch] block throws on reading its message
      ([nullish_rejection_is_not_reported], [silent_failure_is_no_step]).
    - Nothing serialises exports ([exports_can_overlap],
      [component_is_not_sequential]), their toasts can appear out of order
      ([toasts_out_of_order]), and [pdf.save] is not awaited.
    - A bitmap of width zero gives a placement height that is not finite
      ([fit_degenerate]).

    ** Not modelled

    The layout, styling and painting done by the browser and by Chakra UI;
    the rasterisation done by html2canvas and the encoding done by jsPDF;
    the rendering of toasts; React's scheduling beyond the order in which
    state updaters are applied and callbacks run one at a time; keystrokes,
    focus and the date picker of the inputs (an entry is the string that
    results); runs that never end because a promise never settles
    (completion is proved for the runs in which every callback that can
    run does); a thrown value whose [message] is not a string, or whose
    [message] is a getter that throws.

    ** This file

    The notation scope, the tactics and the hint databases the components
    share, the lemmas on integers and strings that more than one of them
    uses, and termination of a relation by a measure. *)

From Stdlib Require Export ZArith Lia Ascii.
From stdpp Require Export ssreflect base tactics option list strings gmap relations.

(** ** Scopes and notation *)

Declare Scope js_scope.
Delimit Scope js_scope with js.

(** ** Automation shared by the components *)

(** [div_lia] closes linear goals over [Z] that mention division or remainder
    by constants: every [a / b] and [a mod b] is replaced by its Euclidean
    equations before [lia] runs. *)
Ltac div_lia := Z.to_euclidean_division_equations; lia.

(** [destruct_decide] splits on every [bool_decide] and [decide] left in the
    goal and cleans up with [simplify_eq]. *)
Ltac split_decide :=
  repeat (case_bool_decide || case_decide); simplify_eq; try done.

(** [split_ltb] decides every comparison [a <? b] and [a <=? b] of the goal,
    dropping the cases that contradict the hypotheses. *)
Ltac split_ltb :=
  repeat match goal with
  | |- context [(?a <? ?b)%Z] => destruct (Z.ltb_spec a b); try lia
  | |- context [(?a <=? ?b)%Z] => destruct (Z.leb_spec a b); try lia
  end.

(** [paystub] collects the lemmas that discharge side conditions: that a
    string is made of digits, that a record is flat, that a number is in
    range.  [side] closes a goal with them; arithmetic that is left goes to
    [lia], after division and remainder have been replaced by their
    equations. *)
Create HintDb paystub discriminated.
Create Rewrite HintDb str.

#[export] Hint Extern 10 (_ ≤ _)%Z => solve [lia | div_lia] : paystub.
#[export] Hint Extern 10 (_ < _)%Z => solve [lia | div_lia] : paystub.
#[export] Hint Extern 10 (_ ≤ _ < _)%Z => solve [lia | div_lia] : paystub.
#[export] Hint Extern 10 (_ ≤ _ ≤ _)%Z => solve [lia | div_lia] : paystub.

Ltac side := solve [auto with paystub].

(** ** Integers *)

#[local] Open Scope Z_scope.

Lemma Z_div_bounds a b : 0 < b → b * (a / b) ≤ a < b * (a / b + 1).
Proof.
  move=> Hb. split; first by apply Z.mul_div_le.
  rw Z.mul_add_distr_l Z.mul_1_r. have := Z.mod_pos_bound a b Hb.
  have := Z.div_mod a b ltac:(lia). lia.
Qed.

Lemma Z_div_unique_bounds a b q : 0 < b → b * q ≤ a < b * (q + 1) → a / b = q.
Proof. move=> Hb Hq. have := Z_div_bounds a b Hb. nia. Qed.

(** ** Relations

    Termination of a step relation from a measure that every step
    decreases, and the bound the measure puts on the length of a run. *)

Section measure.
Context {A : Type} (R : relation A) (m : A → nat).
Hypothesis decreases : ∀ x y, R x y → (m y < m x)%nat.

Lemma sn_measure x : sn R x.
Proof.
  have Hwf : ∀ n x, (m x < n)%nat → sn R x.
  { induction n as [|n IH]=> y Hy; [lia|].
    constructor=> z /= /decreases Hz. apply IH. lia. }
  apply (Hwf (S (m x))). lia.
Qed.

Lemma nsteps_measure n x y : nsteps R n x y → (n + m y ≤ m x)%nat.
Proof.
  induction 1 as [|n x y z Hxy _ IH]; [done|]. have := decreases _ _ Hxy. lia.
Qed.

(** A state whose measure is zero is a normal form. *)
Lemma nf_measure x : m x = 0%nat → nf R x.
Proof. move=> Hx [y /decreases Hy]. lia. Qed.

(** Where every state of positive measure can step, the states of measure
    zero are the normal forms, and every state reaches one. *)
Section progress.
Hypothesis progress : ∀ x, m x ≠ 0%nat → red R x.

Lemma nf_measure_iff x : nf R x ↔ m x = 0%nat.
Proof.
  split; [|apply nf_measure]. move=> Hnf.
  destruct (decide (m x = 0%nat)) as [|Hx]; [done|]. destruct Hnf. by apply progress.
Qed.

Lemma wn_measure x : wn R x.
Proof.
  induction (sn_measure x) as [x _ IH].
  destruct (decide (m x = 0%nat)) as [Hx|Hx].
  - exists x. split; [done|]. by apply nf_measure.
  - destruct (progress x Hx) as [y Hxy].
    destruct (IH y Hxy) as [z [Hyz Hz]]. exists z. split; [|done]. by eapply rtc_l.
Qed.

End progress.

End measure.

(** ** Strings *)

Section strings.
Implicit Types s t u : string.

Lemma str_app_nil_l s : "" +:+ s = s.
Proof. reflexivity. Qed.

Lemma str_app_cons a s t : String a s +:+ t = String a (s +:+ t).
Proof. reflexivity. Qed.

Lemma str_app_nil_r s : s +:+ "" = s.
Proof. induction s as [|a s IH]; [done|]. by rw str_app_cons IH. Qed.

Lemma str_app_assoc s t u : (s +:+ t) +:+ u = s +:+ (t +:+ u).
Proof. induction s as [|a s IH]; [done|]. by rw !str_app_cons IH. Qed.

Lemma str_length_app s t :
  String.length (s +:+ t) = (String.length s + String.length t)%nat.
Proof. induction s as [|a s IH]; [done|]. by rw str_app_cons /= IH. Qed.

Lemma str_app_eq_nil s t : s +:+ t = "" → s = "" ∧ t = "".
Proof. by destruct s. Qed.

End strings.

#[export] Hint Rewrite str_app_nil_l str_app_cons str_app_nil_r str_app_assoc
  str_length_app : str.

(** [str_norm] brings both sides of an equation between strings to the form
    in which appends are nested to the right and literals are consumed
    character by character. *)
Ltac str_norm := simpl; autorewrite with str; try done.
