(* ===== verification/Simulation.v ===== *)
(** * Transition systems and refinement

    The vocabulary in which the component is compared with its
    specification: a transition system is a type of states, an initial
    state and a step relation; an invariant is a property of its reachable
    states; a system refines another along an abstraction function when the
    function takes the initial state to the initial state and every step
    of a reachable state to a step of the abstract system or to no step
    at all.  A refinement takes reachable states to reachable states, so
    the invariants of the abstract system hold of the refining one.
    A system constrained by a guard on its steps is included in the
    system, and constraining both sides of a refinement by guards that
    correspond gives a refinement. *)

From S2P Require Import Prelude.

Module Sys.

Record System : Type := mkSystem {
  state : Type;
  initial : state;
  step : relation state;
}.

Section system.
Context (S : System).

Definition reachable : state S → Prop := rtc (step S) (initial S).

(** A property of every reachable state. *)
Definition invariant (P : state S → Prop) : Prop := ∀ s, reachable s → P s.

(** The system whose steps are the steps of [S] that the guard allows. *)
Definition constrain (guard : state S → state S → Prop) : System :=
  mkSystem (state S) (initial S) (λ s s', step S s s' ∧ guard s s').

End system.

Arguments reachable S s : simpl never.

(** The states of [C] are read as states of [A] by [abs]; a step of [C]
    is a step of [A] or is not seen. *)
Record refines (C A : System) (abs : state C → state A) : Prop := mkRefines {
  refines_initial : abs (initial C) = initial A;
  refines_step c c' :
    reachable C c → step C c c' → abs c = abs c' ∨ step A (abs c) (abs c');
}.

(** ** Invariants *)

Section invariants.
Context (S : System).
Implicit Types (P Q : state S → Prop).

Lemma reachable_initial : reachable S (initial S).
Proof. apply rtc_refl. Qed.

Lemma reachable_step s s' : reachable S s → step S s s' → reachable S s'.
Proof. move=> Hr Hs. by eapply rtc_r. Qed.

(** Induction on the steps that lead to a state. *)
Lemma invariant_ind P :
  P (initial S) → (∀ s s', reachable S s → P s → step S s s' → P s') →
  invariant S P.
Proof.
  move=> H0 HS s Hr. eapply (rtc_ind_r (λ s, reachable S s ∧ P s)); [..|exact Hr].
  - split; [apply reachable_initial|done].
  - move=> x y _ Hxy [Hx HP]. split; [by eapply reachable_step|by eapply HS].
Qed.

Lemma invariant_and P Q : invariant S P → invariant S Q → invariant S (λ s, P s ∧ Q s).
Proof. move=> HP HQ s Hr. split; [by apply HP|by apply HQ]. Qed.

Lemma invariant_impl P Q : (∀ s, P s → Q s) → invariant S P → invariant S Q.
Proof. move=> HPQ HP s Hr. by apply HPQ, HP. Qed.

End invariants.

(** A constrained system reaches states of the system, and in a
    constrained system the guard has held of every step. *)
Lemma constrain_reachable (S : System) guard s :
  reachable (constrain S guard) s → reachable S s.
Proof. apply rtc_subrel. by move=> x y [Hxy _]. Qed.

Lemma constrain_invariant (S : System) guard (P : state S → Prop) :
  P (initial S) → (∀ s s', guard s s' → P s') → invariant (constrain S guard) P.
Proof.
  move=> H0 Hg. apply (invariant_ind (constrain S guard)); [done|].
  move=> s s' _ _ [_ Hs]. by eapply Hg.
Qed.

(** A state of which a property holds that every step carries back to
    the state it started from is reached by steps after each of which the
    property holds. *)
Lemma constrain_reachable_back (S : System) (P : state S → Prop) s :
  (∀ x y, step S x y → P y → P x) →
  reachable S s → P s → reachable (constrain S (λ _ y, P y)) s.
Proof.
  move=> Hback Hr. move: s Hr. apply (rtc_ind_r (λ s, P s → _)).
  - move=> _. apply rtc_refl.
  - move=> x y _ Hxy IH Hy. eapply rtc_r; [by eapply IH, Hback|done].
Qed.

(** ** Refinement *)

Section refinement.
Context {C A : System} (abs : state C → state A).
Hypothesis Href : refines C A abs.

(** A refinement takes reachable states to reachable states. *)
Lemma refines_reachable c : reachable C c → reachable A (abs c).
Proof.
  apply (invariant_ind C (λ c, reachable A (abs c))).
  - rw (refines_initial _ _ _ Href). apply reachable_initial.
  - move=> s s' Hr IH Hs.
    destruct (refines_step _ _ _ Href _ _ Hr Hs) as [<-|Ha]; [done|].
    by eapply reachable_step.
Qed.

(** The invariants of the abstract system hold of the refining one. *)
Lemma refines_invariant (P : state A → Prop) :
  invariant A P → invariant C (P ∘ abs).
Proof. move=> HP c Hr. by apply HP, refines_reachable. Qed.

(** Guards that correspond constrain both sides of a refinement. *)
Lemma refines_constrain gC gA :
  (∀ c c', reachable C c → step C c c' → gC c c' →
           abs c = abs c' ∨ gA (abs c) (abs c')) →
  refines (constrain C gC) (constrain A gA) abs.
Proof.
  move=> Hg. split; first by apply (refines_initial _ _ _ Href).
  move=> c c' /constrain_reachable Hr [Hs Hc].
  destruct (refines_step _ _ _ Href _ _ Hr Hs) as [Heq|Ha]; [by left|].
  destruct (Hg _ _ Hr Hs Hc) as [Heq|Hga]; [by left|by right].
Qed.

End refinement.

(** Refinements compose. *)
Lemma refines_trans {S1 S2 S3 : System} (f : state S1 → state S2)
    (g : state S2 → state S3) :
  refines S1 S2 f → refines S2 S3 g → refines S1 S3 (g ∘ f).
Proof.
  move=> H12 H23. split; rw /=.
  - by rw (refines_initial _ _ _ H12) (refines_initial _ _ _ H23).
  - move=> c c' Hr Hs.
    destruct (refines_step _ _ _ H12 _ _ Hr Hs) as [->|Ha]; [by left|].
    apply (refines_step _ _ _ H23); [|done]. by apply (refines_reachable f).
Qed.

End Sys.
