(* ===== verification/JsValue.v ===== *)
(** * JavaScript values

    The fragment of the JavaScript value universe that
    [src/PaystubGenerator.js] computes with: [undefined], [null], booleans,
    numbers and strings, with the three coercions the component relies on:
    [ToBoolean] (behind [!x] and [x || y]), property reads on a plain object
    whose own properties all hold strings, and the logical-or operator that
    returns one of its operands.

    Numbers are modelled by their exact value: a finite number is a rational
    [q]; [NaN], the two infinities and negative zero, which has the value of
    zero and a sign of its own, are constructors.  [Fin 0] is positive zero.
    The operators of this file are exact; [Double] rounds their results. *)

From Stdlib Require Import QArith Lqa.
From S2P Require Import Prelude.

#[local] Close Scope Q_scope.
#[local] Open Scope Z_scope.

Inductive number : Type :=
| NaN
| Inf (negative : bool)
| NegZero
| Fin (q : Q).

Inductive value : Type :=
| VUndefined
| VNull
| VBool (b : bool)
| VNumber (n : number)
| VString (s : string).

(** ECMA-262 7.1.2 ToBoolean: [undefined], [null], [false], [0], [NaN] and the
    empty string are falsy, everything else is truthy. *)
Definition ToBoolean (v : value) : bool :=
  match v with
  | VUndefined | VNull => false
  | VBool b => b
  | VNumber NaN => false
  | VNumber (Inf _) => true
  | VNumber NegZero => false
  | VNumber (Fin q) => negb (Qeq_bool q 0)
  | VString s => negb (bool_decide (s = ""))
  end.

(** [!v] *)
Definition js_not (v : value) : bool := negb (ToBoolean v).

(** [a || b]: the left operand when it is truthy, the right one otherwise. *)
Definition js_or (a b : value) : value := if ToBoolean a then a else b.

Notation "a '|||' b" := (js_or a b) (at level 50, left associativity) : js_scope.

(** [o.k] on an object whose own properties hold strings: the property's
    value, or [undefined] when [o] has no property [k]. *)
Definition get_prop (o : gmap string string) (k : string) : value :=
  match o !! k with
  | Some s => VString s
  | None => VUndefined
  end.

(** The number literal [0]. *)
Definition zero : value := VNumber (Fin 0).

(** The number that an integer literal or an integer-valued property is. *)
Definition of_Z (z : Z) : number := Fin (inject_Z z).

Definition is_neg (q : Q) : bool := negb (Qle_bool 0 q).
Definition is_zero (q : Q) : bool := Qeq_bool q 0.

(** The sign of a number: [true] for the negative ones, negative zero
    among them. *)
Definition sign_bit (n : number) : bool :=
  match n with
  | NaN => false
  | Inf s => s
  | NegZero => true
  | Fin q => is_neg q
  end.

(** The two zeros. *)
Definition is_zero_number (n : number) : bool :=
  match n with
  | NegZero => true
  | Fin q => is_zero q
  | _ => false
  end.

(** The zero of a sign. *)
Definition signed_zero (negative : bool) : number :=
  if negative then NegZero else Fin 0.

(** The exact value of a finite number. *)
Definition value_of (n : number) : Q :=
  match n with
  | Fin q => q
  | _ => 0%Q
  end.

(** [a * b].  The sign of the result is the exclusive or of the signs of the
    operands; an infinity times a zero is [NaN]; finite results are exact,
    in lowest terms. *)
Definition num_mul (a b : number) : number :=
  let s := xorb (sign_bit a) (sign_bit b) in
  match a, b with
  | NaN, _ | _, NaN => NaN
  | Inf _, x | x, Inf _ => if is_zero_number x then NaN else Inf s
  | _, _ =>
    if is_zero_number a || is_zero_number b then signed_zero s
    else Fin (Qred (value_of a * value_of b))
  end.

(** [a / b].  The sign of the result is the exclusive or of the signs of the
    operands; a number that is not zero divided by a zero is infinite, a zero
    divided by a zero and an infinity divided by an infinity are [NaN]. *)
Definition num_div (a b : number) : number :=
  let s := xorb (sign_bit a) (sign_bit b) in
  match a, b with
  | NaN, _ | _, NaN => NaN
  | Inf _, Inf _ => NaN
  | Inf _, _ => Inf s
  | _, Inf _ => signed_zero s
  | _, _ =>
    if is_zero_number b then (if is_zero_number a then NaN else Inf s)
    else if is_zero_number a then signed_zero s
    else Fin (Qred (value_of a / value_of b))
  end.

#[global] Arguments num_mul : simpl never.
#[global] Arguments num_div : simpl never.

Definition is_finite (n : number) : bool :=
  match n with
  | Fin _ | NegZero => true
  | _ => false
  end.

(** [String(v)] for the values an [Error]'s [message] can be when it is
    read in a template literal: a string, or absent. *)
Definition ToString (v : option string) : string := default "undefined" v.

(** ** Lemmas *)

Lemma is_neg_nonneg q : (0 <= q)%Q → is_neg q = false.
Proof. move=> Hq. rw /is_neg. by apply negb_false_iff, Qle_bool_iff. Qed.

Lemma is_zero_spec q : is_zero q = true ↔ (q == 0)%Q.
Proof. apply Qeq_bool_iff. Qed.

#[export] Instance is_zero_proper : Proper (Qeq ==> eq) is_zero.
Proof. move=> p q Hpq. rw /is_zero. by apply Qeqb_comp. Qed.

#[export] Instance is_neg_proper : Proper (Qeq ==> eq) is_neg.
Proof. move=> p q Hpq. rw /is_neg. f_equal. by apply Qleb_comp. Qed.

Lemma is_zero_false q : ¬ (q == 0)%Q → is_zero q = false.
Proof. move=> Hq. apply not_true_is_false=> /Qeq_bool_eq. done. Qed.

Lemma is_neg_spec q : is_neg q = true ↔ (q < 0)%Q.
Proof.
  rw /is_neg negb_true_iff -not_true_iff_false Qle_bool_iff.
  split; [apply Qnot_le_lt|apply Qlt_not_le].
Qed.

(** Doubling a number keeps its sign and whether it is zero. *)
Lemma is_zero_double q : is_zero (2 * q) = is_zero q.
Proof. apply eq_true_iff_eq. rw !is_zero_spec. split=> H; lra. Qed.

Lemma is_neg_double q : is_neg (2 * q) = is_neg q.
Proof. apply eq_true_iff_eq. rw !is_neg_spec. split=> H; lra. Qed.

Lemma Qred_zero q : (q == 0)%Q → Qred q = 0%Q.
Proof. move=> Hq. by apply (Qred_complete q 0). Qed.

(** On numbers that are not negative the operators are those of the
    rationals. *)
Lemma num_mul_nonneg p q :
  (0 <= p)%Q → (0 <= q)%Q → num_mul (Fin p) (Fin q) = Fin (Qred (p * q)).
Proof.
  move=> Hp Hq. rw /num_mul /= !is_neg_nonneg //=.
  destruct (is_zero p) eqn:Ep; [|destruct (is_zero q) eqn:Eq]; rw //= Qred_zero //.
  - move/is_zero_spec: Ep => ->. ring.
  - move/is_zero_spec: Eq => ->. ring.
Qed.

Lemma num_div_nonneg p q :
  (0 <= p)%Q → is_zero q = false → (0 <= q)%Q →
  num_div (Fin p) (Fin q) = Fin (Qred (p / q)).
Proof.
  move=> Hp Hz Hq. rw /num_div /= Hz !is_neg_nonneg //=.
  destruct (is_zero p) eqn:Ep; rw //= Qred_zero //.
  move/is_zero_spec: Ep => ->. by rw /Qdiv Qmult_0_l.
Qed.

Lemma num_mul_finite p q :
  is_zero p = false → is_zero q = false →
  num_mul (Fin p) (Fin q) = Fin (Qred (p * q)).
Proof. rw /num_mul /=. by move=> -> ->. Qed.

Lemma num_div_finite p q :
  is_zero p = false → is_zero q = false →
  num_div (Fin p) (Fin q) = Fin (Qred (p / q)).
Proof. rw /num_div /=. by move=> -> ->. Qed.

Lemma num_div_by_zero a : is_finite (num_div a (Fin 0)) = false.
Proof. destruct a as [| |[|]|p]; rw /num_div //=. by destruct (is_zero p). Qed.

(** ** Truthiness and property reads *)

Lemma ToBoolean_string s : ToBoolean (VString s) = bool_decide (s ≠ "").
Proof. rw /=. by split_decide. Qed.

Lemma js_not_string s : js_not (VString s) = bool_decide (s = "").
Proof. rw /js_not /=. by rw negb_involutive. Qed.

Lemma js_or_falsy a b : ToBoolean a = false → js_or a b = b.
Proof. rw /js_or. by move=> ->. Qed.

Lemma js_or_truthy a b : ToBoolean a = true → js_or a b = a.
Proof. rw /js_or. by move=> ->. Qed.

Lemma js_or_string_nonempty s b : s ≠ "" → js_or (VString s) b = VString s.
Proof. move=> Hs. apply js_or_truthy. rw ToBoolean_string. by split_decide. Qed.

Lemma js_or_empty b : js_or (VString "") b = b.
Proof. done. Qed.

Lemma js_or_undefined b : js_or VUndefined b = b.
Proof. done. Qed.

Lemma get_prop_Some o k s : o !! k = Some s → get_prop o k = VString s.
Proof. rw /get_prop. by move=> ->. Qed.

Lemma get_prop_None o k : o !! k = None → get_prop o k = VUndefined.
Proof. rw /get_prop. by move=> ->. Qed.

Lemma get_prop_insert_eq o k s : get_prop (<[k:=s]> o) k = VString s.
Proof. apply get_prop_Some, lookup_insert_eq. Qed.

Lemma get_prop_insert_ne o k k' s :
  k ≠ k' → get_prop (<[k:=s]> o) k' = get_prop o k'.
Proof. move=> Hne. by rw /get_prop lookup_insert_ne. Qed.

(** ** Signs

    The sign of a product and of a quotient is the exclusive or of the
    signs of the operands, whenever the result is a number: zeros and
    infinities have signs like the other numbers. *)

#[local] Open Scope Q_scope.

Lemma is_neg_false q : is_neg q = false ↔ 0 <= q.
Proof. rw /is_neg negb_false_iff. apply Qle_bool_iff. Qed.

Lemma sign_cases q :
  is_zero q = false → (is_neg q = true ∧ q < 0) ∨ (is_neg q = false ∧ 0 < q).
Proof.
  move=> Hz. destruct (is_neg q) eqn:Hn; [left|right]; (split; [done|]).
  - by apply is_neg_spec.
  - move: Hn=> /is_neg_false Hq. destruct (Qle_lt_or_eq _ _ Hq) as [|He]; [done|].
    move: Hz=> /Qeq_bool_neq []. by symmetry.
Qed.

Lemma is_neg_mul p q :
  is_zero p = false → is_zero q = false →
  is_neg (p * q) = xorb (is_neg p) (is_neg q).
Proof.
  move=> /sign_cases [[-> Hp]|[-> Hp]] /sign_cases [[-> Hq]|[-> Hq]]; rw /=.
  - apply is_neg_false. nra.
  - apply is_neg_spec. nra.
  - apply is_neg_spec. nra.
  - apply is_neg_false. nra.
Qed.

Lemma is_neg_inv q : is_neg (/ q) = is_neg q.
Proof.
  apply eq_true_iff_eq. rw !is_neg_spec. split=> H.
  - apply Qnot_le_lt=> Hq. destruct (Qle_lt_or_eq _ _ Hq) as [Hlt|He].
    + have := Qinv_lt_0_compat _ Hlt. lra.
    + rewrite <- He in H. by vm_compute in H.
  - have Hq : 0 < - q by lra. have := Qinv_lt_0_compat _ Hq.
    have -> : / - q == - / q by (field; lra). lra.
Qed.

Lemma is_zero_inv q : is_zero (/ q) = is_zero q.
Proof.
  apply eq_true_iff_eq. rw !is_zero_spec. split=> H.
  - rewrite <- (Qinv_involutive q). by rewrite -> H.
  - by rewrite -> H.
Qed.

Lemma is_neg_div p q :
  is_zero p = false → is_zero q = false →
  is_neg (p / q) = xorb (is_neg p) (is_neg q).
Proof. move=> Hp Hq. by rw /Qdiv is_neg_mul ?is_zero_inv // is_neg_inv. Qed.

Lemma sign_bit_signed_zero s : sign_bit (signed_zero s) = s.
Proof. by destruct s. Qed.

Lemma num_mul_sign a b :
  num_mul a b = NaN ∨ sign_bit (num_mul a b) = xorb (sign_bit a) (sign_bit b).
Proof.
  destruct a as [|s| |p], b as [|t| |q]; rw /num_mul /= ?orb_true_r; auto;
    repeat case_match; rw ?sign_bit_signed_zero /=; auto.
  right. rw (is_neg_proper _ _ (Qred_correct _)). apply is_neg_mul.
  all: by destruct (is_zero p), (is_zero q).
Qed.

Lemma num_div_sign a b :
  num_div a b = NaN ∨ sign_bit (num_div a b) = xorb (sign_bit a) (sign_bit b).
Proof.
  destruct a as [|s| |p], b as [|t| |q]; rw /num_div /=; auto;
    repeat case_match; rw ?sign_bit_signed_zero /=; auto.
  right. rw (is_neg_proper _ _ (Qred_correct _)). by apply is_neg_div.
Qed.

(** ** Numbers up to their value

    A finite number is a rational, and two rationals that are equal as
    fractions are the same number.  The operators depend on the values of
    their operands alone, and their results are in lowest terms, so equal
    operands give identical results. *)

Definition num_equiv (a b : number) : Prop :=
  match a, b with
  | NaN, NaN | NegZero, NegZero => True
  | Inf s, Inf t => s = t
  | Fin p, Fin q => p == q
  | _, _ => False
  end.

#[export] Instance num_equiv_equivalence : Equivalence num_equiv.
Proof.
  split.
  - by move=> [|s| |p].
  - move=> [|s| |p] [|t| |q] //=.
  - move=> [|s| |p] [|t| |q] [|r| |o] //=; [congruence|]. move=> ->. done.
Qed.

#[export] Instance Fin_proper : Proper (Qeq ==> num_equiv) Fin.
Proof. by move=> p q. Qed.

#[export] Instance sign_bit_proper : Proper (num_equiv ==> eq) sign_bit.
Proof. move=> [|s| |p] [|t| |q] //=. apply is_neg_proper. Qed.

#[export] Instance is_zero_number_proper : Proper (num_equiv ==> eq) is_zero_number.
Proof. move=> [|s| |p] [|t| |q] //=. apply is_zero_proper. Qed.

Lemma value_of_proper a b : num_equiv a b → value_of a == value_of b.
Proof. by destruct a, b. Qed.

(** Splits on the operands; [Ha] and [Hb] relate them. *)
Ltac num_cases a a' b b' Ha Hb :=
  destruct a as [|?| |?], a' as [|?| |?]; try (by rw /= in Ha);
  destruct b as [|?| |?], b' as [|?| |?]; try (by rw /= in Hb);
  rw /= in Ha Hb; subst;
  rw /= ?(is_zero_proper _ _ Ha) ?(is_neg_proper _ _ Ha)
        ?(is_zero_proper _ _ Hb) ?(is_neg_proper _ _ Hb) //.

#[export] Instance num_mul_proper : Proper (num_equiv ==> num_equiv ==> eq) num_mul.
Proof.
  move=> a a' Ha b b' Hb. rw /num_mul. num_cases a a' b b' Ha Hb.
  all: case: (_ || _)=> //; f_equal; by apply Qred_complete, Qmult_comp.
Qed.

#[export] Instance num_div_proper : Proper (num_equiv ==> num_equiv ==> eq) num_div.
Proof.
  move=> a a' Ha b b' Hb. rw /num_div. num_cases a a' b b' Ha Hb.
  all: do 2 case: (is_zero _)=> //; f_equal; by apply Qred_complete, Qdiv_comp.
Qed.
