(* ===== verification/Double.v ===== *)
(** * Double-precision arithmetic

    The numbers of JavaScript are IEEE 754 doubles: 53 bits of precision,
    exponents between -1074 and 1023, results rounded to the nearest
    double, ties to even.  [JsValue] computes with exact rationals; this
    file adds the rounding.  [nearest] is the double nearest a rational,
    [round] the number it is the value of ([Infinity] when the rounded
    value is [2^1024] or more), [mul] and [div] the operators [*] and [/]
    of line 138 of [src/PaystubGenerator.js]: the exact result of
    [num_mul] and [num_div], rounded once.

    A double is modelled by its value, a rational in lowest terms; negative
    zero is the number [NegZero], the result of rounding a negative number
    to zero.  [within e x y] says that [x] is [y] up to a
    relative error of [e]; [double q] that rounding leaves [q] as it is.
    The results of the file are that rounding a number of the normal range
    is within [u = 2^-53] of it, that rounding depends on the value of a
    rational alone, that the results of rounding are doubles, integers
    below [2^53] among them, that a number is rounded to an infinity
    exactly when it is [2^1024 - 2^970] or more, how relative errors
    compose, that rounding keeps the sign, so that the sign of a product
    or a quotient is the exclusive or of the signs of the operands, and
    that doubling an operand doubles a product exactly. *)

From Stdlib Require Import QArith Qround Qabs Qpower Lqa.
From S2P Require Import Prelude JsValue.

#[local] Open Scope Q_scope.

Module Double.

(** ** The format *)

(** The bits of precision, the least exponent of a unit in the last place
    and the exponent of the first power of two that is not a double. *)
Definition prec : Z := 53.
Definition emin : Z := -1074.
Definition emax : Z := 1024.

(** The unit roundoff: half the distance between 1 and the next double. *)
Definition u : Q := 2 ^ (- prec).

(** The integer nearest [q], the even one of two that are as near. *)
Definition round_half_even (q : Q) : Z :=
  let f := Qfloor q in
  match Qcompare (q - inject_Z f) (1 # 2) with
  | Lt => f
  | Gt => (f + 1)%Z
  | Eq => if Z.even f then f else (f + 1)%Z
  end.

(** The exponent of a positive rational: [2^e <= q < 2^(e+1)]. *)
Definition ilog2 (q : Q) : Z :=
  let k := (Z.log2 (Qnum q) - Z.log2 (Z.pos (Qden q)))%Z in
  if Qle_bool (2 ^ k) q then k else (k - 1)%Z.

(** The exponent of the unit in the last place of the doubles around [q]:
    52 below the exponent of [q], and -1074 for the subnormals. *)
Definition ulp_exp (q : Q) : Z := Z.max (ilog2 q - (prec - 1)) emin.

(** The multiple of the unit in the last place nearest a positive [q]. *)
Definition nearest_pos (q : Q) : Q :=
  inject_Z (round_half_even (q / 2 ^ ulp_exp q)) * 2 ^ ulp_exp q.

(** The value of the double nearest [q], in lowest terms. *)
Definition nearest (q : Q) : Q :=
  match Qcompare q 0 with
  | Eq => 0
  | Gt => Qred (nearest_pos q)
  | Lt => Qred (- nearest_pos (- q))
  end.

(** The number a real result is rounded to: the nearest double, an
    infinity when that is out of range, and the zero of the sign of the
    result when it is zero. *)
Definition round (q : Q) : number :=
  let r := nearest q in
  if Qle_bool (2 ^ emax) (Qabs r) then Inf (is_neg q)
  else if is_zero r then signed_zero (is_neg q)
  else Fin r.

(** The least number that is rounded to an infinity: half way between the
    largest double and [2^1024]. *)
Definition overflow_threshold : Q := 2 ^ emax - 2 ^ (emax - prec - 1).

(** [a * b] and [a / b]: the exact result, rounded. *)
Definition mul (a b : number) : number :=
  match num_mul a b with Fin q => round q | n => n end.

Definition div (a b : number) : number :=
  match num_div a b with Fin q => round q | n => n end.

(** A double: a number that rounding leaves as it is. *)
Definition double (q : Q) : Prop := nearest q = q.

(** [x] is [y] up to a relative error of [e]. *)
Definition within (e x y : Q) : Prop := Qabs (x - y) <= e * y.

(** The numbers that are rounded without underflow and without overflow. *)
Definition normal (q : Q) : Prop :=
  2 ^ (emin + (prec - 1)) <= q ∧ q * (1 + u) < 2 ^ emax.

(** ** Lemmas *)

Lemma u_pos : 0 < u.
Proof. done. Qed.

Lemma u_nonneg : 0 <= u.
Proof. done. Qed.

Lemma pow2_pos k : 0 < 2 ^ k.
Proof. by apply Qpower_0_lt. Qed.

#[export] Hint Resolve u_pos u_nonneg pow2_pos : paystub.

Lemma inject_Z_succ z : inject_Z (z + 1) = inject_Z z + 1.
Proof. by rw inject_Z_plus. Qed.

Lemma round_half_even_error q : Qabs (inject_Z (round_half_even q) - q) <= 1 # 2.
Proof.
  rw /round_half_even. have Hf := Qfloor_le q. have Hc := Qlt_floor q.
  rw inject_Z_succ in Hc.
  destruct (Qcompare_spec (q - inject_Z (Qfloor q)) (1 # 2)) as [He|Hl|Hg];
    [destruct (Z.even _)|..]; apply Qabs_Qle_condition; rw ?inject_Z_succ; split; lra.
Qed.

Lemma pow2_succ k : 2 ^ (k + 1) == 2 * 2 ^ k.
Proof. rewrite -> Qpower_plus by done. change (2 ^ 1) with 2. ring. Qed.

Lemma pow2_pred k : 2 ^ (k - 1) == (1 # 2) * 2 ^ k.
Proof. rewrite -> Qpower_minus by done. change (2 ^ 1) with 2. by field. Qed.

Lemma pow2_log2 n : (0 < n)%Z → 2 ^ Z.log2 n <= inject_Z n < 2 * 2 ^ Z.log2 n.
Proof.
  move=> Hn. have [Hl Hu] := Z.log2_spec n Hn. have H0 := Z.log2_nonneg n.
  rewrite <- pow2_succ. rewrite <- !(Zpower_Qpower 2) by lia.
  rewrite <- Zle_Qle, <- Zlt_Qlt. lia.
Qed.

Lemma ilog2_spec q : 0 < q → 2 ^ ilog2 q <= q < 2 ^ (ilog2 q + 1).
Proof.
  move=> Hq. rw /ilog2. set k := (_ - _)%Z.
  have Hn : (0 < Qnum q)%Z by (move: Hq; rw /Qlt /=; lia).
  have [HA1 HA2] := pow2_log2 _ Hn.
  have [HB1 HB2] := pow2_log2 (Z.pos (Qden q)) ltac:(done).
  have HP : 2 ^ k * 2 ^ Z.log2 (Z.pos (Qden q)) == 2 ^ Z.log2 (Qnum q).
  { rewrite <- Qpower_plus by done. by rw /k Z.sub_add. }
  have Hqd : q * inject_Z (Z.pos (Qden q)) == inject_Z (Qnum q).
  { rw /Qeq /=. lia. }
  have HPp := pow2_pos k. have HBp := pow2_pos (Z.log2 (Z.pos (Qden q))).
  move: HA1 HA2 HB1 HB2 HP Hqd HPp HBp.
  generalize (2 ^ Z.log2 (Qnum q)) (2 ^ Z.log2 (Z.pos (Qden q)))
    (inject_Z (Qnum q)) (inject_Z (Z.pos (Qden q)))=> A B N D.
  destruct (Qle_bool (2 ^ k) q) eqn:Hle.
  - move: Hle=> /Qle_bool_iff Hle. rewrite -> pow2_succ. move: Hle.
    generalize (2 ^ k)=> P *. split; [done|].
    apply (Qmult_lt_r _ _ D); [lra|].
    have : 0 <= P * (D - B) by (apply Qmult_le_0_compat; lra). lra.
  - have Hlt : q < 2 ^ k.
    { apply Qnot_le_lt=> /Qle_bool_iff. by rw Hle. }
    rewrite -> Z.sub_add, pow2_pred. move: Hlt. generalize (2 ^ k)=> P *. split; [|done].
    apply (Qmult_le_r _ _ D); [lra|].
    have : 0 < P * (2 * B - D) by (apply Qmult_lt_0_compat; lra). lra.
Qed.


Lemma pow2_le a b : (a <= b)%Z → 2 ^ a <= 2 ^ b.
Proof. move=> Hab. by apply Qpower_le_compat_l. Qed.

Lemma pow2_lt_inv a b : 2 ^ a < 2 ^ b → (a < b)%Z.
Proof.
  move=> Hlt. apply Z.lt_nge=> /pow2_le Hle. by apply (Qlt_not_le _ _ Hlt).
Qed.

(** The exponent of a number between two powers of two. *)
Lemma ilog2_bounds q a b :
  2 ^ a <= q → q < 2 ^ b → (a <= ilog2 q < b)%Z.
Proof.
  move=> Ha Hb. have Hq : 0 < q by (have := pow2_pos a; lra).
  have [Hl Hu] := ilog2_spec q Hq. split.
  - apply Z.lt_succ_r, pow2_lt_inv. rw /Z.succ. lra.
  - apply pow2_lt_inv. lra.
Qed.

Lemma ulp_exp_normal q :
  2 ^ (emin + (prec - 1)) <= q → ulp_exp q = (ilog2 q - (prec - 1))%Z.
Proof.
  move=> Hq. have Hp := pow2_pos (emin + (prec - 1)).
  have [Hl Hu] := ilog2_spec q ltac:(lra).
  have : (emin + (prec - 1) < ilog2 q + 1)%Z by (apply pow2_lt_inv; lra).
  rw /ulp_exp. lia.
Qed.

#[export] Instance round_half_even_proper : Proper (Qeq ==> eq) round_half_even.
Proof.
  move=> q1 q2 Hq. rw /round_half_even (Qfloor_comp _ _ Hq).
  have Hc : Qcompare (q1 - inject_Z (Qfloor q2)) (1 # 2)
            = Qcompare (q2 - inject_Z (Qfloor q2)) (1 # 2).
  { apply Qcompare_comp; [|done]. rewrite -> Hq. reflexivity. }
  by rw Hc.
Qed.

Lemma round_half_even_Z z : round_half_even (inject_Z z) = z.
Proof.
  rw /round_half_even Qfloor_Z.
  have Hz : inject_Z z - inject_Z z == 0 by ring. rewrite -> Hz. done.
Qed.

(** The rounded value is within half a unit in the last place. *)
Lemma nearest_pos_error q :
  Qabs (nearest_pos q - q) <= (1 # 2) * 2 ^ ulp_exp q.
Proof.
  rw /nearest_pos. have Hp := pow2_pos (ulp_exp q).
  have He := round_half_even_error (q / 2 ^ ulp_exp q).
  move: Hp He. generalize (2 ^ ulp_exp q)=> P Hp.
  generalize (round_half_even (q / P))=> m He.
  have Hm : inject_Z m * P - q == (inject_Z m - q / P) * P by (field; lra).
  rewrite -> Hm, Qabs_Qmult, (Qabs_pos P) by lra. by apply Qmult_le_compat_r; [|lra].
Qed.

(** In the normal range the error is at most [u] times the number. *)
Lemma nearest_pos_relative q :
  2 ^ (emin + (prec - 1)) <= q → Qabs (nearest_pos q - q) <= u * q.
Proof.
  move=> Hq. have Hp := pow2_pos (emin + (prec - 1)).
  have [Hl _] := ilog2_spec q ltac:(lra).
  have := nearest_pos_error q. rw ulp_exp_normal //.
  rewrite -> (Qpower_plus 2 (ilog2 q) (- (prec - 1))) by done.
  have Hu2 : 2 ^ (- (prec - 1)) == 2 * u by done.
  rewrite -> Hu2. move: Hl. generalize (2 ^ ilog2 q)=> E Hl Herr.
  have Hu := u_pos.
  have : 0 <= u * (q - E) by (apply Qmult_le_0_compat; lra). lra.
Qed.

Lemma nearest_positive q : 0 < q → nearest q == nearest_pos q.
Proof.
  move=> Hq. rw /nearest. move: Hq=> /Qgt_alt ->. apply Qred_correct.
Qed.

(** The nearest double is in lowest terms. *)
Lemma nearest_reduced q : Qred (nearest q) = nearest q.
Proof.
  rw /nearest. destruct (Qcompare q 0); [done|..]; apply Qred_complete, Qred_correct.
Qed.

Lemma nearest_is_zero q : is_zero (nearest q) = true → nearest q = 0.
Proof. move=> /is_zero_spec Hz. by rw -(nearest_reduced q) Qred_zero. Qed.

(** A rounded value below [2^1024] is the result; there is no overflow. *)
Lemma round_finite q :
  0 <= q → Qabs (nearest q) < 2 ^ emax → round q = Fin (nearest q).
Proof.
  move=> Hq Hlt. rw /round is_neg_nonneg //. destruct (Qle_bool _ _) eqn:Hle.
  - move: Hle=> /Qle_bool_iff Hle. by apply Qlt_not_le in Hlt.
  - destruct (is_zero _) eqn:Hz; [|done]. by rw /= nearest_is_zero.
Qed.

(** ** Relative error *)

#[export] Instance within_proper : Proper (Qeq ==> Qeq ==> Qeq ==> iff) within.
Proof. move=> e e' He x x' Hx y y' Hy. rw /within. by rewrite -> He, Hx, Hy. Qed.

Lemma within_bounds e x y : within e x y ↔ y - e * y <= x <= y + e * y.
Proof.
  rw /within. split.
  - move=> /Qabs_Qle_condition [? ?]. split; lra.
  - move=> [? ?]. apply Qabs_Qle_condition. split; lra.
Qed.

Lemma within_weaken e e' x y : e <= e' → 0 <= y → within e x y → within e' x y.
Proof.
  move=> He Hy /within_bounds [Hl Hu]. apply within_bounds.
  have : 0 <= (e' - e) * y by (apply Qmult_le_0_compat; lra). split; lra.
Qed.

Lemma within_scale c e x y : 0 <= c → within e x y → within e (c * x) (c * y).
Proof.
  move=> Hc /within_bounds [Hl Hu]. apply within_bounds.
  have : 0 <= c * (x - (y - e * y)) by (apply Qmult_le_0_compat; lra).
  have : 0 <= c * (y + e * y - x) by (apply Qmult_le_0_compat; lra).
  split; lra.
Qed.

(** Errors compose: [(1 + e1) (1 + e2) = 1 + (e1 + e2 + e1 e2)]. *)
Lemma within_trans e1 e2 x y z :
  0 <= e1 → within e1 x y → within e2 y z → within (e1 + e2 + e1 * e2) x z.
Proof.
  move=> He /within_bounds [Hl1 Hu1] /within_bounds [Hl2 Hu2]. apply within_bounds.
  have : 0 <= e1 * (y - (z - e2 * z)) by (apply Qmult_le_0_compat; lra).
  have : 0 <= e1 * (z + e2 * z - y) by (apply Qmult_le_0_compat; lra).
  split; lra.
Qed.

(** A number within a half of a positive one is between its half and its
    double. *)
Lemma within_range e x y :
  0 <= e <= 1 # 2 → 0 <= y → within e x y → (1 # 2) * y <= x <= 2 * y.
Proof.
  move=> [He0 He] Hy /within_bounds [Hl Hu].
  have : 0 <= e * y by (apply Qmult_le_0_compat; lra).
  have : 0 <= ((1 # 2) - e) * y by (apply Qmult_le_0_compat; lra). split; lra.
Qed.

Lemma within_div e w x y : 0 < w → within e x y → within e (x / w) (y / w).
Proof.
  move=> Hw Hxy. have Hi := Qinv_lt_0_compat w Hw.
  have Hx : x / w == / w * x by (rw /Qdiv; ring).
  have Hy : y / w == / w * y by (rw /Qdiv; ring).
  rewrite -> Hx, Hy. apply within_scale; [lra|done].
Qed.

(** ** The operations *)

Lemma nearest_within q : 2 ^ (emin + (prec - 1)) <= q → within u (nearest q) q.
Proof.
  move=> Hq. have Hp := pow2_pos (emin + (prec - 1)). rw /within.
  rewrite -> nearest_positive by lra. by apply nearest_pos_relative.
Qed.

(** A number of the normal range is rounded to a finite number, within
    [u] of it. *)
Lemma round_normal q : normal q → round q = Fin (nearest q).
Proof.
  move=> [Hq Hmax]. have Hp := pow2_pos (emin + (prec - 1)). have Hu0 := u_pos.
  apply round_finite; [lra|].
  move: (nearest_within q Hq)=> /within_bounds [Hl Hu].
  have : 0 <= u * q by (apply Qmult_le_0_compat; lra).
  move=> ?. apply Qabs_Qlt_condition. split; lra.
Qed.

Lemma round_accurate q : normal q → ∃ r, round q = Fin r ∧ within u r q.
Proof.
  move=> Hn. exists (nearest q). split; [by apply round_normal|].
  by apply nearest_within, Hn.
Qed.

#[export] Instance normal_proper : Proper (Qeq ==> iff) normal.
Proof. move=> q q' Hq. rw /normal. by rewrite -> Hq. Qed.

(** The normal range is an interval. *)
Lemma normal_between lo hi q : normal lo → normal hi → lo <= q <= hi → normal q.
Proof.
  move=> [Hlo _] [_ Hhi] [Hl Hh]. split; [lra|].
  have Hu := u_pos.
  have : 0 <= (hi - q) * (1 + u) by (apply Qmult_le_0_compat; lra). lra.
Qed.

Lemma normal_pos q : normal q → 0 < q.
Proof. move=> [Hq _]. have := pow2_pos (emin + (prec - 1)). lra. Qed.

(** The factors of a product that is not zero, and the terms of such a
    quotient, are not zero. *)
Lemma mul_nonzero a b : 0 < a * b → is_zero a = false ∧ is_zero b = false.
Proof.
  move=> Hab. split; apply is_zero_false=> Hz; rewrite -> Hz in Hab; lra.
Qed.

Lemma div_nonzero a b : 0 < a / b → is_zero a = false.
Proof.
  move=> Hab. apply is_zero_false=> Hz. rewrite -> Hz in Hab.
  move: Hab. rw /Qdiv. lra.
Qed.

Lemma mul_accurate a b :
  normal (a * b) → ∃ r, mul (Fin a) (Fin b) = Fin r ∧ within u r (a * b).
Proof.
  move=> Hn. destruct (mul_nonzero a b (normal_pos _ Hn)) as [Ha Hb].
  rw /mul num_mul_finite //.
  destruct (round_accurate (Qred (a * b))) as [r [Hr Hw]];
    [by rewrite -> Qred_correct|].
  exists r. split; [done|]. by rewrite <- (Qred_correct (a * b)).
Qed.

Lemma div_accurate a b :
  ¬ b == 0 → normal (a / b) →
  ∃ r, div (Fin a) (Fin b) = Fin r ∧ within u r (a / b).
Proof.
  move=> Hb Hn. rw /div num_div_finite; [|by eapply div_nonzero, normal_pos|by apply is_zero_false].
  destruct (round_accurate (Qred (a / b))) as [r [Hr Hw]];
    [by rewrite -> Qred_correct|].
  exists r. split; [done|]. by rewrite <- (Qred_correct (a / b)).
Qed.

(** ** Rounding respects the value *)

Lemma ilog2_unique q e : 2 ^ e <= q → q < 2 ^ (e + 1) → ilog2 q = e.
Proof. move=> Hl Hu. have := ilog2_bounds q e (e + 1) Hl Hu. lia. Qed.

Lemma ilog2_proper q q' : 0 < q → q == q' → ilog2 q' = ilog2 q.
Proof.
  move=> Hq Heq. have [Hl Hu] := ilog2_spec q Hq.
  apply ilog2_unique; by rewrite <- Heq.
Qed.

Lemma nearest_pos_proper q q' : 0 < q → q == q' → nearest_pos q' == nearest_pos q.
Proof.
  move=> Hq Heq. rw /nearest_pos /ulp_exp (ilog2_proper q q') //.
  by rewrite <- Heq.
Qed.

#[export] Instance nearest_proper : Proper (Qeq ==> eq) nearest.
Proof.
  move=> q q' Heq. rw /nearest.
  have <- : Qcompare q 0 = Qcompare q' 0 by apply Qcompare_comp.
  destruct (Qcompare_spec q 0) as [H0|Hlt|Hgt]; [done|..]; apply Qred_complete.
  - rewrite -> (nearest_pos_proper (- q) (- q')); [done|lra|by rewrite -> Heq].
  - by rewrite -> (nearest_pos_proper q q').
Qed.

#[export] Instance round_proper : Proper (Qeq ==> eq) round.
Proof.
  move=> q q' Heq. rw /round /is_neg (nearest_proper q q' Heq).
  by rw (Qleb_comp 0 0 (Qeq_refl 0) q q' Heq).
Qed.

(** The operators depend on the values of their operands alone. *)
#[export] Instance mul_proper : Proper (num_equiv ==> num_equiv ==> eq) mul.
Proof. move=> a a' Ha b b' Hb. rw /mul. by rewrite -> Ha, Hb. Qed.

#[export] Instance div_proper : Proper (num_equiv ==> num_equiv ==> eq) div.
Proof. move=> a a' Ha b b' Hb. rw /div. by rewrite -> Ha, Hb. Qed.

(** ** Doubles

    A double is a number that rounding leaves as it is.  The results of
    rounding are doubles: a rounded number is a whole number of units in
    its last place, of at most 53 bits. *)

Lemma inject_Z_pos z : (0 < z)%Z → 0 < inject_Z z.
Proof. rw /Qlt /=. lia. Qed.

Lemma round_half_even_nonneg q : 0 <= q → (0 <= round_half_even q)%Z.
Proof.
  move=> Hq. have Hf : (0 <= Qfloor q)%Z.
  { change 0%Z with (Qfloor 0). by apply Qfloor_resp_le. }
  rw /round_half_even. repeat case_match; lia.
Qed.

Lemma round_half_even_le q k : q <= inject_Z k → (round_half_even q <= k)%Z.
Proof.
  move=> Hq. have Hf := Qfloor_le q.
  have Hfk : (Qfloor q <= k)%Z by (rewrite -> Zle_Qle; lra).
  rw /round_half_even.
  destruct (Qcompare_spec (q - inject_Z (Qfloor q)) (1 # 2)) as [He|Hl|Hg];
    [destruct (Z.even _)|..]; try done.
  all: apply Zlt_le_succ; rewrite -> Zlt_Qlt; lra.
Qed.

(** A number that is a whole number of units in its last place is
    rounded to itself. *)
Lemma nearest_pos_exact r k :
  r == inject_Z k * 2 ^ ulp_exp r → nearest_pos r == r.
Proof.
  move=> Hr. rw /nearest_pos. have Hp := pow2_pos (ulp_exp r).
  have Hd : r / 2 ^ ulp_exp r == inject_Z k.
  { rewrite -> Hr at 1. field. lra. }
  rewrite -> Hd, round_half_even_Z. by rewrite <- Hr.
Qed.

Lemma pow2_inject_Z t : (0 <= t)%Z → inject_Z (2 ^ t) == 2 ^ t.
Proof. move=> Ht. by rewrite -> (Zpower_Qpower 2). Qed.

(** A multiple of a power of two with at most 53 bits is rounded to
    itself. *)
Lemma nearest_pos_multiple m s :
  (0 < m <= 2 ^ prec)%Z → (emin <= s)%Z →
  nearest_pos (inject_Z m * 2 ^ s) == inject_Z m * 2 ^ s.
Proof.
  move=> [Hm0 /Zle_lt_or_eq [Hm|->]] Hs; set r := inject_Z _ * 2 ^ s;
    have Hp := pow2_pos s; have HP := pow2_inject_Z prec ltac:(done).
  - have Hmq := inject_Z_pos m Hm0.
    have Hr : 0 < r by apply Qmult_lt_0_compat.
    have [Hl _] := ilog2_spec r Hr.
    have Hlt : (ilog2 r < prec + s)%Z.
    { apply pow2_lt_inv. rewrite -> (Qpower_plus 2 prec s) by done. rewrite <- HP.
      have : inject_Z m < inject_Z (2 ^ prec) by rewrite <- Zlt_Qlt.
      move: Hl. rw /r. generalize (2 ^ ilog2 (inject_Z m * 2 ^ s)) (inject_Z m)
        (inject_Z (2 ^ prec)) (2 ^ s) Hp=> E M P S HS HE HM.
      have : 0 < (P - M) * S by (apply Qmult_lt_0_compat; lra). lra. }
    apply (nearest_pos_exact r (m * 2 ^ (s - ulp_exp r))).
    have Ht : (0 <= s - ulp_exp r)%Z by (rw /ulp_exp /prec in Hlt |- *; lia).
    rewrite -> inject_Z_mult, (pow2_inject_Z _ Ht).
    rewrite <- Qmult_assoc, <- Qpower_plus by done. by rw Z.sub_add.
  - have Hr : r == 2 ^ (prec + s).
    { rw /r. rewrite -> HP. by rewrite <- Qpower_plus. }
    have He : ilog2 r = (prec + s)%Z.
    { have Hpp := pow2_pos (prec + s).
      apply ilog2_unique; rewrite -> ?pow2_succ, Hr; lra. }
    apply (nearest_pos_exact r (2 ^ (prec - 1))).
    rw /ulp_exp He. have -> : Z.max (prec + s - (prec - 1)) emin = (s + 1)%Z by lia.
    rewrite -> Hr, (pow2_inject_Z (prec - 1) ltac:(by vm_compute)).
    rewrite <- Qpower_plus by done.
    by have -> : (prec - 1 + (s + 1) = prec + s)%Z by lia.
Qed.

Lemma ulp_exp_min q : (emin <= ulp_exp q)%Z.
Proof. rw /ulp_exp. lia. Qed.

(** The mantissa of a rounded number has at most 53 bits. *)
Lemma mantissa_bounds q :
  0 < q → (0 <= round_half_even (q / 2 ^ ulp_exp q) <= 2 ^ prec)%Z.
Proof.
  move=> Hq. have Hp := pow2_pos (ulp_exp q). have [_ Hu] := ilog2_spec q Hq.
  have Hd : 0 <= q / 2 ^ ulp_exp q.
  { apply Qle_shift_div_l; lra. }
  split; [by apply round_half_even_nonneg|]. apply round_half_even_le.
  apply Qle_shift_div_r; [done|]. rewrite -> pow2_inject_Z, <- Qpower_plus by done.
  have := pow2_le (ilog2 q + 1) (prec + ulp_exp q) ltac:(rw /ulp_exp /prec; lia). lra.
Qed.

(** Rounding twice is rounding once. *)
Lemma nearest_pos_idempotent q :
  0 < q → nearest_pos q == 0 ∨ (0 < nearest_pos q ∧ nearest_pos (nearest_pos q) == nearest_pos q).
Proof.
  move=> Hq. have [/Zle_lt_or_eq [Hm0|Hm0] Hm] := mantissa_bounds q Hq.
  - right. have Hp := pow2_pos (ulp_exp q). split.
    + apply Qmult_lt_0_compat; [by apply inject_Z_pos|done].
    + apply nearest_pos_multiple; [done|apply ulp_exp_min].
  - left. rw /nearest_pos -Hm0. ring.
Qed.

Lemma nearest_zero q : q == 0 → nearest q = 0.
Proof. move=> Hq. by rw (nearest_proper q 0 Hq). Qed.

Lemma nearest_idempotent q : double (nearest q).
Proof.
  rw /double. destruct (Qcompare_spec q 0) as [H0|Hlt|Hgt].
  - by rw (nearest_zero q H0).
  - have Hn : nearest q = Qred (- nearest_pos (- q)).
    { rw /nearest. by move: Hlt=> /Qlt_alt ->. }
    destruct (nearest_pos_idempotent (- q)) as [Hz|[Hpos Hid]]; [lra|..]; rw Hn.
    + have -> : Qred (- nearest_pos (- q)) = 0; [|done].
      apply (Qred_complete _ 0). rewrite -> Hz. ring.
    + have Hr : Qred (- nearest_pos (- q)) == - nearest_pos (- q) by apply Qred_correct.
      rw (nearest_proper _ _ Hr) /nearest.
      have /Qlt_alt -> : - nearest_pos (- q) < 0 by lra.
      apply Qred_complete.
      rewrite -> (nearest_pos_proper (nearest_pos (- q)) (- - nearest_pos (- q)));
        [by rewrite -> Hid|done|ring].
  - have Hn : nearest q = Qred (nearest_pos q).
    { rw /nearest. by move: Hgt=> /Qgt_alt ->. }
    destruct (nearest_pos_idempotent q) as [Hz|[Hpos Hid]]; [done|..]; rw Hn.
    + have -> : Qred (nearest_pos q) = 0; [|done]. by apply (Qred_complete _ 0).
    + have Hr := Qred_correct (nearest_pos q).
      rw (nearest_proper _ _ Hr) /nearest. move: (Hpos)=> /Qgt_alt ->.
      by apply Qred_complete.
Qed.

(** Integers below [2^53] are doubles. *)
Lemma nearest_pos_Z z : (0 < z < 2 ^ prec)%Z → nearest_pos (inject_Z z) == inject_Z z.
Proof.
  move=> [Hz0 Hz]. have Hq : inject_Z z * 2 ^ 0 == inject_Z z by (change (2 ^ 0) with 1; ring).
  have Hpos : 0 < inject_Z z * 2 ^ 0 by (rewrite -> Hq; apply inject_Z_pos).
  rewrite -> (nearest_pos_proper _ _ Hpos Hq), nearest_pos_multiple; [done|lia|done].
Qed.

Lemma Qred_inject_Z z : Qred (inject_Z z) = inject_Z z.
Proof.
  rw /Qred /inject_Z. have := Z.ggcd_gcd z 1. have := Z.ggcd_correct_divisors z 1.
  destruct (Z.ggcd z 1) as [g [aa bb]]. rw /= Z.gcd_1_r. move=> [Ha Hb] Hg.
  subst g. f_equal; [lia|]. apply Pos2Z.inj. rw Z2Pos.id; lia.
Qed.

(** Integers below [2^53] are doubles: rounding leaves them as they
    are, so [of_Z] is the number that a side of a canvas is stored as. *)
Lemma round_Z z : (0 <= z < 2 ^ prec)%Z → round (inject_Z z) = of_Z z.
Proof.
  move=> [/Zle_lt_or_eq [Hz0|<-] Hz]; [|done].
  have Hn : nearest (inject_Z z) = inject_Z z.
  { rw /nearest. have /Qgt_alt -> : 0 < inject_Z z by (apply inject_Z_pos; lia).
    rw -{2}(Qred_inject_Z z). by apply Qred_complete, nearest_pos_Z. }
  have H0 : 0 < inject_Z z by (apply inject_Z_pos; lia).
  rw /of_Z round_finite ?Hn //; [lra|]. apply Qabs_Qlt_condition.
  have : inject_Z z < inject_Z (2 ^ prec) by (rewrite <- Zlt_Qlt; lia).
  have : 0 < inject_Z z by (apply inject_Z_pos; lia).
  have : inject_Z (2 ^ prec) < 2 ^ emax by done. split; lra.
Qed.

(** ** Overflow *)

Lemma inject_Z_sub z k : inject_Z (z - k) = inject_Z z - inject_Z k.
Proof. by rw /Z.sub inject_Z_plus inject_Z_opp. Qed.

Lemma round_half_even_ge q k : inject_Z k <= q → (k <= round_half_even q)%Z.
Proof.
  move=> Hq. have Hf : (k <= Qfloor q)%Z.
  { rw -(Qfloor_Z k). by apply Qfloor_resp_le. }
  rw /round_half_even. repeat case_match; lia.
Qed.

(** Rounding reaches an even integer from half a unit below it. *)
Lemma round_half_even_threshold q k :
  Z.even k = true → (k <= round_half_even q)%Z ↔ inject_Z k - (1 # 2) <= q.
Proof.
  move=> Hk. have Hf := Qfloor_le q. have Hc := Qlt_floor q.
  rw inject_Z_succ in Hc. rw /round_half_even.
  have Hodd : Qfloor q = (k - 1)%Z → Z.even (Qfloor q) = false.
  { move=> ->. by rw Z.even_pred -Z.negb_even Hk. }
  destruct (Z.le_gt_cases k (Qfloor q)) as [Hge|Hlt].
  { have Hkq : inject_Z k <= inject_Z (Qfloor q) by rewrite <- Zle_Qle.
    split; [lra|]. move=> _. repeat case_match; lia. }
  destruct (Z.eq_dec (Qfloor q) (k - 1)%Z) as [Heq|Hne].
  - have HF : inject_Z (Qfloor q) = inject_Z k - 1 by rw Heq inject_Z_sub.
    rw (Hodd Heq) HF in Hf Hc |- *. rw Heq.
    destruct (Qcompare_spec (q - (inject_Z k - 1)) (1 # 2)) as [He|Hl|Hg];
      (split; [move=> ?; try lia; lra|move=> ?; try lra; lia]).
  - have HF : inject_Z (Qfloor q) <= inject_Z k - 2.
    { change 2 with (inject_Z 2). rw -inject_Z_sub. rewrite <- Zle_Qle. lia. }
    split; [|lra]. repeat case_match; lia.
Qed.

Lemma Qle_div_iff a q p : 0 < p → a <= q / p ↔ a * p <= q.
Proof.
  move=> Hp. split; [|by apply Qle_shift_div_l].
  move=> Ha. have Hq : q / p * p == q by (field; lra).
  rewrite <- Hq. by apply Qmult_le_compat_r; [|lra].
Qed.

(** A rounded number is at most the next power of two, and in the normal
    range at least the last one. *)
Lemma nearest_pos_upper q : 0 < q → nearest_pos q <= 2 ^ (prec + ulp_exp q).
Proof.
  move=> Hq. have [_ Hm] := mantissa_bounds q Hq. have Hp := pow2_pos (ulp_exp q).
  rw /nearest_pos. rewrite -> Qpower_plus, <- (pow2_inject_Z prec) by done.
  apply Qmult_le_compat_r; [by rewrite <- Zle_Qle|lra].
Qed.

Lemma nearest_pos_lower q :
  2 ^ (emin + (prec - 1)) <= q → 2 ^ ilog2 q <= nearest_pos q.
Proof.
  move=> Hq. have Hp := pow2_pos (emin + (prec - 1)).
  have [Hl _] := ilog2_spec q ltac:(lra).
  rw /nearest_pos ulp_exp_normal //. set s := (ilog2 q - (prec - 1))%Z.
  have Hs := pow2_pos s.
  have He : 2 ^ ilog2 q == inject_Z (2 ^ (prec - 1)) * 2 ^ s.
  { rewrite -> pow2_inject_Z, <- Qpower_plus by done. by rw /s Zplus_minus. }
  rewrite -> He. apply Qmult_le_compat_r; [|lra]. rewrite <- Zle_Qle.
  apply round_half_even_ge, Qle_div_iff; [done|]. by rewrite <- He.
Qed.

(** A positive number is rounded to [2^1024] or more exactly when it is
    at least half way between the largest double and [2^1024]. *)
Lemma nearest_pos_overflow q :
  0 < q → 2 ^ emax <= nearest_pos q ↔ overflow_threshold <= q.
Proof.
  move=> Hq. have [Hl Hu] := ilog2_spec q Hq.
  have Hth : 2 ^ (emax - 1) < overflow_threshold ∧ overflow_threshold < 2 ^ emax
    by split; vm_compute.
  destruct (Z.lt_trichotomy (ilog2 q) (emax - 1)) as [Hlt|[Heq|Hgt]].
  - have Hup := nearest_pos_upper q Hq.
    have Hle := pow2_le (prec + ulp_exp q) (emax - 1)
                  ltac:(rw /ulp_exp /prec /emin /emax in Hlt |- *; lia).
    have Hle' := pow2_le (ilog2 q + 1) (emax - 1) ltac:(lia).
    have := pow2_succ (emax - 1). have := pow2_pos (emax - 1).
    rw Z.sub_add. split; lra.
  - have Hs : ulp_exp q = (emax - 1 - (prec - 1))%Z by rw /ulp_exp Heq.
    have Hp := pow2_pos (ulp_exp q).
    have H1 : 2 ^ emax == inject_Z (2 ^ prec) * 2 ^ ulp_exp q by rw Hs.
    have H2 : overflow_threshold == (inject_Z (2 ^ prec) - (1 # 2)) * 2 ^ ulp_exp q
      by rw Hs.
    rw /nearest_pos. rewrite -> H1, H2, (Qmult_le_r _ _ _ Hp), <- Zle_Qle.
    rewrite <- (Qle_div_iff _ q _ Hp).
    by apply round_half_even_threshold.
  - have Hlow := nearest_pos_lower q.
    have Hle := pow2_le emax (ilog2 q) ltac:(lia).
    have Hmin : 2 ^ (emin + (prec - 1)) <= 2 ^ emax by done.
    split; move=> _; lra.
Qed.

Lemma nearest_pos_nonneg q : 0 < q → 0 <= nearest_pos q.
Proof.
  move=> Hq. have [Hm _] := mantissa_bounds q Hq. have Hp := pow2_pos (ulp_exp q).
  apply Qmult_le_0_compat; [|lra]. by rewrite -> (Zle_Qle 0) in Hm.
Qed.

(** Rounding overflows from the threshold on. *)
Lemma round_overflow q :
  0 <= q → round q = Inf false ↔ overflow_threshold <= q.
Proof.
  move=> /Qle_lt_or_eq [Hq|Hq].
  - have Hov := nearest_pos_overflow q Hq.
    have Hneg : is_neg q = false.
    { rw /is_neg. apply negb_false_iff, Qle_bool_iff. lra. }
    have Habs : Qabs (nearest q) == nearest_pos q.
    { rewrite -> (nearest_positive q Hq). by apply Qabs_pos, nearest_pos_nonneg. }
    rw /round Hneg. destruct (Qle_bool _ _) eqn:Hb.
    + split; [|done]. move=> _. apply Hov. move: Hb=> /Qle_bool_iff.
      by rewrite -> Habs.
    + split; [by destruct (is_zero _)|]. move=> /Hov Hle.
      have : Qle_bool (2 ^ emax) (Qabs (nearest q)) = true.
      { apply Qle_bool_iff. by rewrite -> Habs. }
      by rw Hb.
  - have -> : round q = Fin 0 by rw -(round_proper 0 q Hq).
    split; [done|]. have : 0 < overflow_threshold by vm_compute. lra.
Qed.

(** The finite results of rounding and of the operators are doubles,
    whatever the operands. *)
Lemma round_double q r : round q = Fin r → double r.
Proof.
  rw /round. case: (Qle_bool _ _); [done|]. destruct (is_zero _).
  - destruct (is_neg q); [done|]. by move=> [<-].
  - move=> [<-]. apply nearest_idempotent.
Qed.

Lemma mul_is_double a b r : mul a b = Fin r → double r.
Proof. rw /mul. destruct (num_mul _ _); [done..|]. apply round_double. Qed.

Lemma div_is_double a b r : div a b = Fin r → double r.
Proof. rw /div. destruct (num_div _ _); [done..|]. apply round_double. Qed.

(** ** Signs

    Rounding keeps the sign, of a result rounded to zero too, so the
    operators have the sign of the exact result. *)

Lemma nearest_sign q : is_zero (nearest q) = false → is_neg (nearest q) = is_neg q.
Proof.
  destruct (Qcompare_spec q 0) as [H0|Hlt|Hgt]; [by rw (nearest_zero q H0)|..];
    move=> /sign_cases Hs.
  - have Hn := nearest_pos_nonneg (- q) ltac:(lra).
    have Hq : is_neg q = true by apply is_neg_spec.
    have Heq : nearest q == - nearest_pos (- q).
    { rw /nearest. move: Hlt=> /Qlt_alt ->. apply Qred_correct. }
    destruct Hs as [[-> _]|[_ Hpos]]; [done|]. rewrite -> Heq in Hpos. lra.
  - have Hn := nearest_pos_nonneg q Hgt. have Heq := nearest_positive q Hgt.
    rw (is_neg_nonneg q); [|lra]. apply is_neg_nonneg. rewrite -> Heq. done.
Qed.

Lemma round_sign q : sign_bit (round q) = is_neg q.
Proof.
  rw /round. destruct (Qle_bool _ _); [done|]. destruct (is_zero _) eqn:Hz.
  - apply sign_bit_signed_zero.
  - by apply nearest_sign.
Qed.

Lemma mul_sign a b :
  mul a b = NaN ∨ sign_bit (mul a b) = xorb (sign_bit a) (sign_bit b).
Proof.
  rw /mul. destruct (num_mul_sign a b) as [->|<-]; [by left|].
  destruct (num_mul a b); auto. right. apply round_sign.
Qed.

Lemma div_sign a b :
  div a b = NaN ∨ sign_bit (div a b) = xorb (sign_bit a) (sign_bit b).
Proof.
  rw /div. destruct (num_div_sign a b) as [->|<-]; [by left|].
  destruct (num_div a b); auto. right. apply round_sign.
Qed.

(** Division by zero has no finite result; a positive number divided by
    zero is [Infinity]. *)
Lemma div_by_zero a : is_finite (div a (Fin 0)) = false.
Proof. rw /div. have := num_div_by_zero a. by destruct (num_div a (Fin 0)). Qed.

Lemma div_positive_by_zero p : 0 < p → div (Fin p) (Fin 0) = Inf false.
Proof.
  move=> Hp. rw /div /num_div /= is_zero_false; [|lra]. by rw is_neg_nonneg; [|lra].
Qed.

(** ** Scaling by two *)

Lemma ilog2_double q : 0 < q → ilog2 (2 * q) = (ilog2 q + 1)%Z.
Proof.
  move=> Hq. have [Hl Hu] := ilog2_spec q Hq.
  apply ilog2_unique; rewrite -> !pow2_succ in *; lra.
Qed.

(** Twice a number of the normal range is rounded to twice what the
    number is rounded to. *)
Lemma nearest_pos_double q :
  2 ^ (emin + (prec - 1)) <= q → nearest_pos (2 * q) == 2 * nearest_pos q.
Proof.
  move=> Hq. have Hp := pow2_pos (emin + (prec - 1)).
  rw /nearest_pos !ulp_exp_normal; [|lra..]. rw ilog2_double; [|lra].
  have -> : (ilog2 q + 1 - (prec - 1) = ilog2 q - (prec - 1) + 1)%Z by lia.
  have := pow2_pos (ilog2 q - (prec - 1)). have := pow2_succ (ilog2 q - (prec - 1)).
  generalize (2 ^ (ilog2 q - (prec - 1) + 1)) (2 ^ (ilog2 q - (prec - 1)))=> P2 P HP2 HP.
  have Hd : 2 * q / P2 == q / P by (rewrite -> HP2; field; lra).
  rewrite -> Hd, HP2. ring.
Qed.

Lemma nearest_double q :
  2 ^ (emin + (prec - 1)) <= q → nearest (2 * q) = Qred (2 * nearest q).
Proof.
  move=> Hq. have Hp := pow2_pos (emin + (prec - 1)).
  have H2 : 0 < 2 * q by lra. have H1 : 0 < q by lra.
  rw /nearest. move: H2 H1=> /Qgt_alt -> /Qgt_alt ->. apply Qred_complete.
  rewrite -> Qred_correct. by apply nearest_pos_double.
Qed.

(** Doubling an operand doubles the product, exactly. *)
Lemma mul_double a b :
  normal (a * b) → normal (2 * (a * b)) →
  mul (Fin (2 * a)) (Fin b) = num_mul (Fin 2) (mul (Fin a) (Fin b)).
Proof.
  move=> Hn Hn2. destruct (mul_nonzero a b (normal_pos _ Hn)) as [Ha Hb].
  have Ha2 : is_zero (2 * a) = false by rw is_zero_double.
  rw /mul !num_mul_finite //.
  have -> : round (Qred (a * b)) = Fin (nearest (a * b)).
  { rewrite -> (Qred_correct (a * b)). by apply round_normal. }
  have -> : round (Qred (2 * a * b)) = Fin (nearest (2 * (a * b))).
  { have Heq : Qred (2 * a * b) == 2 * (a * b) by (rewrite -> Qred_correct; ring).
    rewrite -> Heq. by apply round_normal. }
  rw nearest_double; [|by destruct Hn].
  rw num_mul_finite //. apply is_zero_false.
  have := nearest_within _ (proj1 Hn). have := normal_pos _ Hn. have := u_pos.
  move=> Hu Hp /within_bounds [Hl _] Hz. rewrite -> Hz in Hl.
  have : u * (a * b) < a * b; [|lra].
  rewrite <- (Qmult_1_l (a * b)) at 2. apply Qmult_lt_compat_r; [done|by vm_compute].
Qed.

(** Doubling both operands leaves the quotient as it is. *)
Lemma div_double a b :
  ¬ b == 0 → div (Fin (Qred (2 * a))) (Fin (2 * b)) = div (Fin a) (Fin b).
Proof.
  move=> Hb. rw /div /num_div /=.
  rw !(is_zero_proper _ _ (Qred_correct _)) !(is_neg_proper _ _ (Qred_correct _)).
  rw !is_zero_double !is_neg_double.
  rw (is_zero_false b) //. destruct (is_zero a); [done|]. apply round_proper.
  rewrite -> !Qred_correct. by field.
Qed.

(** ** Theorems *)

(** C27: the operators round once, to a double.  When the exact
    product and the exact quotient of two finite numbers are in the normal
    range, [a * b] is a finite number within [2^-53] of the product and
    [a / b] one within [2^-53] of the quotient, and both are doubles:
    rounding leaves them as they are. *)
Theorem operators_round_once a b :
  ¬ b == 0 → normal (a * b) → normal (a / b) →
  (∃ r, mul (Fin a) (Fin b) = Fin r ∧ within u r (a * b) ∧ double r)
  ∧ (∃ r, div (Fin a) (Fin b) = Fin r ∧ within u r (a / b) ∧ double r).
Proof.
  move=> Hb Hm Hd. split.
  - destruct (mul_accurate a b Hm) as [r [Hr Hw]]. exists r.
    split_and!; [done..|by eapply mul_is_double].
  - destruct (div_accurate a b Hb Hd) as [r [Hr Hw]]. exists r.
    split_and!; [done..|by eapply div_is_double].
Qed.

Lemma operators_round_once_witness :
  (∃ r, mul (Fin 1684) (Fin (59528 # 100)) = Fin r
        ∧ within u r (1684 * (59528 # 100)) ∧ double r)
  ∧ (∃ r, div (Fin 1684) (Fin (59528 # 100)) = Fin r
          ∧ within u r (1684 / (59528 # 100)) ∧ double r).
Proof. by apply (operators_round_once 1684 (59528 # 100)). Defined.

(** The nearest double to one tenth is not one tenth, and two doubles
    that are as near round to the even one. *)
Example one_tenth : nearest (1 # 10) = 3602879701896397 # 36028797018963968.
Proof. by vm_compute. Qed.

Example tie_to_even :
  nearest (inject_Z (2 ^ 53 + 1)) = inject_Z (2 ^ 53)
  ∧ nearest (inject_Z (2 ^ 53 + 3)) = inject_Z (2 ^ 53 + 4).
Proof. by vm_compute. Qed.

(** Below [2^-1022] the doubles are the multiples of [2^-1074]: half of
    the least one is rounded to zero, three halves of it to twice it. *)
Example subnormals :
  nearest ((1 # 2) * 2 ^ (-1074)) = 0
  ∧ nearest ((3 # 2) * 2 ^ (-1074)) == 2 * 2 ^ (-1074)
  ∧ nearest (- (1 # 3)) = - nearest (1 # 3).
Proof. by vm_compute. Qed.

Example overflow : round (2 ^ 1024) = Inf false.
Proof. by vm_compute. Qed.

(** Negative zero is the product of zero and a negative number, the
    quotient of a negative number and an infinity, and what a negative
    number below the subnormals is rounded to; one divided by it is the
    negative infinity, and it is falsy. *)
Example negative_zero :
  mul (Fin 0) (Fin (-5)) = NegZero
  ∧ div (Fin (-1)) (Inf false) = NegZero
  ∧ round (- (1 # 2) * 2 ^ (-1074)) = NegZero
  ∧ div (Fin 1) NegZero = Inf true
  ∧ ToBoolean (VNumber NegZero) = false.
Proof. by vm_compute. Qed.

End Double.
