(* ===== verification/RecordModel.v ===== *)
(** * The paystub record

    The component keeps one record, [paystubData], in React state
    ([useState], lines 48-57 of [src/PaystubGenerator.js]) and replaces it on
    every change event of a form field ([handleInputChange], lines 81-87).
    The record is a plain JavaScript object; its own properties are modelled
    by a finite map from property names to strings, so that the computed key
    [[name]: value] of the updater is an insertion whatever [name] is.

    This file holds the initial record, the change event, the update, the
    sequence of updates the state goes through, and the invariant that the
    eight fields of the form are always present. *)

From S2P Require Import Prelude JsValue.

Module Record.

(** [e.target] of a change event, as far as [handleInputChange] reads it. *)
Record ChangeEvent : Type := mkChange {
  target_name : string;
  target_value : string;
}.

(** The argument of [useState]: every field is the empty string. *)
Definition initialPaystubData : gmap string string :=
  <["name" := ""]> (
  <["payPeriodStart" := ""]> (
  <["payPeriodEnd" := ""]> (
  <["payDate" := ""]> (
  <["grossPay" := ""]> (
  <["ytdGross" := ""]> (
  <["transactionHash" := ""]> (
  <["safeUrl" := ""]> ∅))))))).

(** The names of the eight fields, in the order of the object literal. *)
Definition fields : list string :=
  ["name"; "payPeriodStart"; "payPeriodEnd"; "payDate";
   "grossPay"; "ytdGross"; "transactionHash"; "safeUrl"].

(** [handleInputChange e] hands React the updater
    [prevData => ({...prevData, [name]: value})]; the function below is that
    updater applied to the previous record. *)
Definition handleInputChange (e : ChangeEvent) (prevData : gmap string string)
  : gmap string string :=
  let name := target_name e in
  let value := target_value e in
  <[name := value]> prevData.

(** React applies queued updaters in the order the events were handled. *)
Definition applyChanges (es : list ChangeEvent) (data : gmap string string)
  : gmap string string :=
  foldl (λ d e, handleInputChange e d) data es.

(** The last event of [es] that targets the field [k], if any. *)
Fixpoint lastChange (k : string) (es : list ChangeEvent) : option string :=
  match es with
  | [] => None
  | e :: es' =>
    match lastChange k es' with
    | Some v => Some v
    | None => if bool_decide (target_name e = k) then Some (target_value e) else None
    end
  end.

(** Every field of the form is an own property of the record. *)
Definition complete (data : gmap string string) : Prop :=
  Forall (λ k, is_Some (data !! k)) fields.

(** The record has the eight fields and nothing else. *)
Definition flat (data : gmap string string) : Prop :=
  dom data = list_to_set fields.

#[export] Instance complete_dec data : Decision (complete data).
Proof. rw /complete. apply _. Defined.

#[export] Instance flat_dec data : Decision (flat data).
Proof. rw /flat. apply _. Defined.

(** ** The update replaces exactly one field *)

Section update.
Implicit Types (e : ChangeEvent) (data : gmap string string) (k : string).

Lemma handleInputChange_lookup e data :
  handleInputChange e data !! target_name e = Some (target_value e).
Proof. apply lookup_insert_eq. Qed.

Lemma handleInputChange_lookup_ne e data k :
  k ≠ target_name e → handleInputChange e data !! k = data !! k.
Proof. move=> Hne. by apply lookup_insert_ne. Qed.

(** The update is idempotent. *)
Lemma handleInputChange_idemp e data :
  handleInputChange e (handleInputChange e data) = handleInputChange e data.
Proof. apply insert_insert_eq. Qed.

(** C6: [handleInputChange] replaces exactly one field, and is
    idempotent.  After the update the field named by the event holds the
    event's value and every other property of the record, present or
    absent, is what it was; the same change event applied twice gives the
    record that applying it once gives. *)
Theorem handleInputChange_replaces_one_field e data :
  (∀ k, handleInputChange e data !! k =
          if decide (k = target_name e) then Some (target_value e) else data !! k)
  ∧ handleInputChange e (handleInputChange e data) = handleInputChange e data.
Proof.
  split; [|apply handleInputChange_idemp]. move=> k. case_decide as Hk.
  - subst k. apply handleInputChange_lookup.
  - by apply handleInputChange_lookup_ne.
Qed.

Lemma handleInputChange_overwrite k v1 v2 data :
  handleInputChange (mkChange k v2) (handleInputChange (mkChange k v1) data)
  = handleInputChange (mkChange k v2) data.
Proof. apply insert_insert_eq. Qed.

Lemma handleInputChange_comm e1 e2 data :
  target_name e1 ≠ target_name e2 →
  handleInputChange e1 (handleInputChange e2 data)
  = handleInputChange e2 (handleInputChange e1 data).
Proof. move=> Hne. by apply insert_insert_ne. Qed.

Lemma handleInputChange_noop e data :
  data !! target_name e = Some (target_value e) → handleInputChange e data = data.
Proof. apply insert_id. Qed.

Lemma handleInputChange_dom e data :
  dom (handleInputChange e data) = {[target_name e]} ∪ dom data.
Proof. apply dom_insert_L. Qed.

Lemma handleInputChange_get_prop e data :
  get_prop (handleInputChange e data) (target_name e) = VString (target_value e).
Proof. apply get_prop_insert_eq. Qed.

Lemma handleInputChange_get_prop_ne e data k :
  k ≠ target_name e → get_prop (handleInputChange e data) k = get_prop data k.
Proof. move=> Hne. by apply get_prop_insert_ne. Qed.

End update.

(** ** Invariants *)

Lemma initial_complete : complete initialPaystubData.
Proof. by compute_done. Qed.

Lemma initial_flat : flat initialPaystubData.
Proof. by compute_done. Qed.

Lemma handleInputChange_complete e data :
  complete data → complete (handleInputChange e data).
Proof.
  move=> Hc. eapply Forall_impl; [done|]. move=> k [v Hv].
  destruct (decide (k = target_name e)) as [->|Hne].
  - rw handleInputChange_lookup. by eexists.
  - rw handleInputChange_lookup_ne //.
Qed.

Lemma handleInputChange_flat e data :
  target_name e ∈ fields → flat data → flat (handleInputChange e data).
Proof.
  rw /flat handleInputChange_dom. move=> Hin ->.
  apply (elem_of_list_to_set (C:=gset string)) in Hin.
  move: Hin. generalize (list_to_set (C:=gset string) fields). set_solver.
Qed.

Lemma applyChanges_snoc es e data :
  applyChanges (es ++ [e]) data = handleInputChange e (applyChanges es data).
Proof. by rw /applyChanges foldl_snoc. Qed.

Lemma applyChanges_complete es data :
  complete data → complete (applyChanges es data).
Proof.
  move: data. induction es as [|e es IH]=> data Hc; [done|].
  by apply IH, handleInputChange_complete.
Qed.

Lemma applyChanges_flat es data :
  Forall (λ e, target_name e ∈ fields) es → flat data →
  flat (applyChanges es data).
Proof.
  move=> Hes. move: data. induction Hes as [|e es He _ IH]=> data Hf; [done|].
  by apply IH, handleInputChange_flat.
Qed.

(** ** The renderer observes the most recent edit *)

Lemma lastChange_app k es1 es2 :
  lastChange k (es1 ++ es2) =
    match lastChange k es2 with Some v => Some v | None => lastChange k es1 end.
Proof.
  induction es1 as [|e es1 IH]; simpl.
  - by destruct (lastChange k es2).
  - rw IH. by destruct (lastChange k es2).
Qed.

Lemma applyChanges_lookup es data k :
  applyChanges es data !! k =
    match lastChange k es with Some v => Some v | None => data !! k end.
Proof.
  induction es as [|e es IH] using rev_ind; [done|].
  rw applyChanges_snoc lastChange_app /=.
  case_bool_decide as Hk.
  - subst k. by rw handleInputChange_lookup.
  - by rw handleInputChange_lookup_ne.
Qed.

End Record.

#[export] Hint Resolve Record.initial_complete Record.initial_flat
  Record.handleInputChange_complete Record.handleInputChange_flat
  Record.applyChanges_complete Record.applyChanges_flat : paystub.
