(* ===== verification/Decimal.v ===== *)
(** * Decimal digits

    Reading and printing of non-negative integers in base ten, shared by the
    currency formatter and the date formatter: the value of a string of
    digits (the MV of [DecimalDigits] in ECMA-262 7.1.4.1), the canonical
    decimal rendering of a number, zero padding, and the grouping of digits
    in threes that the [en-US] locale applies to the integer part of an
    amount.

    [print] runs on fuel.  One unit of fuel is spent per digit produced and
    the fuel given is [1 + log2 n], which is at least the number of decimal
    digits of [n]; [print_small] and [print_step] are the equations of the
    function that hold without any mention of fuel, and every other lemma is
    proved from them. *)

From S2P Require Import Prelude.

#[local] Open Scope Z_scope.

Module Digits.

Definition is_digit (c : ascii) : bool :=
  let n := N_of_ascii c in ((48 <=? n) && (n <=? 57))%N.

Definition digit_value (c : ascii) : Z := Z.of_N (N_of_ascii c) - 48.

Definition digit_char (d : Z) : ascii := ascii_of_N (Z.to_N (48 + d)).

Fixpoint all_digits (s : string) : bool :=
  match s with
  | "" => true
  | String c s' => is_digit c && all_digits s'
  end.

(** The value of a digit string read left to right, after the digits whose
    value is [acc]. *)
Fixpoint read_acc (s : string) (acc : Z) : Z :=
  match s with
  | "" => acc
  | String c s' => read_acc s' (10 * acc + digit_value c)
  end.

Definition read (s : string) : Z := read_acc s 0.

Fixpoint print_go (fuel : nat) (n : Z) (acc : string) : string :=
  match fuel with
  | O => acc
  | S fuel' =>
    let acc' := String (digit_char (n mod 10)) acc in
    if n / 10 =? 0 then acc' else print_go fuel' (n / 10) acc'
  end.

(** The decimal rendering of [n >= 0], without leading zeros. *)
Definition print (n : Z) : string :=
  print_go (S (Z.to_nat (Z.log2 n))) n "".

(** Two digits, zero padded: the fraction of an amount, for [0 <= n < 100]. *)
Definition print2 (n : Z) : string :=
  String (digit_char (n / 10)) (String (digit_char (n mod 10)) "").

(** The longest prefix of digits, and what follows it. *)
Fixpoint span_digits (s : string) : string * string :=
  match s with
  | "" => ("", "")
  | String c s' =>
    if is_digit c
    then let '(d, r) := span_digits s' in (String c d, r)
    else ("", s)
  end.

(** Grouping in threes from the right, separated by commas. *)
Fixpoint group3 (s : string) : string :=
  match s with
  | "" => ""
  | String c s' =>
    let n := String.length s' in
    String c (if (0 <? n)%nat && (n mod 3 =? 0)%nat
              then String "," (group3 s') else group3 s')
  end.

Fixpoint strip_commas (s : string) : string :=
  match s with
  | "" => ""
  | String c s' =>
    if Ascii.eqb c "," then strip_commas s' else String c (strip_commas s')
  end.

(** ** Digits and characters *)

Lemma digit_cases d : 0 ≤ d ≤ 9 →
  d = 0 ∨ d = 1 ∨ d = 2 ∨ d = 3 ∨ d = 4 ∨ d = 5 ∨ d = 6 ∨ d = 7 ∨ d = 8 ∨ d = 9.
Proof. lia. Qed.

Ltac each_digit d H := pose proof (digit_cases d H); destruct_or!; subst d.

Lemma digit_value_char d : 0 ≤ d ≤ 9 → digit_value (digit_char d) = d.
Proof. move=> H. by each_digit d H. Qed.

Lemma is_digit_char d : 0 ≤ d ≤ 9 → is_digit (digit_char d) = true.
Proof. move=> H. by each_digit d H. Qed.

Lemma is_digit_spec c :
  is_digit c = true ↔ (48 ≤ N_of_ascii c ≤ 57)%N.
Proof. rw /is_digit andb_true_iff !N.leb_le //. Qed.

Lemma digit_value_range c : is_digit c = true → 0 ≤ digit_value c ≤ 9.
Proof. rw is_digit_spec /digit_value. lia. Qed.

Lemma digit_char_value c : is_digit c = true → digit_char (digit_value c) = c.
Proof.
  move=> H. rw /digit_char /digit_value.
  replace (Z.to_N _) with (N_of_ascii c); first by apply ascii_N_embedding.
  move: H. rw is_digit_spec. lia.
Qed.

Lemma digit_char_inj d1 d2 :
  0 ≤ d1 ≤ 9 → 0 ≤ d2 ≤ 9 → digit_char d1 = digit_char d2 → d1 = d2.
Proof.
  move=> H1 H2 Heq. by rw -(digit_value_char d1) // -(digit_value_char d2) // Heq.
Qed.

Lemma digit_not_comma c : is_digit c = true → Ascii.eqb c "," = false.
Proof.
  move=> H. apply Ascii.eqb_neq=> Hc. subst c. done.
Qed.

(** ** Reading *)

Lemma read_acc_app s t acc :
  read_acc (s +:+ t) acc = read_acc t (read_acc s acc).
Proof. move: acc. induction s as [|c s IH]=> acc; [done|]. by rw str_app_cons /= IH. Qed.

Lemma read_acc_shift s acc :
  read_acc s acc = acc * 10 ^ Z.of_nat (String.length s) + read s.
Proof.
  rw /read. move: acc. induction s as [|c s IH]=> acc; first by (simpl; lia).
  rw /= (IH (10 * acc + _)) (IH (10 * 0 + _)) Nat2Z.inj_succ Z.pow_succ_r; lia.
Qed.

Lemma read_app s t :
  read (s +:+ t) = read s * 10 ^ Z.of_nat (String.length t) + read t.
Proof. by rw /read read_acc_app read_acc_shift. Qed.

Lemma read_acc_nonneg s acc :
  all_digits s = true → 0 ≤ acc → 0 ≤ read_acc s acc.
Proof.
  move: acc. induction s as [|c s IH]=> acc /=; [done|].
  move=> /andb_prop [/digit_value_range Hc Hs] Hacc. apply IH; [done|lia].
Qed.

Lemma read_nonneg s : all_digits s = true → 0 ≤ read s.
Proof. move=> Hs. by apply read_acc_nonneg. Qed.

Lemma read_bound s : all_digits s = true → read s < 10 ^ Z.of_nat (String.length s).
Proof.
  induction s as [|c s IH]; [done|]. move=> /= /andb_prop [/digit_value_range Hc Hs].
  rw /read /= read_acc_shift Nat2Z.inj_succ Z.pow_succ_r; last lia.
  specialize (IH Hs). nia.
Qed.

(** ** Printing: the fuel is enough *)

Lemma print_go_acc fuel n acc :
  print_go fuel n acc = print_go fuel n "" +:+ acc.
Proof.
  move: n acc. induction fuel as [|fuel IH]=> n acc /=; [done|].
  case: (n / 10 =? 0); [done|].
  by rw IH (IH _ (String _ "")) str_app_assoc.
Qed.

Lemma pow2_S (f : nat) : 2 ^ Z.of_nat (S f) = 2 * 2 ^ Z.of_nat f.
Proof. rw Nat2Z.inj_succ Z.pow_succ_r; lia. Qed.

Lemma print_go_fuel f1 f2 n acc :
  0 ≤ n < 2 ^ Z.of_nat (S f1) → n < 2 ^ Z.of_nat (S f2) →
  print_go (S f1) n acc = print_go (S f2) n acc.
Proof.
  move: f2 n acc. induction f1 as [|f1 IH]=> f2 n acc H1 H2.
  - have Hq : n / 10 = 0 by (rw pow2_S /= in H1; div_lia). by rw /= Hq.
  - rw /=. case: (Z.eqb_spec (n / 10) 0)=> Hq; [done|].
    destruct f2 as [|f2]; first by (rw pow2_S /= in H2; div_lia).
    rw -/(print_go (S f1)) -/(print_go (S f2)).
    apply IH; rw pow2_S in H1; rw pow2_S in H2; div_lia.
Qed.

Lemma print_fuel_ok n : 0 ≤ n → n < 2 ^ Z.of_nat (S (Z.to_nat (Z.log2 n))).
Proof.
  move=> Hn. rw Nat2Z.inj_succ Z2Nat.id; last by apply Z.log2_nonneg.
  have [->|Hpos] : n = 0 ∨ 0 < n by lia.
  - done.
  - by apply Z.log2_spec.
Qed.

Lemma print_small n : 0 ≤ n < 10 → print n = String (digit_char n) "".
Proof.
  move=> Hn. have Hq : n / 10 = 0 by div_lia.
  by rw /print /= Hq /= Z.mod_small.
Qed.

Lemma print_step n :
  10 ≤ n → print n = print (n / 10) +:+ String (digit_char (n mod 10)) "".
Proof.
  move=> Hn. rw {1}/print /=.
  case: (Z.eqb_spec (n / 10) 0)=> Hq; first by div_lia.
  have Hf := print_fuel_ok n ltac:(lia).
  destruct (Z.to_nat (Z.log2 n)) as [|f] eqn:Hl.
  - rw pow2_S /= in Hf. lia.
  - rw print_go_acc. f_equal. apply print_go_fuel.
    + rw pow2_S in Hf. div_lia.
    + apply print_fuel_ok. div_lia.
Qed.

(** Induction along the digits of a number, most significant digits first. *)
Lemma print_ind (P : Z → string → Prop) :
  (∀ n, 0 ≤ n < 10 → P n (String (digit_char n) "")) →
  (∀ n, 10 ≤ n → P (n / 10) (print (n / 10)) →
        P n (print (n / 10) +:+ String (digit_char (n mod 10)) "")) →
  ∀ n, 0 ≤ n → P n (print n).
Proof.
  move=> Hsmall Hstep n Hn. move: n Hn. apply Zlt_0_ind=> n IH Hn.
  have [Hlt|Hge] : n < 10 ∨ 10 ≤ n by lia.
  - rw print_small //. by apply Hsmall.
  - rw print_step //. apply Hstep; [done|]. apply IH. div_lia.
Qed.

(** ** Printing and reading are inverse *)

Lemma read_print n : 0 ≤ n → read (print n) = n.
Proof.
  move: n. apply (print_ind (λ n s, read s = n))=> n Hn.
  - rw /read /= digit_value_char; lia.
  - move=> IH. rw read_app IH /read /= digit_value_char; div_lia.
Qed.

Lemma all_digits_app s t :
  all_digits (s +:+ t) = all_digits s && all_digits t.
Proof. induction s as [|c s IH]; [done|]. by rw str_app_cons /= IH andb_assoc. Qed.

Lemma all_digits_print n : 0 ≤ n → all_digits (print n) = true.
Proof.
  move: n. apply (print_ind (λ _ s, all_digits s = true))=> n Hn.
  - rw /= is_digit_char; [done|lia].
  - move=> IH. rw all_digits_app IH /= is_digit_char; [done|div_lia].
Qed.

Lemma print_inj n m : 0 ≤ n → 0 ≤ m → print n = print m → n = m.
Proof. move=> Hn Hm Heq. by rw -(read_print n) // -(read_print m) // Heq. Qed.

Lemma print_nonempty n : 0 ≤ n → print n ≠ "".
Proof.
  move: n. apply (print_ind (λ _ s, s ≠ ""))=> n Hn; [done|].
  move=> _ /str_app_eq_nil [_ ?]. done.
Qed.

(** ** Scanning and grouping *)

Definition not_digit_head (r : string) : Prop :=
  match r with
  | "" => True
  | String c _ => is_digit c = false
  end.

Lemma span_digits_app d r :
  all_digits d = true → not_digit_head r → span_digits (d +:+ r) = (d, r).
Proof.
  move=> Hd Hr. induction d as [|c d IH].
  - destruct r as [|c r]; [done|]. by rw /= Hr.
  - move: Hd=> /= /andb_prop [Hc Hd]. by rw /= Hc IH.
Qed.

Lemma span_digits_all d : all_digits d = true → span_digits d = (d, "").
Proof. move=> Hd. by rw -{1}(str_app_nil_r d) span_digits_app. Qed.

Lemma span_digits_spec s d r :
  span_digits s = (d, r) → s = d +:+ r ∧ all_digits d = true ∧ not_digit_head r.
Proof.
  move: d r. induction s as [|c s IH]=> d r /=; first by move=> [<- <-].
  destruct (is_digit c) eqn:Hc; last by move=> [<- <-].
  destruct (span_digits s) as [d' r']. move=> [<- <-].
  destruct (IH _ _ eq_refl) as (-> & Hd & Hr). by rw /= Hc Hd.
Qed.

Lemma strip_commas_digits s : all_digits s = true → strip_commas s = s.
Proof.
  induction s as [|c s IH]; [done|]. move=> /= /andb_prop [Hc Hs].
  by rw digit_not_comma // IH.
Qed.

Lemma strip_commas_group3 s : all_digits s = true → strip_commas (group3 s) = s.
Proof.
  induction s as [|c s IH]; [done|]. move=> /= /andb_prop [Hc Hs].
  rw digit_not_comma //. f_equal. case: (_ && _); by rw /= IH.
Qed.

Lemma strip_commas_app s t :
  strip_commas (s +:+ t) = strip_commas s +:+ strip_commas t.
Proof.
  induction s as [|c s IH]; [done|]. rw str_app_cons /= IH. by case: (Ascii.eqb c ",").
Qed.

Lemma print2_digits n : 0 ≤ n < 100 → all_digits (print2 n) = true.
Proof. move=> Hn. rw /print2 /= !is_digit_char //; div_lia. Qed.

Lemma read_print2 n : 0 ≤ n < 100 → read (print2 n) = n.
Proof. move=> Hn. rw /print2 /read /= !digit_value_char; div_lia. Qed.

Lemma length_print2 n : String.length (print2 n) = 2%nat.
Proof. done. Qed.

End Digits.

#[export] Hint Resolve Digits.all_digits_print Digits.print2_digits
  Digits.print_nonempty Digits.read_nonneg : paystub.
