(* ===== verification/NumberFormat.v ===== *)
(** * Currency formatting

    [formatCurrency] (lines 89-96 of [src/PaystubGenerator.js]) builds an
    [Intl.NumberFormat] for the locale [en-US] with the options
    [style: "currency"], [currency: "USD"] and exactly two fraction digits,
    and formats [amount || 0] with it.

    The formatter itself is platform code.  Module [Intl] models the part of
    ECMA-402 that this one call exercises:

    - [ToIntlMathematicalValue]: a string argument is parsed with the
      [StringNumericLiteral] grammar of ECMA-262 and keeps its exact decimal
      value; a string outside the grammar is not-a-number; a value that a
      double would round to infinity is infinite;
    - rounding to two fraction digits in the default mode [halfExpand]
      (ties away from zero);
    - the [en-US] currency pattern: an optional minus sign, the dollar sign,
      the integer digits grouped in threes by commas, a point, two digits.

    Strings are sequences of bytes (UTF-8), so the white space that the
    grammar lets surround a literal is recognised by its encoding. *)

From Stdlib Require Import QArith Qabs.
From S2P Require Import Prelude JsValue Decimal.

#[local] Close Scope Q_scope.
#[local] Open Scope Z_scope.

Import Digits.

Module Intl.

(** The mathematical value handed to the formatter.  A finite value is a
    sign and a magnitude, so that negative zero is [MFin true 0]. *)
Inductive mathval : Type :=
| MNaN
| MInf (negative : bool)
| MFin (negative : bool) (magnitude : Q).

(** *** White space *)

(** [StrWhiteSpaceChar]: WhiteSpace and LineTerminator of ECMA-262, each by
    its UTF-8 bytes. *)
Definition white_space : list string :=
  let b1 (a : ascii) := String a "" in
  let b2 (a b : ascii) := String a (String b "") in
  let b3 (a b c : ascii) := String a (String b (String c "")) in
  [ b1 "009"; b1 "010"; b1 "011"; b1 "012"; b1 "013"; b1 " ";
    b2 "194" "160"; b3 "225" "154" "128";
    b3 "226" "128" "128"; b3 "226" "128" "129"; b3 "226" "128" "130";
    b3 "226" "128" "131"; b3 "226" "128" "132"; b3 "226" "128" "133";
    b3 "226" "128" "134"; b3 "226" "128" "135"; b3 "226" "128" "136";
    b3 "226" "128" "137"; b3 "226" "128" "138"; b3 "226" "128" "168";
    b3 "226" "128" "169"; b3 "226" "128" "175"; b3 "226" "129" "159";
    b3 "227" "128" "128"; b3 "239" "187" "191" ]%char.

(** [strip_prefix p s] is what follows [p] in [s], when [s] starts with [p]. *)
Fixpoint strip_prefix (p s : string) : option string :=
  match p, s with
  | "", _ => Some s
  | String a p', String b s' => if Ascii.eqb a b then strip_prefix p' s' else None
  | String _ _, "" => None
  end.

(** What follows one white-space character at the head of [s], if there is
    one. *)
Definition strip_space (s : string) : option string :=
  head (omap (λ w, strip_prefix w s) white_space).

(** Leading white space removed; the fuel is the length of the string, one
    unit per character removed at most. *)
Fixpoint trim_left_go (fuel : nat) (s : string) : string :=
  match fuel with
  | O => s
  | S fuel' =>
    match strip_space s with
    | Some r => trim_left_go fuel' r
    | None => s
    end
  end.

Definition trim_left (s : string) : string := trim_left_go (String.length s) s.

Definition all_space (s : string) : bool := bool_decide (trim_left s = "").

Fixpoint trim_right (s : string) : string :=
  match s with
  | "" => ""
  | String c s' => if all_space s then "" else String c (trim_right s')
  end.

Definition trim (s : string) : string := trim_right (trim_left s).

(** *** StringNumericLiteral *)

Definition is_char (c : ascii) (s : string) : bool :=
  bool_decide (s = String c "").

(** [m * 10 ^ e] as a rational. *)
Definition scale10 (m e : Z) : Q :=
  if 0 <=? e then Qmake (m * 10 ^ e) 1 else Qmake m (Z.to_pos (10 ^ (- e))).

Definition DecimalDigits (s : string) : option Z :=
  if all_digits s && negb (bool_decide (s = "")) then Some (read s) else None.

Definition SignedInteger (s : string) : option Z :=
  match s with
  | String c d =>
    if Ascii.eqb c "+" then DecimalDigits d
    else if Ascii.eqb c "-" then Z.opp <$> DecimalDigits d
    else DecimalDigits s
  | "" => None
  end.

(** An optional [ExponentPart] that ends the literal: its value, [0] when it
    is absent. *)
Definition ExponentPart_opt (s : string) : option Z :=
  match s with
  | "" => Some 0
  | String c r =>
    if Ascii.eqb c "e" || Ascii.eqb c "E" then SignedInteger r else None
  end.

Definition StrUnsignedDecimalLiteral (s : string) : option mathval :=
  if bool_decide (s = "Infinity") then Some (MInf false) else
  let '(ip, r1) := span_digits s in
  let '(fp, r2) :=
    match r1 with
    | String c r => if Ascii.eqb c "." then span_digits r else ("", r1)
    | "" => ("", r1)
    end in
  if bool_decide (ip = "" ∧ fp = "") then None else
  e ← ExponentPart_opt r2;
  Some (MFin false (scale10 (read (ip +:+ fp)) (e - Z.of_nat (String.length fp)))).

(** The value of a digit in a base up to sixteen. *)
Definition digit_in_base (b : Z) (c : ascii) : option Z :=
  let n := Z.of_N (N_of_ascii c) in
  let d := if (48 <=? n) && (n <=? 57) then Some (n - 48)
           else if (97 <=? n) && (n <=? 102) then Some (n - 87)
           else if (65 <=? n) && (n <=? 70) then Some (n - 55)
           else None in
  d' ← d; if d' <? b then Some d' else None.

Fixpoint value_in_base (b : Z) (s : string) (acc : Z) : option Z :=
  match s with
  | "" => Some acc
  | String c s' => d ← digit_in_base b c; value_in_base b s' (b * acc + d)
  end.

Definition NonDecimalIntegerLiteral (s : string) : option mathval :=
  match s with
  | String z (String p ds) =>
    if negb (Ascii.eqb z "0") || bool_decide (ds = "") then None else
    b ← (if Ascii.eqb p "b" || Ascii.eqb p "B" then Some 2
         else if Ascii.eqb p "o" || Ascii.eqb p "O" then Some 8
         else if Ascii.eqb p "x" || Ascii.eqb p "X" then Some 16
         else None);
    n ← value_in_base b ds 0;
    Some (MFin false (inject_Z n))
  | _ => None
  end.

Definition negate (v : mathval) : mathval :=
  match v with
  | MNaN => MNaN
  | MInf neg => MInf (negb neg)
  | MFin neg q => MFin (negb neg) q
  end.

Definition StrNumericLiteral (s : string) : option mathval :=
  match s with
  | String c r =>
    if Ascii.eqb c "+" then StrUnsignedDecimalLiteral r
    else if Ascii.eqb c "-" then negate <$> StrUnsignedDecimalLiteral r
    else match StrUnsignedDecimalLiteral s with
         | Some v => Some v
         | None => NonDecimalIntegerLiteral s
         end
  | "" => None
  end.

(** The value of a string: white space alone is zero, a literal surrounded
    by white space is its value, anything else is not a number. *)
Definition StringIntlMV (s : string) : mathval :=
  let t := trim s in
  if bool_decide (t = "") then MFin false 0%Q
  else default MNaN (StrNumericLiteral t).

(** The least magnitude that rounds to infinity as a double: half way
    between the largest finite double and [2 ^ 1024]. *)
Definition double_overflow : Z := 2 ^ 1024 - 2 ^ 970.

Definition clamp (v : mathval) : mathval :=
  match v with
  | MFin neg q => if Qle_bool (inject_Z double_overflow) q then MInf neg else v
  | _ => v
  end.

Definition ToIntlMathematicalValue (v : value) : mathval :=
  match v with
  | VString s => clamp (StringIntlMV s)
  | VNumber NaN => MNaN
  | VNumber (Inf neg) => MInf neg
  | VNumber NegZero => MFin true 0%Q
  | VNumber (Fin q) => MFin (negb (Qle_bool 0%Q q)) (Qabs q)
  | VUndefined => MNaN
  | VNull => MFin false 0%Q
  | VBool b => MFin false (if b then 1%Q else 0%Q)
  end.

(** *** Rounding and the en-US currency pattern *)

(** The magnitude [q] in cents, rounded to the nearest cent, ties away from
    zero: [floor (100 q + 1/2)]. *)
Definition round_cents (q : Q) : Z :=
  (200 * Qnum q + Z.pos (Qden q)) / (2 * Z.pos (Qden q)).

Definition format_cents (c : Z) : string :=
  group3 (print (c / 100)) +:+ "." +:+ print2 (c mod 100).

Definition sign (negative : bool) : string := if negative then "-" else "".

Definition format (v : mathval) : string :=
  match v with
  | MNaN => "$NaN"
  | MInf neg => sign neg +:+ "$∞"
  | MFin neg q => sign neg +:+ "$" +:+ format_cents (round_cents q)
  end.

End Intl.

(** ** The component's formatter *)

Definition formatCurrency (amount : value) : string :=
  Intl.format (Intl.ToIntlMathematicalValue (js_or amount zero)).

(** ** Lemmas on the platform model *)

Module IntlFacts.
Import Intl.

(** A byte that starts no white-space character. *)
Definition solid (c : ascii) : bool :=
  forallb (λ w, match w with String a _ => negb (Ascii.eqb a c) | "" => false end)
    white_space.

Fixpoint all_solid (s : string) : bool :=
  match s with
  | "" => true
  | String c s' => solid c && all_solid s'
  end.

Lemma strip_space_solid c r : solid c = true → strip_space (String c r) = None.
Proof.
  rw /solid /strip_space. induction white_space as [|w ws IH]; [done|].
  move=> /= /andb_prop [Hw Hws]. destruct w as [|a w]; [done|].
  move: Hw=> /negb_true_iff Hw. rw /= Hw /=. by apply IH.
Qed.

Lemma trim_left_solid c r : solid c = true → trim_left (String c r) = String c r.
Proof. move=> Hc. by rw /trim_left /= strip_space_solid. Qed.

Lemma trim_right_solid s : all_solid s = true → trim_right s = s.
Proof.
  induction s as [|c s IH]; [done|]. move=> /= /andb_prop [Hc Hs].
  by rw /all_space trim_left_solid // IH.
Qed.

Lemma trim_solid s : all_solid s = true → trim s = s.
Proof.
  move=> Hs. rw /trim. destruct s as [|c s]; [done|].
  move: (Hs)=> /= /andb_prop [Hc _]. by rw trim_left_solid // trim_right_solid.
Qed.

Lemma all_solid_app s t : all_solid (s +:+ t) = all_solid s && all_solid t.
Proof. induction s as [|c s IH]; [done|]. by rw str_app_cons /= IH andb_assoc. Qed.

Lemma digit_solid c : is_digit c = true → solid c = true.
Proof. move: c=> [[] [] [] [] [] [] [] []] //. Qed.

Lemma digits_solid s : all_digits s = true → all_solid s = true.
Proof.
  induction s as [|c s IH]; [done|]. move=> /= /andb_prop [Hc Hs].
  by rw digit_solid // IH.
Qed.

(** *** Plain decimal literals *)

Lemma digits_not_Infinity ip r :
  all_digits ip = true → ip ≠ "" → ip +:+ r ≠ "Infinity".
Proof. destruct ip as [|c ip]; [done|]. move=> /= /andb_prop [Hc _] _ [? _]. by subst c. Qed.

Lemma not_digit_head_dot fp : not_digit_head ("." +:+ fp).
Proof. done. Qed.

Lemma StrUnsignedDecimalLiteral_fraction ip fp :
  all_digits ip = true → all_digits fp = true → ip ≠ "" →
  StrUnsignedDecimalLiteral (ip +:+ "." +:+ fp) =
    Some (MFin false (scale10 (read (ip +:+ fp)) (- Z.of_nat (String.length fp)))).
Proof.
  move=> Hip Hfp Hne. rw /StrUnsignedDecimalLiteral.
  rw bool_decide_false; last by apply digits_not_Infinity.
  rw span_digits_app // str_app_cons /= span_digits_all //.
  rw bool_decide_false; last by move=> [? _].
  done.
Qed.

Lemma StrUnsignedDecimalLiteral_integer ip :
  all_digits ip = true → ip ≠ "" →
  StrUnsignedDecimalLiteral ip = Some (MFin false (scale10 (read ip) 0)).
Proof.
  move=> Hip Hne. rw /StrUnsignedDecimalLiteral.
  rw bool_decide_false; last first.
  { rw -(str_app_nil_r ip). by apply digits_not_Infinity. }
  rw span_digits_all // bool_decide_false; last by move=> [? _].
  by rw /= str_app_nil_r.
Qed.

Lemma StrNumericLiteral_unsigned c s v :
  is_digit c = true → StrUnsignedDecimalLiteral (String c s) = Some v →
  StrNumericLiteral (String c s) = Some v.
Proof.
  move=> Hc Hv. rw /StrNumericLiteral Hv.
  have -> : Ascii.eqb c "+" = false by (apply Ascii.eqb_neq=> ?; by subst c).
  have -> : Ascii.eqb c "-" = false by (apply Ascii.eqb_neq=> ?; by subst c).
  done.
Qed.

Definition digit_head (s : string) : Prop :=
  match s with
  | "" => False
  | String c _ => is_digit c = true
  end.

Lemma digit_head_app s t : digit_head s → digit_head (s +:+ t).
Proof. by destruct s. Qed.

Lemma digit_head_digits s : all_digits s = true → s ≠ "" → digit_head s.
Proof. destruct s as [|c s]; [done|]. by move=> /= /andb_prop [Hc _] _. Qed.

Lemma StringIntlMV_solid s v :
  digit_head s → all_solid s = true →
  StrUnsignedDecimalLiteral s = Some v →
  StringIntlMV s = v.
Proof.
  destruct s as [|c s]; [done|]. move=> /= Hc Hs Hv.
  rw /StringIntlMV trim_solid // bool_decide_false //.
  by rw (StrNumericLiteral_unsigned _ _ v).
Qed.

(** *** Rounding *)

(** [round_cents] is the nearest integer to [100 q], ties going up. *)
Lemma round_cents_nearest n d :
  let c := round_cents (Qmake n d) in
  2 * Z.pos d * c ≤ 200 * n + Z.pos d < 2 * Z.pos d * (c + 1).
Proof. rw /round_cents /=. apply Z_div_bounds. lia. Qed.

Lemma round_cents_exact c : round_cents (Qmake c 100) = c.
Proof. rw /round_cents /=. div_lia. Qed.

Lemma round_cents_integer n : round_cents (Qmake n 1) = 100 * n.
Proof. rw /round_cents /=. div_lia. Qed.

Lemma scale10_neg m (k : nat) :
  scale10 m (- Z.of_nat k) =
    if decide (k = 0%nat) then Qmake (m * 10 ^ 0) 1 else Qmake m (Z.to_pos (10 ^ Z.of_nat k)).
Proof.
  rw /scale10. case_decide as Hk; first by subst k.
  rw Z.opp_involutive. by case: (Z.leb_spec 0 (- Z.of_nat k)); [lia|].
Qed.

Lemma pow10_pos (k : Z) : 0 ≤ k → 0 < 10 ^ k.
Proof. move=> Hk. by apply Z.pow_pos_nonneg. Qed.

Lemma round_cents_scale10 m (k : nat) :
  let c := round_cents (scale10 m (- Z.of_nat k)) in
  let p := 10 ^ Z.of_nat k in
  2 * p * c ≤ 200 * m + p < 2 * p * (c + 1).
Proof.
  rw scale10_neg. case_decide as Hk.
  - subst k. have := round_cents_nearest (m * 10 ^ 0) 1. rw /= Z.pow_0_r. lia.
  - have Hp := pow10_pos (Z.of_nat k) ltac:(lia).
    have := round_cents_nearest m (Z.to_pos (10 ^ Z.of_nat k)). by rw /= Z2Pos.id.
Qed.

Lemma clamp_below neg n d :
  n < double_overflow * Z.pos d → clamp (MFin neg (Qmake n d)) = MFin neg (Qmake n d).
Proof.
  move=> Hlt. rw /clamp /Qle_bool /=.
  by case: (Z.leb_spec (double_overflow * Z.pos d) (n * 1)); [lia|].
Qed.

Lemma clamp_scale10_below neg m (k : nat) :
  m < double_overflow * 10 ^ Z.of_nat k →
  clamp (MFin neg (scale10 m (- Z.of_nat k))) = MFin neg (scale10 m (- Z.of_nat k)).
Proof.
  move=> Hlt. rw scale10_neg. case_decide as Hk.
  - subst k. apply clamp_below. rw /= Z.pow_0_r in Hlt. rw Z.pow_0_r. lia.
  - have Hp := pow10_pos (Z.of_nat k) ltac:(lia). apply clamp_below. by rw Z2Pos.id.
Qed.

(** *** Magnitudes

    A mathematical value carries its sign apart: the rational is the
    magnitude, and it is never negative. *)

Definition magnitude (v : mathval) : Prop :=
  match v with
  | MFin _ q => 0 ≤ Qnum q
  | _ => True
  end.

Lemma scale10_magnitude m e : 0 ≤ m → 0 ≤ Qnum (scale10 m e).
Proof.
  move=> Hm. rw /scale10. case: (Z.leb_spec 0 e)=> He /=; [|done].
  have := pow10_pos e He. nia.
Qed.

Lemma StrUnsignedDecimalLiteral_magnitude s v :
  StrUnsignedDecimalLiteral s = Some v → magnitude v.
Proof.
  rw /StrUnsignedDecimalLiteral. case_bool_decide; first by move=> [<-].
  have Hsp : ∀ r, all_digits (span_digits r).1 = true.
  { move=> r. destruct (span_digits r) as [d r'] eqn:Hr.
    by destruct (span_digits_spec _ _ _ Hr) as (_ & Hd & _). }
  have Hip := Hsp s. destruct (span_digits s) as [ip r1].
  set (p := match r1 with String c r => _ | "" => _ end).
  have Hp : all_digits p.1 = true.
  { rw /p. destruct r1 as [|c r]; [done|]. case: (Ascii.eqb c "."); [apply Hsp|done]. }
  destruct p as [fp r2]. case_bool_decide; [done|].
  destruct (ExponentPart_opt r2) as [e|]; [|done]. move=> [<-] /=.
  apply scale10_magnitude, read_nonneg. rw all_digits_app. by apply andb_true_intro.
Qed.

Lemma digit_in_base_nonneg b c d : digit_in_base b c = Some d → 0 ≤ d.
Proof.
  rw /digit_in_base. move: (Z.of_N _)=> n.
  repeat (case: (Z.leb_spec _ _)=> ? /=); try done;
    case: (Z.ltb_spec _ _)=> ? //; move=> [<-]; lia.
Qed.

Lemma value_in_base_nonneg b s acc n :
  0 ≤ b → 0 ≤ acc → value_in_base b s acc = Some n → 0 ≤ n.
Proof.
  move=> Hb. move: acc. induction s as [|c s IH]=> acc Hacc /=; first by move=> [<-].
  destruct (digit_in_base b c) as [d|] eqn:Hd; [|done]. move=> /=.
  apply IH. have := digit_in_base_nonneg _ _ _ Hd. nia.
Qed.

Lemma NonDecimalIntegerLiteral_magnitude s v :
  NonDecimalIntegerLiteral s = Some v → magnitude v.
Proof.
  destruct s as [|z [|p ds]]; [done..|]. rw /NonDecimalIntegerLiteral.
  destruct (negb (Ascii.eqb z "0") || bool_decide (ds = "")); [done|].
  repeat case_match; try done; rw /=.
  all: destruct (value_in_base _ ds 0) as [n|] eqn:Hn; [|done]; move=> [<-] /=.
  all: eapply value_in_base_nonneg; [|done|exact Hn]; lia.
Qed.

Lemma negate_magnitude v : magnitude v → magnitude (negate v).
Proof. by destruct v. Qed.

Lemma StrNumericLiteral_magnitude s v : StrNumericLiteral s = Some v → magnitude v.
Proof.
  destruct s as [|c r]; [done|]. rw /StrNumericLiteral.
  case: (Ascii.eqb c "+"); first by apply StrUnsignedDecimalLiteral_magnitude.
  case: (Ascii.eqb c "-").
  - destruct (StrUnsignedDecimalLiteral r) as [u|] eqn:Hu; [|done]. move=> [<-].
    by apply negate_magnitude, (StrUnsignedDecimalLiteral_magnitude r).
  - destruct (StrUnsignedDecimalLiteral (String c r)) as [u|] eqn:Hu.
    + move=> [<-]. by apply (StrUnsignedDecimalLiteral_magnitude (String c r)).
    + by apply NonDecimalIntegerLiteral_magnitude.
Qed.

Lemma clamp_magnitude v : magnitude v → magnitude (clamp v).
Proof. destruct v as [| |neg q]; try done. rw /clamp. by case: (Qle_bool _ _). Qed.

(** The argument conversion yields a magnitude, whatever the argument. *)
Lemma ToIntlMathematicalValue_magnitude v : magnitude (ToIntlMathematicalValue v).
Proof.
  destruct v as [| |[]|[| | |q]|s]; try done.
  - rw /= /Qabs. destruct q as [n d]. rw /=. lia.
  - apply clamp_magnitude. rw /StringIntlMV. case_bool_decide; [done|].
    destruct (StrNumericLiteral (trim s)) as [v|] eqn:Hv; [|done].
    by apply (StrNumericLiteral_magnitude (trim s)).
Qed.

Lemma round_cents_nonneg q : 0 ≤ Qnum q → 0 ≤ round_cents q.
Proof. move=> Hq. rw /round_cents. apply Z.div_pos; lia. Qed.

(** *** The display is injective *)

Lemma format_cents_strip c :
  0 ≤ c → strip_commas (format_cents c) = print (c / 100) +:+ "." +:+ print2 (c mod 100).
Proof.
  move=> Hc. rw /format_cents !strip_commas_app strip_commas_group3;
    last by side.
  rw (strip_commas_digits (print2 _)) //. side.
Qed.

Lemma format_cents_inj c1 c2 :
  0 ≤ c1 → 0 ≤ c2 → format_cents c1 = format_cents c2 → c1 = c2.
Proof.
  move=> H1 H2 /(f_equal strip_commas). rw !format_cents_strip //.
  move=> /(f_equal span_digits).
  rw !span_digits_app //; try side.
  move=> [/print_inj Hq /digit_char_inj Ht /digit_char_inj Hu].
  have := Hq ltac:(div_lia) ltac:(div_lia).
  have := Ht ltac:(div_lia) ltac:(div_lia).
  have := Hu ltac:(div_lia) ltac:(div_lia). div_lia.
Qed.

End IntlFacts.

(** ** Theorems on [formatCurrency] *)

Section formatCurrency_facts.
Import Intl IntlFacts.

Lemma formatCurrency_string s :
  s ≠ "" → formatCurrency (VString s) = format (clamp (StringIntlMV s)).
Proof. move=> Hs. by rw /formatCurrency js_or_string_nonempty. Qed.

Lemma print_head n :
  0 ≤ n → ∃ c r, print n = String c r ∧ is_digit c = true.
Proof.
  move=> Hn. have := print_nonempty n Hn. have := all_digits_print n Hn.
  destruct (print n) as [|c r]; [done|]. move=> /= /andb_prop [Hc _] _. by exists c, r.
Qed.

(** C18: every falsy amount ([undefined], the empty string, [0],
    [null], [NaN], [false]) is formatted as zero dollars. *)
Theorem formatCurrency_blank amount :
  ToBoolean amount = false → formatCurrency amount = "$0.00".
Proof. move=> H. by rw /formatCurrency js_or_falsy. Qed.

Lemma formatCurrency_blank_witness :
  formatCurrency VUndefined = "$0.00" ∧ formatCurrency (VString "") = "$0.00"
  ∧ formatCurrency zero = "$0.00".
Proof. split_and!; by apply formatCurrency_blank. Defined.

(** The mathematical value of a decimal literal [ip.fp] below the range
    where doubles overflow: its exact value. *)
Lemma decimal_value ip fp :
  all_digits ip = true → all_digits fp = true → ip ≠ "" →
  read ip < double_overflow →
  clamp (StringIntlMV (ip +:+ "." +:+ fp))
  = MFin false (scale10 (read (ip +:+ fp)) (- Z.of_nat (String.length fp))).
Proof.
  move=> Hip Hfp Hne Hlt.
  have Hhead : digit_head (ip +:+ "." +:+ fp)
    by apply digit_head_app, digit_head_digits.
  have Hsolid : all_solid (ip +:+ "." +:+ fp) = true
    by rw !all_solid_app (digits_solid ip) // (digits_solid fp).
  rw (StringIntlMV_solid _ _ Hhead Hsolid (StrUnsignedDecimalLiteral_fraction _ _ Hip Hfp Hne)).
  rw clamp_scale10_below //. rw read_app. have := read_bound fp Hfp.
  have := pow10_pos (Z.of_nat (String.length fp)) ltac:(lia). nia.
Qed.

(** What the formatter computes for it: the cents of its exact value,
    rounded. *)
Lemma formatCurrency_decimal ip fp :
  all_digits ip = true → all_digits fp = true → ip ≠ "" →
  read ip < double_overflow →
  formatCurrency (VString (ip +:+ "." +:+ fp))
  = "$" +:+ format_cents
              (round_cents (scale10 (read (ip +:+ fp)) (- Z.of_nat (String.length fp)))).
Proof.
  move=> Hip Hfp Hne Hlt.
  rw formatCurrency_string; last by destruct ip. by rw decimal_value.
Qed.

(** C4: a decimal literal with a fraction, [ip.fp], below the range
    where doubles overflow, is displayed as the dollar sign followed by the
    amount rounded to the nearest cent, ties going up: the cents [c] shown
    satisfy [c - 1/2 <= 100 * ip.fp < c + 1/2]. *)
Theorem formatCurrency_rounds_to_nearest_cent ip fp :
  all_digits ip = true → all_digits fp = true → ip ≠ "" →
  read ip < double_overflow →
  ∃ c, formatCurrency (VString (ip +:+ "." +:+ fp)) = "$" +:+ format_cents c
       ∧ let p := 10 ^ Z.of_nat (String.length fp) in
         2 * p * c ≤ 200 * read (ip +:+ fp) + p < 2 * p * (c + 1).
Proof.
  move=> Hip Hfp Hne Hlt. eexists. split; first by apply formatCurrency_decimal.
  by apply round_cents_scale10.
Qed.

Lemma formatCurrency_rounds_witness :
  ∃ c, formatCurrency (VString ("1" +:+ "." +:+ "005")) = "$" +:+ Intl.format_cents c
       ∧ let p := 10 ^ Z.of_nat (String.length "005") in
         2 * p * c ≤ 200 * Digits.read ("1" +:+ "005") + p < 2 * p * (c + 1).
Proof. by apply formatCurrency_rounds_to_nearest_cent. Defined.

(** C10: an amount written with exactly two fraction digits is
    displayed digit for digit, with the dollar sign in front and the integer
    part grouped in threes. *)
Theorem formatCurrency_two_decimals d c :
  0 ≤ d < double_overflow → 0 ≤ c < 100 →
  formatCurrency (VString (print d +:+ "." +:+ print2 c))
  = "$" +:+ group3 (print d) +:+ "." +:+ print2 c.
Proof.
  move=> Hd Hc.
  rw formatCurrency_decimal;
    [|side..|rw read_print; lia].
  have Hc' := round_cents_scale10 (read (print d +:+ print2 c)) (String.length (print2 c)).
  move: Hc'. set c' := round_cents _.
  have -> : read (print d +:+ print2 c) = d * 100 + c.
  { rw read_app read_print; [|lia]. by rw read_print2. }
  change (10 ^ _) with 100. cbv zeta. move=> Hc'.
  have -> : c' = 100 * d + c by lia.
  have [Hq Hm] : (100 * d + c) / 100 = d ∧ (100 * d + c) mod 100 = c by div_lia.
  by rw /format_cents Hq Hm.
Qed.

Lemma formatCurrency_two_decimals_witness :
  formatCurrency (VString (Digits.print 1234 +:+ "." +:+ Digits.print2 50))
  = "$" +:+ Digits.group3 (Digits.print 1234) +:+ "." +:+ Digits.print2 50.
Proof. by apply formatCurrency_two_decimals. Defined.

(** An amount written as a whole number of dollars, leading
    zeros or not, is displayed with its digits grouped in threes and two
    zero cents. *)
Theorem formatCurrency_whole_dollars ip :
  all_digits ip = true → ip ≠ "" → read ip < double_overflow →
  formatCurrency (VString ip) = "$" +:+ group3 (print (read ip)) +:+ ".00".
Proof.
  move=> Hip Hne Hlt. rw formatCurrency_string //.
  rw (StringIntlMV_solid _ _ (digit_head_digits _ Hip Hne) (digits_solid _ Hip)
        (StrUnsignedDecimalLiteral_integer _ Hip Hne)).
  change (scale10 (read ip) 0) with (Qmake (read ip * 1) 1).
  rw Z.mul_1_r clamp_below; last lia.
  rw /format round_cents_integer /format_cents.
  have [-> ->] : 100 * read ip / 100 = read ip ∧ (100 * read ip) mod 100 = 0 by div_lia.
  done.
Qed.

Lemma formatCurrency_whole_dollars_witness :
  formatCurrency (VString "2500") = "$" +:+ Digits.group3 (Digits.print (Digits.read "2500")) +:+ ".00".
Proof. by apply formatCurrency_whole_dollars. Defined.

(** C22: [formatCurrency] is total and its result has one shape,
    whatever it is given: it is [$NaN] or an infinity, or else an optional
    minus sign, the dollar sign, the dollars grouped in threes, a point and
    exactly two digits of cents. *)
Theorem formatCurrency_shape amount :
  formatCurrency amount ∈ ["$NaN"; "$∞"; "-$∞"]
  ∨ ∃ neg d c, 0 ≤ d ∧ 0 ≤ c < 100
      ∧ formatCurrency amount
        = sign neg +:+ "$" +:+ group3 (print d) +:+ "." +:+ print2 c
      ∧ String.length (print2 c) = 2%nat.
Proof.
  rw /formatCurrency.
  have := ToIntlMathematicalValue_magnitude (js_or amount zero).
  destruct (ToIntlMathematicalValue _) as [|[]|neg q]=> Hq;
    [left; set_solver..|right].
  have Hc := round_cents_nonneg q Hq.
  exists neg, (round_cents q / 100), (round_cents q mod 100).
  split_and!; [div_lia..|done|apply length_print2; div_lia].
Qed.

End formatCurrency_facts.

Section formatCurrency_errors.
Import Intl.

(** C19: a non-empty string that is not a numeric literal is not
    coerced to zero: it is displayed as [$NaN]. *)
Theorem formatCurrency_non_numeric s :
  trim s ≠ "" → StrNumericLiteral (trim s) = None →
  formatCurrency (VString s) = "$NaN".
Proof.
  move=> Ht Hp. have Hs : s ≠ "" by (move=> ?; subst s).
  by rw formatCurrency_string // /StringIntlMV bool_decide_false // Hp.
Qed.

Lemma formatCurrency_non_numeric_witness : formatCurrency (VString "abc") = "$NaN".
Proof. by apply formatCurrency_non_numeric. Defined.

End formatCurrency_errors.
