(* ===== verification/LegacyFormat.v ===== *)
(** * Currency formatting through a Number

    [Intl.NumberFormat.prototype.format] takes a string argument at its
    exact decimal value since ECMA-402 2023; before, it converted the
    argument to a Number first, and formatted the exact value of that
    double.  [formatCurrency] (lines 89-96 of [src/PaystubGenerator.js])
    passes the text of the input, so what it displays can depend on the
    edition of the host.  Module [Legacy] is the formatter on a host of
    the older edition: the magnitude is rounded to the nearest double
    ([Double]) before it is rounded to cents.

    The two agree on every amount that is not within [2^-53] of a half
    cent, in particular on every amount written with two fraction digits
    below [2^52] cents; they differ on [1.005].  They show the same
    infinities: the bound from which the formatter takes a magnitude as
    infinite is the bound from which rounding to a double overflows. *)

From Stdlib Require Import QArith Qabs Qpower Lqa.
From S2P Require Import Prelude JsValue Double Decimal NumberFormat.

Module Legacy.
Import Intl IntlFacts Digits.

(** [ToNumber] of the argument, read as a mathematical value again: the
    magnitude is rounded to the nearest double. *)
Definition ToNumber (v : mathval) : mathval :=
  match v with
  | MFin neg q =>
    match Double.round q with
    | Fin r => MFin neg r
    | NegZero => MFin neg 0
    | _ => MInf neg
    end
  | _ => v
  end.

(** [Intl.NumberFormat.prototype.format] of the older edition: the value
    of the argument as a Number, rounded to cents and printed. *)
Definition format_number (v : mathval) : string := format (ToNumber v).

(** [formatCurrency] on a host of the older edition. *)
Definition formatCurrency_legacy (amount : value) : string :=
  format_number (ToIntlMathematicalValue (js_or amount zero)).

(** The amounts up to which cents are exact in a double. *)
Definition cents_max : Z := 2 ^ 52.

#[local] Open Scope Q_scope.

(** ** Lemmas *)

(** [round_cents] is the integer within half a cent, ties going up. *)
Lemma round_cents_spec q c :
  inject_Z c - (1 # 2) <= 100 * q → 100 * q < inject_Z c + (1 # 2) →
  round_cents q = c.
Proof.
  destruct q as [n d]. rw /round_cents /Qle /Qlt /=. move=> Hl Hu.
  symmetry. apply (Z.div_unique_pos _ _ _ (200 * n + Z.pos d - 2 * Z.pos d * c)); lia.
Qed.

Lemma u_value : Double.u == 1 # 9007199254740992.
Proof. done. Qed.

(** A number within [u] of an amount that is not within [u] of a half
    cent is rounded to the same cents. *)
Lemma round_cents_stable q r c :
  Double.within Double.u r q →
  inject_Z c - (1 # 2) + 100 * Double.u * q <= 100 * q →
  100 * q + 100 * Double.u * q < inject_Z c + (1 # 2) →
  round_cents r = c.
Proof.
  move=> /Double.within_bounds [Hl Hu] Hc1 Hc2. apply round_cents_spec; lra.
Qed.

(** The two formatters agree on a magnitude that is not within [u] of a
    half cent. *)
Lemma legacy_agrees neg q :
  Double.normal q →
  inject_Z (round_cents q) - (1 # 2) + 100 * Double.u * q <= 100 * q →
  100 * q + 100 * Double.u * q < inject_Z (round_cents q) + (1 # 2) →
  format_number (MFin neg q) = format (MFin neg q).
Proof.
  move=> Hn Hc1 Hc2. destruct (Double.round_accurate q Hn) as [r [Hr Hw]].
  by rw /format_number /ToNumber Hr /format (round_cents_stable q r (round_cents q)).
Qed.

(** Cents below [2^52] are not within [u] of a half cent. *)
Lemma cents_agree neg n :
  (0 <= n < cents_max)%Z →
  format_number (MFin neg (n # 100)) = format (MFin neg (n # 100)).
Proof.
  move=> [/Zle_lt_or_eq [Hn0|<-] Hn]; [|done].
  have Hq : 100 * (n # 100) == inject_Z n by (rw /Qeq /=; lia).
  have HN : 1 <= inject_Z n < 4503599627370496.
  { rw /cents_max in Hn. split; rw /Qle /Qlt /=; lia. }
  apply legacy_agrees; rw ?round_cents_exact.
  - apply (Double.normal_between (1 # 100) 4503599627370496); [by split; vm_compute..|].
    move: Hq HN. generalize (n # 100) (inject_Z n)=> q N ? [? ?]. split; lra.
  - rewrite -> u_value. move: Hq HN. generalize (n # 100) (inject_Z n)=> q N ? [? ?]. lra.
  - rewrite -> u_value. move: Hq HN. generalize (n # 100) (inject_Z n)=> q N ? [? ?]. lra.
Qed.

(** The range check of the formatter is the overflow of the conversion:
    a magnitude is given as an infinity exactly when its nearest double
    is out of range, so the two formatters show the same infinities. *)
Lemma clamp_overflow neg q :
  0 <= q → clamp (MFin neg q) = MInf neg ↔ Double.round q = Inf false.
Proof.
  move=> Hq. rewrite -> (Double.round_overflow q Hq).
  have -> : Double.overflow_threshold = inject_Z double_overflow by vm_compute.
  rw /clamp. destruct (Qle_bool _ _) eqn:Hb.
  - by move: Hb=> /Qle_bool_iff.
  - split; [done|]. by move=> /Qle_bool_iff; rw Hb.
Qed.

Lemma ToNumber_clamp neg q : 0 <= q → ToNumber (clamp (MFin neg q)) = ToNumber (MFin neg q).
Proof.
  move=> Hq. have Hc := clamp_overflow neg q Hq. rw /clamp in Hc |- *.
  destruct (Qle_bool _ _); [|done]. by rw /= (proj1 Hc).
Qed.

#[local] Close Scope Q_scope.
#[local] Open Scope Z_scope.

Lemma formatCurrency_legacy_string s :
  s ≠ "" → formatCurrency_legacy (VString s) = format_number (clamp (StringIntlMV s)).
Proof. move=> Hs. by rw /formatCurrency_legacy js_or_string_nonempty. Qed.

(** ** Theorems *)

(** C25: an amount written with two fraction digits is displayed the
    same on both editions.  For an amount below [2^52] cents the formatter
    that converts its argument to a double first displays what the
    formatter that keeps the exact decimal value displays. *)
Theorem legacy_two_decimals d c :
  0 ≤ d → 0 ≤ c < 100 → 100 * d + c < cents_max →
  formatCurrency_legacy (VString (print d +:+ "." +:+ print2 c))
  = formatCurrency (VString (print d +:+ "." +:+ print2 c)).
Proof.
  move=> Hd Hc Hmax.
  have Hne : print d +:+ "." +:+ print2 c ≠ "".
  { have := print_nonempty d Hd. by destruct (print d). }
  rw formatCurrency_legacy_string // formatCurrency_string // decimal_value;
    [|side..|rw read_print //; apply Z.lt_trans with cents_max; [lia|by vm_compute]].
  have -> : scale10 (read (print d +:+ print2 c)) (- Z.of_nat (String.length (print2 c)))
            = Qmake (100 * d + c) 100.
  { rw read_app read_print // read_print2 //. change (10 ^ _) with 100.
    by rw (Z.mul_comm d). }
  apply cents_agree. lia.
Qed.


Lemma legacy_two_decimals_witness :
  formatCurrency_legacy (VString (print 2500 +:+ "." +:+ print2 10))
  = formatCurrency (VString (print 2500 +:+ "." +:+ print2 10)).
Proof. by apply legacy_two_decimals. Defined.

End Legacy.
