(* ===== verification/Calendar.v ===== *)
(** * Time values and the calendar

    The arithmetic of ECMA-262 21.4.1 that stands behind [new Date(string)]
    and [toLocaleDateString] with [timeZone: "UTC"]: days since the epoch,
    the year, month and day of month of a time value in the proleptic
    Gregorian calendar, and [MakeDay], which goes the other way.

    [YearFromTime] is specified as the largest year whose first day is not
    after the time value.  [year_of_day] computes it from an estimate (the
    day count divided by the mean length of a year) that is off by one year
    at most, so one correction in either direction is enough;
    [year_of_day_spec] proves that the result meets the specification for
    every day count. *)

From S2P Require Import Prelude.

#[local] Open Scope Z_scope.

Module Time.

Definition msPerDay : Z := 86400000.
Definition msPerMinute : Z := 60000.

(** The largest magnitude of a time value: 100,000,000 days. *)
Definition maxTime : Z := 8640000000000000.

Definition Day (t : Z) : Z := t / msPerDay.
Definition TimeWithinDay (t : Z) : Z := t mod msPerDay.

Definition leap (y : Z) : bool :=
  ((y mod 4 =? 0) && negb (y mod 100 =? 0)) || (y mod 400 =? 0).

Definition DaysInYear (y : Z) : Z := if leap y then 366 else 365.

Definition DayFromYear (y : Z) : Z :=
  365 * (y - 1970) + (y - 1969) / 4 - (y - 1901) / 100 + (y - 1601) / 400.

Definition TimeFromYear (y : Z) : Z := msPerDay * DayFromYear y.

(** The year of a day count: an estimate, corrected by one year if needed. *)
Definition year_of_day (d : Z) : Z :=
  let y := 1970 + (400 * d) / 146097 in
  if DayFromYear (y + 1) <=? d then y + 1
  else if d <? DayFromYear y then y - 1
  else y.

Definition YearFromTime (t : Z) : Z := year_of_day (Day t).

Definition DayWithinYear (t : Z) : Z := Day t - DayFromYear (YearFromTime t).

(** The number of days of the year before month [m] (0 is January). *)
Definition days_before_month (lp : bool) (m : Z) : Z :=
  let l := if lp then 1 else 0 in
  match m with
  | 0 => 0
  | 1 => 31
  | 2 => 59 + l
  | 3 => 90 + l
  | 4 => 120 + l
  | 5 => 151 + l
  | 6 => 181 + l
  | 7 => 212 + l
  | 8 => 243 + l
  | 9 => 273 + l
  | 10 => 304 + l
  | 11 => 334 + l
  | _ => 365 + l
  end.

Definition DaysInMonth (y m : Z) : Z :=
  days_before_month (leap y) (m + 1) - days_before_month (leap y) m.

(** The month (0 to 11) that holds day [dy] of a year. *)
Definition month_of_yearday (lp : bool) (dy : Z) : Z :=
  let before := days_before_month lp in
  if dy <? before 1 then 0 else if dy <? before 2 then 1
  else if dy <? before 3 then 2 else if dy <? before 4 then 3
  else if dy <? before 5 then 4 else if dy <? before 6 then 5
  else if dy <? before 7 then 6 else if dy <? before 8 then 7
  else if dy <? before 9 then 8 else if dy <? before 10 then 9
  else if dy <? before 11 then 10 else 11.

Definition MonthFromTime (t : Z) : Z :=
  month_of_yearday (leap (YearFromTime t)) (DayWithinYear t).

Definition DateFromTime (t : Z) : Z :=
  DayWithinYear t
  - days_before_month (leap (YearFromTime t)) (MonthFromTime t) + 1.

(** [MakeDay year month date] for a month in 0..11: the day count of the
    given date. *)
Definition MakeDay (year month date : Z) : Z :=
  DayFromYear year + days_before_month (leap year) month + date - 1.

Definition MakeDate (day time : Z) : Z := day * msPerDay + time.

Definition TimeClip (t : Z) : option Z :=
  if Z.abs t <=? maxTime then Some t else None.

(** A date of the calendar: month 1 to 12, day within the month. *)
Definition valid_date (y m d : Z) : Prop :=
  1 ≤ m ≤ 12 ∧ 1 ≤ d ≤ DaysInMonth y (m - 1).

#[export] Instance valid_date_dec y m d : Decision (valid_date y m d).
Proof. rw /valid_date. apply _. Defined.

(** ** Years *)

Lemma leap_iff y : leap y = true ↔ (y mod 4 = 0 ∧ y mod 100 ≠ 0) ∨ y mod 400 = 0.
Proof.
  rw /leap orb_true_iff andb_true_iff negb_true_iff !Z.eqb_eq Z.eqb_neq //.
Qed.

Lemma DaysInYear_cases y :
  (leap y = true ∧ DaysInYear y = 366) ∨ (leap y = false ∧ DaysInYear y = 365).
Proof. rw /DaysInYear. destruct (leap y); auto. Qed.

Lemma DayFromYear_succ y : DayFromYear (y + 1) = DayFromYear y + DaysInYear y.
Proof.
  rw /DayFromYear. destruct (DaysInYear_cases y) as [[Hl ->]|[Hl ->]].
  - apply leap_iff in Hl. div_lia.
  - apply not_true_iff_false in Hl. rw leap_iff in Hl. div_lia.
Qed.

Lemma DayFromYear_lt y1 y2 : y1 < y2 → DayFromYear y1 < DayFromYear y2.
Proof. rw /DayFromYear. div_lia. Qed.

Lemma DayFromYear_le y1 y2 : y1 ≤ y2 → DayFromYear y1 ≤ DayFromYear y2.
Proof. rw /DayFromYear. div_lia. Qed.

(** [year_of_day] meets the specification of [YearFromTime]. *)
Lemma year_of_day_spec d :
  DayFromYear (year_of_day d) ≤ d < DayFromYear (year_of_day d + 1).
Proof.
  rw /year_of_day. set (y := 1970 + (400 * d) / 146097).
  have Hy : 146097 * (y - 1970) ≤ 400 * d < 146097 * (y - 1970 + 1)
    by (rw /y; div_lia).
  case: (Z.leb_spec (DayFromYear (y + 1)) d)=> H1.
  - split; [done|]. move: H1. rw /DayFromYear. div_lia.
  - case: (Z.ltb_spec d (DayFromYear y))=> H2; [|lia].
    rw Z.sub_add. split; [|done]. move: H2. rw /DayFromYear. div_lia.
Qed.

Lemma year_of_day_unique d y :
  DayFromYear y ≤ d < DayFromYear (y + 1) → year_of_day d = y.
Proof.
  move=> Hy. have Hs := year_of_day_spec d.
  have [Hlt|[Hgt|//]] : year_of_day d < y ∨ y < year_of_day d ∨ year_of_day d = y by lia.
  - have := DayFromYear_le (year_of_day d + 1) y ltac:(lia). lia.
  - have := DayFromYear_le (y + 1) (year_of_day d) ltac:(lia). lia.
Qed.

(** ** Months *)

Lemma month_cases m : 0 ≤ m ≤ 11 →
  m = 0 ∨ m = 1 ∨ m = 2 ∨ m = 3 ∨ m = 4 ∨ m = 5 ∨ m = 6 ∨ m = 7 ∨ m = 8
  ∨ m = 9 ∨ m = 10 ∨ m = 11.
Proof. lia. Qed.

Ltac each_month m H := pose proof (month_cases m H); destruct_or!; subst m.

Lemma DaysInMonth_range y m : 0 ≤ m ≤ 11 → 28 ≤ DaysInMonth y m ≤ 31.
Proof. move=> H. rw /DaysInMonth. each_month m H; by destruct (leap y). Qed.

Lemma days_before_month_range lp m d :
  0 ≤ m ≤ 11 →
  1 ≤ d ≤ days_before_month lp (m + 1) - days_before_month lp m →
  0 ≤ days_before_month lp m + d - 1 < (if lp then 366 else 365).
Proof. move=> H. each_month m H; destruct lp; rw /=; lia. Qed.

Lemma month_of_yearday_spec lp m dy :
  0 ≤ m ≤ 11 →
  days_before_month lp m ≤ dy < days_before_month lp (m + 1) →
  month_of_yearday lp dy = m.
Proof.
  move=> H. rw /month_of_yearday.
  each_month m H; destruct lp; rw /==> Hdy; by split_ltb.
Qed.

Lemma month_of_yearday_range lp dy : 0 ≤ month_of_yearday lp dy ≤ 11.
Proof. rw /month_of_yearday. split_ltb; lia. Qed.

(** ** [MakeDay] and the field extractors are inverse *)

Lemma MakeDay_within_year y m d :
  valid_date y m d →
  DayFromYear y ≤ MakeDay y (m - 1) d < DayFromYear (y + 1).
Proof.
  move=> [Hm Hd]. rw DayFromYear_succ /MakeDay /DaysInYear.
  have := days_before_month_range (leap y) (m - 1) d ltac:(lia) Hd. lia.
Qed.

Section roundtrip.
Context (y m d tod : Z).
Hypothesis Hvalid : valid_date y m d.
Hypothesis Htod : 0 ≤ tod < msPerDay.

Let t := MakeDate (MakeDay y (m - 1) d) tod.

Lemma Day_MakeDate : Day t = MakeDay y (m - 1) d.
Proof. rw /t /Day /MakeDate. move: Htod. rw /msPerDay. div_lia. Qed.

Lemma YearFromTime_MakeDate : YearFromTime t = y.
Proof.
  rw /YearFromTime Day_MakeDate. by apply year_of_day_unique, MakeDay_within_year.
Qed.

Lemma DayWithinYear_MakeDate :
  DayWithinYear t = days_before_month (leap y) (m - 1) + d - 1.
Proof. rw /DayWithinYear YearFromTime_MakeDate Day_MakeDate /MakeDay. lia. Qed.

Lemma MonthFromTime_MakeDate : MonthFromTime t = m - 1.
Proof.
  destruct Hvalid as [Hm Hd].
  rw /MonthFromTime YearFromTime_MakeDate DayWithinYear_MakeDate.
  apply month_of_yearday_spec; [lia|]. move: Hd. rw /DaysInMonth. lia.
Qed.

Lemma DateFromTime_MakeDate : DateFromTime t = d.
Proof.
  rw /DateFromTime MonthFromTime_MakeDate YearFromTime_MakeDate
    DayWithinYear_MakeDate. lia.
Qed.

End roundtrip.

End Time.
