(* ===== verification/DateFormat.v ===== *)
(** * Date formatting

    [formatDate] (lines 98-109 of [src/PaystubGenerator.js]) turns the value
    of a date input into the text shown on the paystub:

    - a falsy argument gives the empty string;
    - [new Date(dateString)] parses the string; a date-only string is the
      midnight that starts that day in UTC;
    - [getTimezoneOffset()] is the host's offset at that instant, in minutes,
      positive west of Greenwich;
    - the offset is added to the time value and the result is formatted with
      [toLocaleDateString("en-US", ...)] in the time zone UTC.

    The parser and the time zone belong to the host: class [Host] states
    what the component needs of them, and the theorems are proved for every
    host.  [strict_host] is one host, used to run the model. *)

From Stdlib Require Import QArith.
From S2P Require Import Prelude JsValue Decimal Calendar.

#[local] Close Scope Q_scope.
#[local] Open Scope Z_scope.

Import Digits Time.

(** ** What the component needs of the host *)

(** [YYYY-MM-DD], the value of a date input. *)
Definition iso_date (y m d : Z) : string :=
  String (digit_char (y / 1000)) (String (digit_char (y / 100 mod 10))
    (String (digit_char (y / 10 mod 10)) (String (digit_char (y mod 10))
      ("-" +:+ print2 m +:+ "-" +:+ print2 d)))).

(** The midnight that starts the day [y]-[m]-[d] in UTC. *)
Definition utc_midnight (y m d : Z) : Z := MakeDate (MakeDay y (m - 1) d) 0.

Class Host : Type := {
  (** [Date.parse]: the time value of a string, [None] for [NaN]. *)
  parse : string → option Z;
  (** [getTimezoneOffset()] of a date with the given time value. *)
  tzOffset : Z → Z;
  (** ECMA-262 21.4.1.32: a date-only string denotes midnight UTC. *)
  parse_date_only y m d :
    0 ≤ y ≤ 9999 → valid_date y m d →
    parse (iso_date y m d) = Some (utc_midnight y m d);
}.

(** ** The Date operations used *)

Module Date.

(** A Date object: its time value, [None] when the date is invalid. *)
Definition t : Type := option Z.

(** [ToNumber] followed by [TimeClip], for an argument that is not a string. *)
Definition of_number (n : number) : t :=
  match n with
  | Fin q => TimeClip (Z.quot (Qnum q) (Z.pos (Qden q)))
  | NegZero => TimeClip 0
  | _ => None
  end.

(** [new Date(v)] *)
Definition new `{Host} (v : value) : t :=
  match v with
  | VString s => parse s
  | VNumber n => of_number n
  | VBool b => Some (if b then 1 else 0)
  | VNull => Some 0
  | VUndefined => None
  end.

Definition getTime (d : t) : option Z := d.

Definition getTimezoneOffset `{Host} (d : t) : option Z := tzOffset <$> d.

(** [new Date(n)] for a number that is the result of arithmetic on time
    values: [None] is [NaN]. *)
Definition of_time (n : option Z) : t := n ≫= TimeClip.

Definition month_short (m : Z) : string :=
  match m with
  | 0 => "Jan" | 1 => "Feb" | 2 => "Mar" | 3 => "Apr" | 4 => "May"
  | 5 => "Jun" | 6 => "Jul" | 7 => "Aug" | 8 => "Sep" | 9 => "Oct"
  | 10 => "Nov" | _ => "Dec"
  end.

(** The year as the Gregorian calendar of CLDR numbers it: the year of the
    era, so that year 0 is shown as 1 (BC) and year -1 as 2. *)
Definition year_of_era (y : Z) : Z := if y <=? 0 then 1 - y else y.

(** The [en-US] pattern for a short month, a numeric day and a numeric
    year. *)
Definition render (y m d : Z) : string :=
  month_short m +:+ " " +:+ print d +:+ ", " +:+ print (year_of_era y).

(** [d.toLocaleDateString("en-US", {year: "numeric", month: "short",
    day: "numeric", timeZone: "UTC"})] *)
Definition toLocaleDateString (d : t) : string :=
  match d with
  | None => "Invalid Date"
  | Some tv => render (YearFromTime tv) (MonthFromTime tv) (DateFromTime tv)
  end.

End Date.

(** Arithmetic on numbers that may be [NaN]. *)
Definition tv_add (a b : option Z) : option Z := x ← a; y ← b; Some (x + y).
Definition tv_mul (a : option Z) (b : Z) : option Z := x ← a; Some (x * b).

(** ** The component's formatter *)

Definition formatDate `{Host} (dateString : value) : string :=
  if js_not dateString then "" else
  let date := Date.new dateString in
  let offset := Date.getTimezoneOffset date in
  let adjustedDate :=
    Date.of_time (tv_add (Date.getTime date) (tv_mul (tv_mul offset 60) 1000)) in
  Date.toLocaleDateString adjustedDate.

(** ** A host to run the model on *)

(** A parser that accepts the date-only form with a four-digit year and
    nothing else. *)
Definition parse_iso (s : string) : option Z :=
  match s with
  | String y3 (String y2 (String y1 (String y0 (String s1 (String m1
      (String m0 (String s2 (String d1 (String d0 ""))))))))) =>
    if forallb is_digit [y3; y2; y1; y0; m1; m0; d1; d0]
       && Ascii.eqb s1 "-" && Ascii.eqb s2 "-"
    then
      let y := read (String y3 (String y2 (String y1 (String y0 "")))) in
      let m := read (String m1 (String m0 "")) in
      let d := read (String d1 (String d0 "")) in
      if decide (valid_date y m d) then Some (utc_midnight y m d) else None
    else None
  | _ => None
  end.

Lemma parse_iso_date_only y m d :
  0 ≤ y ≤ 9999 → valid_date y m d →
  parse_iso (iso_date y m d) = Some (utc_midnight y m d).
Proof.
  move=> Hy Hv. have [Hm Hd] := Hv.
  have Hd' := DaysInMonth_range y (m - 1) ltac:(lia).
  rw /iso_date /print2 /parse_iso /= !is_digit_char /=; try div_lia.
  rw /read /= !digit_value_char; try div_lia.
  have -> : 10 * (10 * (10 * (10 * 0 + y / 1000) + y / 100 mod 10) + y / 10 mod 10)
            + y mod 10 = y by div_lia.
  have -> : 10 * (10 * 0 + m / 10) + m mod 10 = m by div_lia.
  have -> : 10 * (10 * 0 + d / 10) + d mod 10 = d by div_lia.
  by rw decide_True.
Qed.

(** The host whose parser is [parse_iso] and whose clock is [tz]. *)
Definition strict_host (tz : Z → Z) : Host :=
  {| parse := parse_iso; tzOffset := tz; parse_date_only := parse_iso_date_only |}.

(** A host on UTC+9 all year round. *)
Definition tokyo : Host := strict_host (λ _, -540).

(** A host on UTC-5 all year round. *)
Definition bogota : Host := strict_host (λ _, 300).

(** ** The day before *)

(** The calendar date of the day before [y]-[m]-[d]. *)
Definition prev_date (y m d : Z) : Z * Z * Z :=
  if 1 <? d then (y, m, d - 1)
  else if 1 <? m then (y, m - 1, DaysInMonth y (m - 2))
  else (y - 1, 12, 31).

Lemma prev_date_valid y m d :
  valid_date y m d → let '(y', m', d') := prev_date y m d in valid_date y' m' d'.
Proof.
  move=> [Hm Hd]. rw /prev_date. split_ltb.
  - split; lia.
  - have := DaysInMonth_range y (m - 2) ltac:(lia).
    split; [lia|]. replace (m - 1 - 1) with (m - 2) by lia. lia.
  - split; [lia|]. rw /DaysInMonth /=. by destruct (leap (y - 1)).
Qed.

Lemma prev_date_MakeDay y m d :
  valid_date y m d →
  let '(y', m', d') := prev_date y m d in
  MakeDay y' (m' - 1) d' = MakeDay y (m - 1) d - 1.
Proof.
  move=> [Hm Hd]. rw /prev_date. split_ltb.
  - rw /MakeDay. lia.
  - rw /MakeDay /DaysInMonth.
    replace (m - 2 + 1) with (m - 1) by lia. replace (m - 1 - 1) with (m - 2) by lia. lia.
  - have -> : m = 1 by lia. have -> : d = 1 by lia.
    have := DayFromYear_succ (y - 1). replace (y - 1 + 1) with y by lia.
    rw /MakeDay /DaysInYear. change (12 - 1) with 11. change (1 - 1) with 0.
    destruct (leap (y - 1)); rw /=; lia.
Qed.

(** Two days in a row are never shown alike: within a month the day
    differs, across months the name of the month does. *)
Lemma render_day_ne y y' m d :
  1 < d → Date.render y m (d - 1) ≠ Date.render y' m d.
Proof.
  move=> Hd. rw /Date.render=> Heq.
  apply (inj (String.app _)), (inj (String.app _)), (f_equal span_digits) in Heq.
  move: Heq. rw !span_digits_app //; try side.
  move=> [/print_inj Heq _]. have := Heq ltac:(lia) ltac:(lia). lia.
Qed.

Lemma render_month_ne y y' m d d' :
  0 ≤ m < 11 → Date.render y m d ≠ Date.render y' (m + 1) d'.
Proof.
  move=> Hm. have Hm' : 0 ≤ m ≤ 11 by lia. rw /Date.render.
  move: (print d) (print d') (print _) (print _)=> a b c e.
  each_month m Hm'; try lia; vm_compute; discriminate.
Qed.

Lemma render_year_ne y y' d d' : Date.render y 11 d ≠ Date.render y' 0 d'.
Proof.
  rw /Date.render. move: (print d) (print d') (print _) (print _)=> a b c e.
  vm_compute. discriminate.
Qed.

Lemma render_prev_date_ne y m d :
  valid_date y m d →
  let '(y', m', d') := prev_date y m d in
  Date.render y' (m' - 1) d' ≠ Date.render y (m - 1) d.
Proof.
  move=> [Hm Hd]. rw /prev_date. split_ltb.
  - by apply render_day_ne.
  - replace (m - 1) with (m - 1 - 1 + 1) at 2 by lia. apply render_month_ne. lia.
  - have -> : m = 1 by lia. apply render_year_ne.
Qed.

(** ** Theorems on [formatDate] *)

Section formatDate_facts.
Context `{Host}.

Lemma iso_date_nonempty y m d : iso_date y m d ≠ "".
Proof. done. Qed.

(** Day counts of the years that have four digits. *)
Lemma MakeDay_bounds y m d :
  0 ≤ y ≤ 9999 → valid_date y m d → -719528 ≤ MakeDay y (m - 1) d < 2932897.
Proof.
  move=> Hy Hv. have := MakeDay_within_year y m d Hv.
  have := DayFromYear_le 0 y ltac:(lia). have := DayFromYear_le (y + 1) 10000 ltac:(lia).
  change (DayFromYear 0) with (-719528). change (DayFromYear 10000) with 2932897. lia.
Qed.

(** The midnight of a date moved by [o] minutes, as an instant of that
    day or of the day before. *)
Lemma utc_midnight_shift y m d o :
  utc_midnight y m d + o * 60 * 1000 = MakeDate (MakeDay y (m - 1) d) (o * 60000).
Proof. rw /utc_midnight /MakeDate. lia. Qed.

Lemma utc_midnight_shift_prev y m d o :
  valid_date y m d →
  utc_midnight y m d + o * 60 * 1000
  = let '(y', m', d') := prev_date y m d in
    MakeDate (MakeDay y' (m' - 1) d') (msPerDay + o * 60000).
Proof.
  move=> Hv. have := prev_date_MakeDay y m d Hv.
  destruct (prev_date y m d) as [[y' m'] d']=> ->. rw /utc_midnight /MakeDate /msPerDay. lia.
Qed.

(** The text shown for a date-only string: the fields, read in UTC, of the
    parsed midnight moved by the host's offset. *)
Lemma formatDate_date_only y m d :
  0 ≤ y ≤ 9999 → valid_date y m d →
  formatDate (VString (iso_date y m d)) =
    Date.toLocaleDateString
      (TimeClip (utc_midnight y m d + tzOffset (utc_midnight y m d) * 60 * 1000)).
Proof. move=> Hy Hv. by rw /formatDate /= parse_date_only. Qed.

(** Every instant of a day is shown as that day. *)
Lemma toLocaleDateString_MakeDate y m d tod :
  0 ≤ y ≤ 9999 ∨ (y = -1 ∧ m = 12) → valid_date y m d → 0 ≤ tod < msPerDay →
  Date.toLocaleDateString (TimeClip (MakeDate (MakeDay y (m - 1) d) tod))
  = Date.render y (m - 1) d.
Proof.
  move=> Hy Hv Htod.
  have Hb : -719528 - 366 ≤ MakeDay y (m - 1) d < 2932897.
  { destruct Hy as [Hy|[-> ->]]; first by (have := MakeDay_bounds y m d Hy Hv; lia).
    have := MakeDay_within_year (-1) 12 d Hv.
    change (DayFromYear (-1)) with (-719893). change (DayFromYear (-1 + 1)) with (-719528).
    lia. }
  rw /TimeClip. case: (Z.leb_spec _ _)=> Hclip; last first.
  { move: Hclip Htod. rw /MakeDate /maxTime /msPerDay. lia. }
  by rw /= YearFromTime_MakeDate // MonthFromTime_MakeDate // DateFromTime_MakeDate.
Qed.

(** The day before a date of the years 0 to 9999 is in the range of
    [toLocaleDateString_MakeDate]. *)
Lemma prev_date_range y m d :
  0 ≤ y ≤ 9999 → valid_date y m d →
  let '(y', m', d') := prev_date y m d in 0 ≤ y' ≤ 9999 ∨ (y' = -1 ∧ m' = 12).
Proof. move=> Hy [Hm Hd]. rw /prev_date. split_ltb; lia. Qed.

(** A falsy argument (the empty string, [undefined]) gives the
    empty string. *)
Lemma formatDate_blank v : ToBoolean v = false → formatDate v = "".
Proof. move=> Hv. by rw /formatDate /js_not Hv. Qed.

(** C2: on a host at or west of Greenwich (offset between 0 and 1439
    minutes at the parsed instant) a date-only string is shown as the date
    it names. *)
Theorem formatDate_west_shows_date y m d :
  0 ≤ y ≤ 9999 → valid_date y m d →
  0 ≤ tzOffset (utc_midnight y m d) < 1440 →
  formatDate (VString (iso_date y m d)) = Date.render y (m - 1) d.
Proof.
  move=> Hy Hv Ho. rw formatDate_date_only // utc_midnight_shift.
  apply toLocaleDateString_MakeDate; [by left|done|rw /msPerDay; lia].
Qed.

(** C1: on a host east of Greenwich (negative offset, down to a whole
    day) the same string is shown as the day before the date it names. *)
Theorem formatDate_east_shows_previous_day y m d :
  0 ≤ y ≤ 9999 → valid_date y m d →
  -1440 ≤ tzOffset (utc_midnight y m d) < 0 →
  formatDate (VString (iso_date y m d)) =
    let '(y', m', d') := prev_date y m d in Date.render y' (m' - 1) d'.
Proof.
  move=> Hy Hv Ho. rw formatDate_date_only // utc_midnight_shift_prev //.
  have Hpv := prev_date_valid y m d Hv. have Hpr := prev_date_range y m d Hy Hv.
  destruct (prev_date y m d) as [[y' m'] d'].
  apply toLocaleDateString_MakeDate; [done..|rw /msPerDay; lia].
Qed.

(** C3: a date-only string is shown as the date it names exactly on
    the hosts at or west of Greenwich. *)
Theorem formatDate_as_written_iff y m d :
  0 ≤ y ≤ 9999 → valid_date y m d →
  -1440 ≤ tzOffset (utc_midnight y m d) < 1440 →
  formatDate (VString (iso_date y m d)) = Date.render y (m - 1) d
  ↔ 0 ≤ tzOffset (utc_midnight y m d).
Proof.
  move=> Hy Hv Ho. rw formatDate_date_only //. split.
  - move=> Heq. destruct (Z.le_gt_cases 0 (tzOffset (utc_midnight y m d))) as [|Hneg];
      [done|exfalso].
    move: Heq. rw utc_midnight_shift_prev //.
    have Hpv := prev_date_valid y m d Hv. have Hpr := prev_date_range y m d Hy Hv.
    have Hne := render_prev_date_ne y m d Hv.
    destruct (prev_date y m d) as [[y' m'] d'].
    by rw toLocaleDateString_MakeDate; [|done..|rw /msPerDay; lia].
  - move=> Hpos. rw utc_midnight_shift.
    apply toLocaleDateString_MakeDate; [by left|done|rw /msPerDay; lia].
Qed.

(** C39: an argument that holds no date.  A falsy argument (the
    empty string, [undefined]) is shown as the empty string; a non-empty
    string that the host cannot parse is shown as the text
    [Invalid Date]. *)
Theorem formatDate_without_a_date v s :
  (ToBoolean v = false → formatDate v = "")
  ∧ (s ≠ "" → parse s = None → formatDate (VString s) = "Invalid Date").
Proof.
  split; [apply formatDate_blank|].
  move=> Hs Hp. rw /formatDate js_not_string bool_decide_false //. by rw /= Hp.
Qed.

End formatDate_facts.

Lemma formatDate_west_witness :
  @formatDate bogota (VString (iso_date 2024 1 5)) = Date.render 2024 (1 - 1) 5.
Proof. apply (@formatDate_west_shows_date bogota); [lia|by compute_done|done]. Defined.

Lemma formatDate_east_witness :
  @formatDate tokyo (VString (iso_date 2024 1 5)) =
    let '(y', m', d') := prev_date 2024 1 5 in Date.render y' (m' - 1) d'.
Proof. apply (@formatDate_east_shows_previous_day tokyo); [lia|by compute_done|done]. Defined.

Lemma formatDate_as_written_iff_witness :
  @formatDate tokyo (VString (iso_date 2024 1 5)) = Date.render 2024 (1 - 1) 5
  ↔ 0 ≤ @tzOffset tokyo (utc_midnight 2024 1 5).
Proof. apply (@formatDate_as_written_iff tokyo); [lia|by compute_done|done]. Defined.

Lemma formatDate_without_a_date_witness :
  (@formatDate tokyo (VString "") = "" ∧ @formatDate tokyo VUndefined = "")
  ∧ @formatDate tokyo (VString "tomorrow") = "Invalid Date".
Proof.
  split; [split|].
  - by apply (@formatDate_without_a_date tokyo (VString "") "tomorrow").
  - by apply (@formatDate_without_a_date tokyo VUndefined "tomorrow").
  - by apply (@formatDate_without_a_date tokyo VUndefined "tomorrow").
Defined.

Example formatDate_tokyo : @formatDate tokyo (VString "2024-01-05") = "Jan 4, 2024".
Proof. by vm_compute. Qed.

Example formatDate_bogota : @formatDate bogota (VString "2024-01-05") = "Jan 5, 2024".
Proof. by vm_compute. Qed.
