(* ===== verification/VDom.v ===== *)
(** * Element trees

    What the component's [return] statement builds: a tree of elements, each
    with a tag, a list of props and a list of children, and text nodes.  The
    props are the kinds of values the JSX of [src/PaystubGenerator.js] passes:
    string literals, numbers, JavaScript values computed from state, object
    literals ([style], [theme]), the two callbacks, and the ref.

    The file also holds the traversals the theorems read a tree with: its
    text content, the elements that satisfy a test, the controlled inputs
    and the element a ref is attached to. *)

From S2P Require Import Prelude JsValue.

(** An object literal whose leaves are strings and numbers. *)
Inductive json : Type :=
| JStr (s : string)
| JNum (n : Z)
| JObj (fields : list (string * json)).

(** The functions of the component that the JSX passes as callbacks. *)
Inductive handler : Type := HandleInputChange | GeneratePDF.

Inductive prop : Type :=
| PStr (s : string)
| PNum (n : Z)
| PExpr (v : value)
| PObj (o : json)
| PHandler (h : handler)
| PRef.

Inductive node : Type :=
| Text (s : string)
| Elem (tag : string) (props : list (string * prop)) (children : list node).

#[export] Instance handler_eq_dec : EqDecision handler.
Proof. solve_decision. Defined.

(** ** Induction over trees *)

Section node_ind.
Variable P : node → Prop.
Hypothesis HText : ∀ s, P (Text s).
Hypothesis HElem : ∀ tag props children, Forall P children → P (Elem tag props children).

Fixpoint node_ind_forall (n : node) : P n :=
  match n with
  | Text s => HText s
  | Elem tag props children =>
    HElem tag props children
      ((fix go (cs : list node) : Forall P cs :=
          match cs with
          | [] => Forall_nil_2 P
          | c :: cs' => Forall_cons_2 P c cs' (node_ind_forall c) (go cs')
          end) children)
  end.

End node_ind.

(** ** Traversals *)

Definition str_concat (l : list string) : string := foldr String.append "" l.

(** The text of a tree: its text nodes, left to right. *)
Fixpoint text_content (n : node) : string :=
  match n with
  | Text s => s
  | Elem _ _ children => str_concat (text_content <$> children)
  end.

(** The elements of a tree that satisfy [p], in document order. *)
Fixpoint find_all (p : node → bool) (n : node) : list node :=
  (if p n then [n] else []) ++
  match n with
  | Text _ => []
  | Elem _ _ children => mjoin (find_all p <$> children)
  end.

Definition get_attr (k : string) (n : node) : option prop :=
  match n with
  | Text _ => None
  | Elem _ props _ => snd <$> List.find (λ kv, bool_decide (kv.1 = k)) props
  end.

Definition has_tag (t : string) (n : node) : bool :=
  match n with
  | Text _ => false
  | Elem tag _ _ => bool_decide (tag = t)
  end.

Definition has_ref (n : node) : bool :=
  match get_attr "ref" n with
  | Some PRef => true
  | _ => false
  end.

(** The element the ref is attached to once the tree is mounted: React
    stores the last one in document order. *)
Definition ref_target (n : node) : option node := last (find_all has_ref n).

(** A controlled input: its [name] and the [value] it displays. *)
Definition input_binding (n : node) : option (string * value) :=
  match get_attr "name" n, get_attr "value" n with
  | Some (PStr name), Some (PExpr v) => Some (name, v)
  | _, _ => None
  end.

Definition inputs (n : node) : list (string * value) :=
  omap input_binding (find_all (has_tag "Input") n).

(** The callbacks attached under the prop [k], in document order. *)
Definition handlers (k : string) (n : node) : list handler :=
  omap (λ e, match get_attr k e with Some (PHandler h) => Some h | _ => None end)
       (find_all (λ _, true) n).

(** The number of nodes of a tree. *)
Fixpoint size (n : node) : nat :=
  match n with
  | Text _ => 1
  | Elem _ _ children => S (sum_list (size <$> children))
  end.

(** ** Lemmas *)

Lemma str_concat_app l1 l2 : str_concat (l1 ++ l2) = str_concat l1 +:+ str_concat l2.
Proof.
  induction l1 as [|s l1 IH]; [done|]. by rw /= IH str_app_assoc.
Qed.

Lemma text_content_elem tag props children :
  text_content (Elem tag props children) = str_concat (text_content <$> children).
Proof. done. Qed.

Lemma find_all_elem p tag props children :
  find_all p (Elem tag props children) =
    (if p (Elem tag props children) then [Elem tag props children] else [])
    ++ mjoin (find_all p <$> children).
Proof. done. Qed.

Lemma find_all_sound p n e : e ∈ find_all p n → p e = true.
Proof.
  move: n. apply (node_ind_forall (λ n, e ∈ find_all p n → p e = true)).
  - move=> s /=. rw app_nil_r. case Hp: (p (Text s)); [|by move=> /elem_of_nil].
    by move=> /list_elem_of_singleton ->.
  - move=> tag props children IH. rw find_all_elem elem_of_app.
    move=> [|].
    + case Hp: (p _); [|by move=> /elem_of_nil]. by move=> /list_elem_of_singleton ->.
    + move=> /list_elem_of_join [l [Hin /list_elem_of_fmap [c [? Hc]]]]. subst l.
      rw Forall_forall in IH. by apply (IH c).
Qed.

Lemma find_all_children_length p cs :
  Forall (λ n, length (find_all p n) ≤ size n) cs →
  length (mjoin (find_all p <$> cs)) ≤ sum_list (size <$> cs).
Proof.
  induction 1 as [|c cs Hc _ IH]; [done|]. rw !fmap_cons /= length_app. lia.
Qed.

Lemma find_all_length_le p n : length (find_all p n) ≤ size n.
Proof.
  move: n. apply (node_ind_forall (λ n, length (find_all p n) ≤ size n)).
  - move=> s /=. case: (p _); rw /=; lia.
  - move=> tag props children /find_all_children_length IH.
    rw find_all_elem length_app /=. case: (p _); rw /=; lia.
Qed.
