(* ===== verification/Render.v ===== *)
(** * The rendered tree

    The [return] statement of the component (lines 162-472 of
    [src/PaystubGenerator.js]) as a function of the state it reads: the
    paystub record and the logo data URL.  Each definition is one block of
    the JSX, element for element and prop for prop:

    - [form]: the card with the eight inputs and the button;
    - [logo], [header_band]: the band with the logo, or the placeholder
      glyph when the logo is not available;
    - [identity]: name, pay date and pay period;
    - [earnings_table]: the table with its one line and its total;
    - [references]: transaction hash and Safe URL;
    - [preview]: the card that carries the ref, made of the four blocks;
    - [render]: the whole tree.

    A JavaScript expression in child position renders as text when it is a
    string; [expr_child] is that rule.  The expressions of this component
    in child position are all strings ([child_is_text]). *)

From S2P Require Import Prelude JsValue RecordModel NumberFormat Calendar DateFormat VDom.

#[local] Open Scope Z_scope.

(** ** Helpers for props *)

Definition attr (k v : string) : string * prop := (k, PStr v).

Definition style (decls : list (string * string)) : string * prop :=
  ("style", PObj (JObj (prod_map id JStr <$> decls))).

(** A JavaScript value in child position. *)
Definition expr_child (v : value) : list node :=
  match v with
  | VString s => [Text s]
  | _ => []
  end.

(** ** The theme (lines 24-45) *)

Definition theme : json :=
  JObj [("components", JObj [("Input", JObj [
    ("baseStyle", JObj [("field", JObj [
       ("color", JStr "white");
       ("_placeholder", JObj [("color", JStr "gray.400")])])]);
    ("variants", JObj [("outline", JObj [("field", JObj [
       ("_focus", JObj [
          ("borderColor", JStr "#ff5a5a");
          ("boxShadow", JStr "0 0 0 1px #ff5a5a")])])])])])])].

(** ** The form (lines 173-279) *)

(** One input of the form.  The eight inputs differ in their name, their
    type, when they have one, and their placeholder. *)
Definition Input (name : string) (type : option string) (placeholder : string)
    (paystubData : gmap string string) : node :=
  Elem "Input"
    ([attr "name" name]
     ++ from_option (λ t, [attr "type" t]) [] type
     ++ [attr "placeholder" placeholder;
         ("value", PExpr (get_prop paystubData name));
         ("onChange", PHandler HandleInputChange);
         attr "focusBorderColor" "#ff5a5a";
         attr "size" "lg";
         attr "bg" "#1d2126";
         attr "color" "white"])
    [].

Definition form (paystubData : gmap string string) : node :=
  Elem "Box" [attr "mb" "10"; attr "shadow" "lg"; attr "p" "8";
              attr "bg" "#292d34"; attr "borderRadius" "lg"]
  [ Elem "Heading" [attr "size" "lg"; attr "mb" "6"; attr "textAlign" "center";
                    attr "color" "#ff5a5a"]
      [Text "Evmos DAO Paystub Generator"];
    Elem "VStack" [attr "spacing" "6"]
    [ Input "name" None "Name" paystubData;
      Elem "Grid" [attr "templateColumns" "repeat(2, 1fr)"; ("gap", PNum 6);
                   attr "w" "full"]
      [ Elem "GridItem" []
          [Input "payPeriodStart" (Some "date") "Pay Period Start" paystubData];
        Elem "GridItem" []
          [Input "payPeriodEnd" (Some "date") "Pay Period End" paystubData] ];
      Input "payDate" (Some "date") "Pay Date" paystubData;
      Input "grossPay" (Some "number") "Gross Pay" paystubData;
      Input "ytdGross" (Some "number") "YTD Gross" paystubData;
      Input "transactionHash" None "Transaction Hash" paystubData;
      Input "safeUrl" None "Safe URL" paystubData;
      Elem "Button" [attr "colorScheme" "red"; attr "size" "lg"; attr "mt" "4";
                     attr "w" "full"; ("onClick", PHandler GeneratePDF)]
        [Text "Generate Paystub"] ] ].

(** ** The preview (lines 281-468) *)

(** The logo, or the placeholder glyph (lines 289-307). *)
Definition logo (logoDataUrl : string) : node :=
  if ToBoolean (VString logoDataUrl)
  then Elem "ChakraImage" [("src", PExpr (VString logoDataUrl));
                           attr "alt" "Evmos DAO Logo"; attr "height" "64px";
                           attr "width" "auto"] []
  else Elem "Box" [attr "height" "64px"; attr "width" "64px"; attr "bg" "#ff5a5a"]
         [ Elem "Text" [attr "color" "white"; attr "fontWeight" "bold";
                        attr "textAlign" "center"; attr "lineHeight" "64px"]
             [Text "EVMOS"] ].

(** The header band (lines 282-314). *)
Definition header_band (logoDataUrl : string) : node :=
  Elem "Flex" [attr "justify" "space-between"; attr "align" "center";
               attr "bg" "#1d2126"; attr "p" "6"; attr "borderRadius" "lg"]
  [ logo logoDataUrl;
    Elem "Box" [attr "textAlign" "right"]
    [ Elem "Heading" [attr "size" "md"; attr "color" "#ff5a5a"] [Text "Evmos DAO"];
      Elem "Text" [attr "color" "#ff5a5a"] [Text "info@evmosdao.org"] ] ].

Definition label (s : string) : node :=
  Elem "Text" [attr "fontWeight" "bold"; attr "color" "#ff5a5a"] [Text s].

(** The name, or [N/A] (lines 321-326). *)
Definition name_box (paystubData : gmap string string) : node :=
  Elem "Box" []
  [ label "Name";
    Elem "Text" [attr "color" "white"]
      (expr_child (get_prop paystubData "name" ||| VString "N/A")%js) ].

(** The pay date (lines 327-332). *)
Definition pay_date_box `{Host} (paystubData : gmap string string) : node :=
  Elem "Box" [attr "textAlign" "right"]
  [ label "Pay Date";
    Elem "Text" [attr "color" "white"]
      [Text (formatDate (get_prop paystubData "payDate"))] ].

(** The pay period (lines 335-343). *)
Definition pay_period_box `{Host} (paystubData : gmap string string) : node :=
  Elem "Box" []
  [ label "Pay Period";
    Elem "Text" [attr "color" "white"]
      [ Text (formatDate (get_prop paystubData "payPeriodStart"));
        Text " -"; Text " ";
        Text (formatDate (get_prop paystubData "payPeriodEnd")) ] ].

(** Name, pay date and pay period (lines 319-345). *)
Definition identity `{Host} (paystubData : gmap string string) : node :=
  Elem "VStack" [attr "align" "stretch"; attr "spacing" "6"; attr "mb" "8"]
  [ Elem "HStack" [attr "justify" "space-between"]
      [name_box paystubData; pay_date_box paystubData];
    Elem "HStack" [attr "justify" "space-between"]
      [pay_period_box paystubData] ].

Definition th (align : string) (s : string) : node :=
  Elem "th" [style [("textAlign", align); ("paddingBottom", "12px");
                    ("color", "#ff5a5a"); ("fontSize", "16px")]] [Text s].

(** A cell of the body: the first cell of a row has no alignment. *)
Definition td_body (right : bool) (s : string) : node :=
  Elem "td" [style ((if right then [("textAlign", "right")] else [])
                    ++ [("padding", "12px 0"); ("color", "white");
                        ("fontSize", "16px")])] [Text s].

Definition td_total (right : bool) (s : string) : node :=
  Elem "td" [style ((if right then [("textAlign", "right")] else [])
                    ++ [("paddingTop", "12px"); ("fontWeight", "bold");
                        ("color", "#ff5a5a"); ("fontSize", "16px")])] [Text s].

(** The earnings table (lines 347-451). *)
Definition earnings_table (paystubData : gmap string string) : node :=
  Elem "table" [attr "width" "100%"]
  [ Elem "thead" []
      [Elem "tr" [] [th "left" "Earnings"; th "right" "Amount"; th "right" "YTD"]];
    Elem "tbody" []
      [Elem "tr" []
        [ td_body false "Regular Pay";
          td_body true (formatCurrency (get_prop paystubData "grossPay"));
          td_body true (formatCurrency (get_prop paystubData "ytdGross")) ]];
    Elem "tfoot" []
      [Elem "tr" []
        [ td_total false "Total";
          td_total true (formatCurrency (get_prop paystubData "grossPay"));
          td_total true (formatCurrency (get_prop paystubData "ytdGross")) ]] ].

Definition reference (title : string) (v : value) : node :=
  Elem "Text" []
  [ Elem "strong" [style [("color", "#ff5a5a")]] [Text title];
    Text " ";
    Elem "span" [style [("color", "white")]] (expr_child v) ].

(** Transaction hash and Safe URL (lines 453-466). *)
Definition references (paystubData : gmap string string) : node :=
  Elem "VStack" [attr "align" "start"; attr "spacing" "3"; attr "fontSize" "md"]
  [ reference "Transaction Hash:"
      (get_prop paystubData "transactionHash" ||| VString "N/A")%js;
    reference "Safe URL:"
      (get_prop paystubData "safeUrl" ||| VString "N/A")%js ].

(** The card that is captured: it carries the ref. *)
Definition preview `{Host} (paystubData : gmap string string)
    (logoDataUrl : string) : node :=
  Elem "Box" [attr "shadow" "lg"; attr "p" "8"; attr "bg" "#292d34";
              attr "borderRadius" "lg"; ("ref", PRef)]
  [ header_band logoDataUrl;
    Elem "Box" [attr "p" "6"]
    [ Elem "Heading" [attr "size" "lg"; attr "mb" "6"; attr "color" "#ff5a5a"]
        [Text "Earnings Statement"];
      identity paystubData;
      Elem "Divider" [attr "mb" "8"] [];
      earnings_table paystubData;
      Elem "Divider" [attr "my" "8"] [];
      references paystubData ] ].

(** ** The whole tree (lines 162-472) *)

Definition render `{Host} (paystubData : gmap string string)
    (logoDataUrl : string) : node :=
  Elem "ChakraProvider" [("theme", PObj theme)]
  [ Elem "Box" [attr "maxW" "4xl"; attr "mx" "auto"; attr "p" "8";
                attr "bg" "#1d2126"; attr "borderRadius" "lg";
                attr "shadow" "xl"; attr "color" "white"]
    [ form paystubData; preview paystubData logoDataUrl ] ].

(** ** Cells of the earnings table *)

(** The texts of the cells of the rows found under the section [sec]
    ([thead], [tbody] or [tfoot]) of a table. *)
Definition row_cells (sec : string) (table : node) : list (list string) :=
  s ← find_all (has_tag sec) table;
  r ← find_all (has_tag "tr") s;
  [text_content <$> find_all (λ n, has_tag "td" n || has_tag "th" n) r].

(** ** Theorems on the form *)

Section form_facts.
Context (paystubData : gmap string string).
Implicit Types (e : Record.ChangeEvent).

Lemma inputs_form :
  inputs (form paystubData) = (λ k, (k, get_prop paystubData k)) <$> Record.fields.
Proof. reflexivity. Qed.

(** The form has one input per field of the record, in the order
    of the record's fields, and nothing else that is named. *)
Theorem form_inputs_are_the_fields : (inputs (form paystubData)).*1 = Record.fields.
Proof. reflexivity. Qed.

(** Every input of the form displays the field of the record
    that has the input's name. *)
Theorem form_inputs_controlled name v :
  (name, v) ∈ inputs (form paystubData) → v = get_prop paystubData name.
Proof. rw inputs_form. by move=> /list_elem_of_fmap [k [[-> ->] _]]. Qed.

Lemma form_handlers :
  handlers "onChange" (form paystubData) = replicate 8 HandleInputChange
  ∧ handlers "onClick" (form paystubData) = [GeneratePDF].
Proof. split; reflexivity. Qed.

End form_facts.

Lemma form_inputs_controlled_witness :
  VString "Jane" = get_prop (<["name" := "Jane"]> Record.initialPaystubData) "name".
Proof.
  apply (form_inputs_controlled (<["name" := "Jane"]> Record.initialPaystubData) "name").
  rw inputs_form. by apply (list_elem_of_fmap_2' _ _ "name"); [compute_done|].
Defined.

(** After a change event on one of the form's fields, the input of
    that name displays the event's value and every other input displays what
    it displayed before. *)
Theorem form_after_change paystubData e :
  inputs (form (Record.handleInputChange e paystubData)) =
    (λ '(k, v), (k, if decide (k = Record.target_name e)
                    then VString (Record.target_value e) else v))
    <$> inputs (form paystubData).
Proof.
  rw !inputs_form -list_fmap_compose. apply list_fmap_ext=> _ k _ /=.
  case_decide as Hk.
  - subst k. by rw Record.handleInputChange_get_prop.
  - by rw Record.handleInputChange_get_prop_ne.
Qed.

(** ** Theorems on the preview *)

Section preview_facts.
Context `{Host} (paystubData : gmap string string) (logoDataUrl : string).

(** The text a field is shown as when it may be blank. *)
Definition or_NA (k : string) : string :=
  match paystubData !! k with
  | Some s => if bool_decide (s = "") then "N/A" else s
  | None => "N/A"
  end.

Lemma or_NA_spec k :
  (get_prop paystubData k ||| VString "N/A")%js = VString (or_NA k).
Proof.
  rw /or_NA /get_prop. destruct (paystubData !! k) as [s|]; [|done].
  case_bool_decide as Hs; first by subst s. by apply js_or_string_nonempty.
Qed.

(** The expressions in child position are strings, and they
    are never empty. *)
Lemma child_is_text k :
  expr_child (get_prop paystubData k ||| VString "N/A")%js = [Text (or_NA k)]
  ∧ or_NA k ≠ "".
Proof.
  rw or_NA_spec. split; [done|]. rw /or_NA.
  destruct (paystubData !! k) as [s|]; [|done]. by case_bool_decide.
Qed.

Definition blank (k : string) : Prop :=
  paystubData !! k = None ∨ paystubData !! k = Some "".

Lemma or_NA_blank k : blank k → or_NA k = "N/A".
Proof. rw /or_NA. by move=> [->| ->]. Qed.

Lemma or_NA_filled k s : paystubData !! k = Some s → s ≠ "" → or_NA k = s.
Proof. move=> Hs Hne. by rw /or_NA Hs bool_decide_false. Qed.

Lemma name_box_text : text_content (name_box paystubData) = "Name" +:+ or_NA "name".
Proof. rw /name_box or_NA_spec. by str_norm. Qed.

Lemma references_text :
  text_content (references paystubData) =
    "Transaction Hash: " +:+ or_NA "transactionHash"
    +:+ "Safe URL: " +:+ or_NA "safeUrl".
Proof. rw /references !or_NA_spec. by str_norm. Qed.

(** C36: a text field that is absent or empty is shown as [N/A]. *)
Theorem blank_fields_show_NA :
  blank "name" → blank "transactionHash" → blank "safeUrl" →
  text_content (name_box paystubData) = "NameN/A"
  ∧ text_content (references paystubData) = "Transaction Hash: N/ASafe URL: N/A".
Proof.
  move=> Hn Ht Hu. by rw name_box_text references_text !or_NA_blank.
Qed.


(** A text field that holds text is shown as it is. *)
Theorem filled_fields_show_verbatim name hash url :
  paystubData !! "name" = Some name → name ≠ "" →
  paystubData !! "transactionHash" = Some hash → hash ≠ "" →
  paystubData !! "safeUrl" = Some url → url ≠ "" →
  text_content (name_box paystubData) = "Name" +:+ name
  ∧ text_content (references paystubData)
    = "Transaction Hash: " +:+ hash +:+ "Safe URL: " +:+ url.
Proof.
  move=> Hn Hn' Ht Ht' Hu Hu'.
  by rw name_box_text references_text (or_NA_filled _ name) // (or_NA_filled _ hash) //
        (or_NA_filled _ url).
Qed.

End preview_facts.

Lemma blank_fields_show_NA_witness :
  text_content (name_box Record.initialPaystubData) = "NameN/A"
  ∧ text_content (references Record.initialPaystubData)
    = "Transaction Hash: N/ASafe URL: N/A".
Proof. apply blank_fields_show_NA; by right. Defined.

Lemma filled_fields_show_verbatim_witness :
  let d := <["name" := "Jane Doe"]> (<["transactionHash" := "0xabc"]>
             (<["safeUrl" := "https://safe.example/tx/1"]> Record.initialPaystubData)) in
  text_content (name_box d) = "Name" +:+ "Jane Doe"
  ∧ text_content (references d)
    = "Transaction Hash: " +:+ "0xabc" +:+ "Safe URL: " +:+ "https://safe.example/tx/1".
Proof. by apply filled_fields_show_verbatim. Defined.

(** ** Theorems on the earnings table *)

Section table_facts.
Context (paystubData : gmap string string).

Let gross := formatCurrency (get_prop paystubData "grossPay").
Let ytd := formatCurrency (get_prop paystubData "ytdGross").

Lemma earnings_table_rows :
  row_cells "thead" (earnings_table paystubData) = [["Earnings"; "Amount"; "YTD"]]
  ∧ row_cells "tbody" (earnings_table paystubData) = [["Regular Pay"; gross; ytd]]
  ∧ row_cells "tfoot" (earnings_table paystubData) = [["Total"; gross; ytd]].
Proof. rw /row_cells /=. by rw !str_app_nil_r. Qed.

(** C37: The table has exactly one line; its amounts are the formatted
    gross pay and year-to-date gross, and the total row shows the same two
    amounts. *)
Theorem total_row_restates_line_item :
  tail <$> row_cells "tbody" (earnings_table paystubData)
  = [[formatCurrency (get_prop paystubData "grossPay");
      formatCurrency (get_prop paystubData "ytdGross")]]
  ∧ tail <$> row_cells "tfoot" (earnings_table paystubData)
    = tail <$> row_cells "tbody" (earnings_table paystubData).
Proof.
  destruct earnings_table_rows as (_ & -> & ->). done.
Qed.

End table_facts.

(** ** Theorems on the logo and the ref *)

Definition placeholder_glyph : node :=
  Elem "Box" [attr "height" "64px"; attr "width" "64px"; attr "bg" "#ff5a5a"]
    [ Elem "Text" [attr "color" "white"; attr "fontWeight" "bold";
                   attr "textAlign" "center"; attr "lineHeight" "64px"]
        [Text "EVMOS"] ].

Lemma logo_empty : logo "" = placeholder_glyph.
Proof. done. Qed.

Lemma logo_nonempty url :
  url ≠ "" →
  logo url = Elem "ChakraImage" [("src", PExpr (VString url));
                                 attr "alt" "Evmos DAO Logo"; attr "height" "64px";
                                 attr "width" "auto"] [].
Proof. move=> Hu. rw /logo ToBoolean_string. by rw bool_decide_true. Qed.

(** Unfolds the tree down to its elements, with the fields that default
    to [N/A] read off, and splits on whether the logo has resolved. *)
Ltac open_preview url :=
  rw /render /preview /header_band /identity /name_box /references /reference
     !or_NA_spec;
  destruct (decide (url = "")) as [->|?]; [|rw logo_nonempty //].

Section logo_facts.
Context `{Host} (paystubData : gmap string string).

(** While no data URL is available the preview shows the glyph
    [EVMOS] and no image; once one is available it shows one image, whose
    source is the data URL, and no glyph. *)
Theorem logo_or_placeholder logoDataUrl :
  let images := find_all (has_tag "ChakraImage") (preview paystubData logoDataUrl) in
  if bool_decide (logoDataUrl = "")
  then images = [] ∧ text_content (header_band logoDataUrl)
                     = "EVMOS" +:+ "Evmos DAO" +:+ "info@evmosdao.org"
  else (λ i, get_attr "src" i) <$> images = [Some (PExpr (VString logoDataUrl))]
       ∧ text_content (header_band logoDataUrl) = "Evmos DAO" +:+ "info@evmosdao.org".
Proof.
  open_preview logoDataUrl; [done|]. by rw bool_decide_false.
Qed.

(** The element behind the ref, and the inputs under it. *)
Lemma ref_target_render logoDataUrl :
  ref_target (render paystubData logoDataUrl) = Some (preview paystubData logoDataUrl).
Proof.
  rw /ref_target. by open_preview logoDataUrl.
Qed.

Lemma inputs_preview logoDataUrl : inputs (preview paystubData logoDataUrl) = [].
Proof.
  rw /inputs. by open_preview logoDataUrl.
Qed.

(** The ref is attached to the preview card and to nothing else, so
    what is captured is the statement and none of the form's inputs. *)
Theorem ref_is_the_preview logoDataUrl :
  ref_target (render paystubData logoDataUrl) = Some (preview paystubData logoDataUrl)
  ∧ inputs (preview paystubData logoDataUrl) = [].
Proof. split; [apply ref_target_render|apply inputs_preview]. Qed.

(** The inputs on screen are those of the form. *)
Lemma inputs_render logoDataUrl :
  inputs (render paystubData logoDataUrl) = inputs (form paystubData).
Proof.
  rw /inputs. by open_preview logoDataUrl.
Qed.

End logo_facts.

(** ** The text of the statement *)

Section statement_facts.
Context `{Host} (paystubData : gmap string string).

(** The text of the statement in reading order, section by section: the
    header band, the identity and dates, the earnings table, the
    references. *)
Definition statement_text (logoDataUrl : string) : list string :=
  [ (if bool_decide (logoDataUrl = "") then "EVMOS" else "");
    "Evmos DAO"; "info@evmosdao.org";
    "Earnings Statement";
    "Name"; or_NA paystubData "name";
    "Pay Date"; formatDate (get_prop paystubData "payDate");
    "Pay Period"; formatDate (get_prop paystubData "payPeriodStart"); " -"; " ";
    formatDate (get_prop paystubData "payPeriodEnd");
    "Earnings"; "Amount"; "YTD";
    "Regular Pay"; formatCurrency (get_prop paystubData "grossPay");
    formatCurrency (get_prop paystubData "ytdGross");
    "Total"; formatCurrency (get_prop paystubData "grossPay");
    formatCurrency (get_prop paystubData "ytdGross");
    "Transaction Hash:"; " "; or_NA paystubData "transactionHash";
    "Safe URL:"; " "; or_NA paystubData "safeUrl" ].

(** The preview is the four sections of the statement in their order, and
    its text is the labels and the formatted fields and nothing else:
    whatever the record holds, the statement has one shape. *)
Theorem preview_text logoDataUrl :
  text_content (preview paystubData logoDataUrl)
  = str_concat (statement_text logoDataUrl).
Proof.
  rw /statement_text. open_preview logoDataUrl; [|rw bool_decide_false //];
    rw /str_concat /=; by autorewrite with str.
Qed.

End statement_facts.
