(* ===== verification/Effect.v ===== *)
(** * Effects

    The handlers of the component call into the browser and into two
    libraries, and those calls can throw.  A computation of type [io E X A]
    is the list of the events it caused, in order, together with its
    outcome: a value of [A], or the exception of type [X] that stopped it.
    Events caused before an exception are kept, which is what makes it
    possible to state what had, and had not, happened when a handler failed.

    [call e r] is a call into the environment: it is recorded as the event
    [e] and has the outcome [r] that the environment gives it.
    [try_catch] is the [try { ... } catch (x) { ... }] statement; what its
    handler throws is what the statement throws, and has a type of its
    own. *)

From S2P Require Import Prelude.

Inductive outcome (X A : Type) : Type :=
| Returns (a : A)
| Throws (x : X).
Arguments Returns {X A} a.
Arguments Throws {X A} x.

Definition io (E X A : Type) : Type := list E * outcome X A.

Section io.
Context {E X : Type}.

Definition io_ret {A} (a : A) : io E X A := ([], Returns a).

Definition io_bind {A B} (k : A → io E X B) (m : io E X A) : io E X B :=
  match m with
  | (l, Returns a) => let '(l', r) := k a in (l ++ l', r)
  | (l, Throws x) => (l, Throws x)
  end.

Definition emit (e : E) : io E X unit := ([e], Returns tt).

Definition throw {A} (x : X) : io E X A := ([], Throws x).

Definition call {A} (e : E) (r : outcome X A) : io E X A := ([e], r).

(** The value of an awaited promise: no event of its own, the outcome it
    settled with. *)
Definition settled {A} (r : outcome X A) : io E X A := ([], r).

Definition trace {A} (m : io E X A) : list E := m.1.
Definition result {A} (m : io E X A) : outcome X A := m.2.

#[export] Instance io_mret : MRet (io E X) := @io_ret.
#[export] Instance io_mbind : MBind (io E X) := @io_bind.

(** ** Laws *)

Lemma io_bind_ret_l {A B} (a : A) (k : A → io E X B) : mret a ≫= k = k a.
Proof. rw /mret /mbind /io_mret /io_mbind /=. by destruct (k a). Qed.

Lemma io_bind_ret_r {A} (m : io E X A) : m ≫= mret = m.
Proof. destruct m as [l [a|x]]; rw /mret /mbind /io_mret /io_mbind //= app_nil_r //. Qed.

Lemma io_bind_assoc {A B C} (m : io E X A) (k : A → io E X B) (h : B → io E X C) :
  (m ≫= k) ≫= h = m ≫= (λ a, k a ≫= h).
Proof.
  destruct m as [l [a|x]]; rw /mbind /io_mbind //=.
  destruct (k a) as [l1 [b|x]]; rw //=.
  destruct (h b) as [l2 r]. by rw app_assoc.
Qed.

Lemma io_bind_throw {A B} (x : X) (k : A → io E X B) : throw x ≫= k = throw x.
Proof. done. Qed.

Lemma call_returns {A B} e (a : A) (k : A → io E X B) :
  call e (Returns a) ≫= k = (e :: trace (k a), result (k a)).
Proof. rw /mbind /io_mbind /call /=. by destruct (k a). Qed.

Lemma call_throws {A B} e (x : X) (k : A → io E X B) :
  call e (Throws x) ≫= k = ([e], Throws x).
Proof. done. Qed.

Lemma emit_bind {B} e (k : unit → io E X B) :
  emit e ≫= k = (e :: trace (k tt), result (k tt)).
Proof. rw /mbind /io_mbind /emit /=. by destruct (k tt). Qed.

(** A call is its event followed by its outcome. *)
Lemma call_settled {A B} e (r : outcome X A) (k : A → io E X B) :
  call e r ≫= k = emit e ≫= λ _, settled r ≫= k.
Proof.
  destruct r as [a|x]; rw /mbind /io_mbind /call /emit /settled //=.
  by destruct (k a).
Qed.

End io.

(** ** The [try] statement *)

Section try_catch.
Context {E X Y : Type}.

Definition try_catch {A} (m : io E X A) (h : X → io E Y A) : io E Y A :=
  match m with
  | (l, Returns a) => (l, Returns a)
  | (l, Throws x) => let '(l', r) := h x in (l ++ l', r)
  end.

Lemma try_catch_returns {A} l (a : A) (h : X → io E Y A) :
  try_catch (l, Returns a) h = (l, Returns a).
Proof. done. Qed.

Lemma try_catch_throws {A} l x (h : X → io E Y A) :
  try_catch (l, Throws x) h = (l ++ trace (h x), result (h x)).
Proof. rw /try_catch. by destruct (h x). Qed.

(** An event before the [try] statement or as the first thing in it:
    the same run. *)
Lemma try_catch_emit {A} e (m : io E X A) (h : X → io E Y A) :
  try_catch (emit e ≫= λ _, m) h = emit e ≫= λ _, try_catch m h.
Proof.
  destruct m as [l [a|x]]; rw /mbind /io_mbind /emit /try_catch //=.
  by destruct (h x).
Qed.

(** A handler that cannot throw makes the whole statement unable to throw. *)
Lemma try_catch_total {A} (m : io E X A) (h : X → io E Y A) :
  (∀ x, ∃ a, result (h x) = Returns a) → ∃ a, result (try_catch m h) = Returns a.
Proof.
  move=> Hh. destruct m as [l [a|x]]; first by exists a.
  rw try_catch_throws. apply Hh.
Qed.

(** What escapes the statement was thrown by its handler. *)
Lemma try_catch_escapes {A} (m : io E X A) (h : X → io E Y A) y :
  result (try_catch m h) = Throws y →
  ∃ x, result m = Throws x ∧ result (h x) = Throws y.
Proof.
  destruct m as [l [a|x]]; first done. rw try_catch_throws. by exists x.
Qed.

End try_catch.

