(* ===== verification/ExportPipeline.v ===== *)
(** * The export pipeline

    [generatePDF] (lines 111-160 of [src/PaystubGenerator.js]): when the ref
    is not attached it reports an error and stops; otherwise it rasterises
    the element with [html2canvas], reads the bitmap as a PNG data URL,
    creates a [jsPDF] document (portrait, points, A4), places the bitmap at
    the origin at the full page width with the height that keeps the
    bitmap's proportions, saves the document under a fixed name and reports
    success.  Whatever is thrown on the way is caught and logged, and its
    [message] is read and reported; when what was thrown is [null] or
    [undefined] that read throws, out of the handler.
    The height is computed as the program computes it, in double precision
    ([Double]); [Placement] compares it with the exact height.

    [html2canvas], [canvas.toDataURL], [pdf.addImage] and [pdf.save] are not
    code of the component: record [World] holds the outcome of each of them,
    and the theorems hold for every world.  The events a run causes, calls
    included, are recorded in order. *)

From Stdlib Require Import QArith.
From S2P Require Import Prelude JsValue Double VDom Effect.

#[local] Close Scope Q_scope.
#[local] Open Scope Z_scope.

Module PdfExport.

(** ** Data *)

(** What is thrown, or what a promise is rejected with: [null] or
    [undefined], which have no properties, or a value whose [message] is a
    string or is absent. *)
Inductive error : Type :=
| Nullish
| Thrown (msg : option string).

(** The [TypeError] of reading a property of [null] or [undefined]. *)
Inductive type_error : Type :=
| CannotRead (property : string).

#[export] Instance error_eq_dec : EqDecision error.
Proof. solve_decision. Defined.

(** The bitmap [html2canvas] resolves with. *)
Record canvas : Type := mkCanvas { width : Z; height : Z }.

Record html2canvas_options : Type := mkH2C {
  scale : Z;
  useCORS : bool;
  allowTaint : bool;
}.

Record jsPDF_options : Type := mkPdfOptions {
  pdf_orientation : string;
  pdf_unit : string;
  pdf_format : string;
}.

(** One [addImage] call: the image and the rectangle it is placed in. *)
Record placement : Type := mkPlacement {
  imageData : string;
  imageFormat : string;
  img_x : number;
  img_y : number;
  img_width : number;
  img_height : number;
}.

(** A document: its options and the images added, in order. *)
Record pdf : Type := mkPdf {
  options : jsPDF_options;
  images : list placement;
}.

Record toast : Type := mkToast {
  title : string;
  description : string;
  status : string;
  duration : Z;
  isClosable : bool;
}.

Inductive event : Type :=
| Html2canvas (element : node) (opts : html2canvas_options)
| ToDataURL (c : canvas) (type : string)
| NewPDF (opts : jsPDF_options)
| AddImage (p : placement)
| Save (doc : pdf) (name : string)
| Download (name : string) (doc : pdf)
| ConsoleError (label : string) (e : error)
| Toast (t : toast).

(** The outcomes of the calls into the libraries and the browser. *)
Record World : Type := mkWorld {
  html2canvas : node → html2canvas_options → outcome error canvas;
  toDataURL : canvas → string → outcome error string;
  addImage : pdf → placement → outcome error unit;
  save : pdf → string → outcome error unit;
}.

(** ** jsPDF, as far as the component uses it *)

(** The width of an A4 page in points, as jsPDF tabulates it: 595.28. *)
Definition a4_width_pt : Q := Qmake 59528 100.

(** [error.message]: the read throws when there is nothing to read from. *)
Definition error_message (err : error) : io event type_error (option string) :=
  match err with
  | Nullish => throw (CannotRead "message")
  | Thrown msg => mret msg
  end.

Definition new_jsPDF (opts : jsPDF_options) : io event error pdf :=
  call (NewPDF opts) (Returns (mkPdf opts [])).

(** [pdf.internal.pageSize.getWidth()]: the double nearest 595.28. *)
Definition getWidth (doc : pdf) : number := Double.round a4_width_pt.

(** [pdf.addImage(...)]: the image is appended unless the call throws. *)
Definition pdf_addImage (wd : World) (doc : pdf) (p : placement) : io event error pdf :=
  _ ← call (AddImage p) (addImage wd doc p);
  mret (mkPdf (options doc) (images doc ++ [p])).

(** [pdf.save(name)]: the download happens unless the call throws. *)
Definition pdf_save (wd : World) (doc : pdf) (name : string) : io event error unit :=
  _ ← call (Save doc name) (save wd doc name);
  emit (Download name doc).

(** ** The handler *)

(** What the handler does with the bitmap (lines 130-149): encode it,
    create the document, place the image, save, tell the user. *)
Definition after_capture (wd : World) (canvas : canvas) : io event error unit :=
  imgData ← call (ToDataURL canvas "image/png") (toDataURL wd canvas "image/png");
  doc ← new_jsPDF {| pdf_orientation := "portrait"; pdf_unit := "pt"; pdf_format := "a4" |};
  let imgWidth := getWidth doc in
  let imgHeight :=
    Double.div (Double.mul (of_Z (height canvas)) imgWidth) (of_Z (width canvas)) in
  doc ← pdf_addImage wd doc
          {| imageData := imgData; imageFormat := "PNG";
             img_x := of_Z 0; img_y := of_Z 0;
             img_width := imgWidth; img_height := imgHeight |};
  _ ← pdf_save wd doc "evmos-dao-paystub.pdf";
  emit (Toast {| title := "Success";
                 description := "Paystub PDF generated successfully.";
                 status := "success"; duration := 3000; isClosable := true |}).

(** The [catch] block (lines 150-159): the error is logged, then its
    message is read for the toast. *)
Definition catch_block (err : error) : io event type_error unit :=
  _ ← emit (ConsoleError "Error generating PDF:" err);
  message ← error_message err;
  emit (Toast {| title := "Error";
                 description := "Failed to generate PDF: " +:+ ToString message;
                 status := "error"; duration := 5000; isClosable := true |}).

(** [generatePDF] (lines 111-160), read as one uninterrupted run: the
    guard, then the [try] statement, in which the promise of [html2canvas]
    is awaited and its bitmap handed on. *)
Definition generatePDF (wd : World) (paystubRef_current : option node)
  : io event type_error unit :=
  match paystubRef_current with
  | None =>
    emit (Toast {| title := "Error";
                   description := "Could not find paystub content.";
                   status := "error"; duration := 3000; isClosable := true |})
  | Some element =>
    try_catch
      (let opts := {| scale := 2; useCORS := true; allowTaint := true |} in
       canvas ← call (Html2canvas element opts) (html2canvas wd element opts);
       after_capture wd canvas)
      catch_block
  end.

(** ** The handler in the two turns it runs in

    [generatePDF] is an [async] function with one [await].  The turn of the
    click runs it up to the call of [html2canvas] and suspends it; the turn
    in which the promise settles runs the rest, inside the same [try]. *)

Definition generatePDF_click (paystubRef_current : option node)
  : list event * option node :=
  match paystubRef_current with
  | None =>
    ([Toast {| title := "Error";
               description := "Could not find paystub content.";
               status := "error"; duration := 3000; isClosable := true |}], None)
  | Some element =>
    ([Html2canvas element {| scale := 2; useCORS := true; allowTaint := true |}],
     Some element)
  end.

Definition generatePDF_settle (wd : World) (promise : outcome error canvas)
  : io event type_error unit :=
  try_catch (canvas ← settled promise; after_capture wd canvas) catch_block.

(** ** Reading a trace *)

Definition toasts (l : list event) : list toast :=
  omap (λ e, match e with Toast t => Some t | _ => None end) l.

Definition downloads (l : list event) : list (string * pdf) :=
  omap (λ e, match e with Download n d => Some (n, d) | _ => None end) l.

Definition captures (l : list event) : list node :=
  omap (λ e, match e with Html2canvas el _ => Some el | _ => None end) l.

(** ** What the component promises

    The contract of the export, without the events: the attempt fails its
    precondition, or fails with a message, or produces one file.  An
    error that has no message is reported as one whose message is
    absent. *)

Inductive export_outcome : Type :=
| PreconditionFailed
| Failed (msg : string)
| Exported (name : string) (doc : pdf).

Definition the_options : html2canvas_options :=
  {| scale := 2; useCORS := true; allowTaint := true |}.

Definition the_pdf_options : jsPDF_options :=
  {| pdf_orientation := "portrait"; pdf_unit := "pt"; pdf_format := "a4" |}.

Definition file_name : string := "evmos-dao-paystub.pdf".

(** The rectangle the bitmap [c] is placed in. *)
Definition fit (c : canvas) (imgData : string) : placement :=
  {| imageData := imgData; imageFormat := "PNG";
     img_x := of_Z 0; img_y := of_Z 0;
     img_width := Double.round a4_width_pt;
     img_height :=
       Double.div (Double.mul (of_Z (height c)) (Double.round a4_width_pt))
         (of_Z (width c)) |}.

(** The message of what was thrown. *)
Definition message (e : error) : option string :=
  match e with
  | Nullish => None
  | Thrown msg => msg
  end.

(** The stages of an export in their order: rasterise, encode, embed,
    persist.  The first one that throws decides the outcome. *)
Definition stages (wd : World) (el : node) : outcome error pdf :=
  match html2canvas wd el the_options with
  | Throws e => Throws e
  | Returns c =>
    match toDataURL wd c "image/png" with
    | Throws e => Throws e
    | Returns data =>
      match addImage wd (mkPdf the_pdf_options []) (fit c data) with
      | Throws e => Throws e
      | Returns _ =>
        let doc := mkPdf the_pdf_options [fit c data] in
        match save wd doc file_name with
        | Throws e => Throws e
        | Returns _ => Returns doc
        end
      end
    end
  end.

Definition export_contract (wd : World) (paystubRef_current : option node)
  : export_outcome :=
  match paystubRef_current with
  | None => PreconditionFailed
  | Some el =>
    match stages wd el with
    | Throws e => Failed (ToString (message e))
    | Returns doc => Exported file_name doc
    end
  end.

(** What an export fails with, when a stage throws. *)
Definition rejection (wd : World) (paystubRef_current : option node)
  : option error :=
  match paystubRef_current with
  | None => None
  | Some el =>
    match stages wd el with
    | Throws e => Some e
    | Returns _ => None
    end
  end.

(** A logged error that is [null] or [undefined]. *)
Definition nullish_caught (e : event) : bool :=
  match e with
  | ConsoleError _ Nullish => true
  | _ => false
  end.

(** What the user is told of an outcome, and the files it leaves. *)
Definition report (o : export_outcome) : toast :=
  match o with
  | PreconditionFailed =>
    {| title := "Error"; description := "Could not find paystub content.";
       status := "error"; duration := 3000; isClosable := true |}
  | Failed msg =>
    {| title := "Error"; description := "Failed to generate PDF: " +:+ msg;
       status := "error"; duration := 5000; isClosable := true |}
  | Exported _ _ =>
    {| title := "Success"; description := "Paystub PDF generated successfully.";
       status := "success"; duration := 3000; isClosable := true |}
  end.

Definition files (o : export_outcome) : list (string * pdf) :=
  match o with
  | Exported name doc => [(name, doc)]
  | _ => []
  end.

(** What the [catch] block leaves in the trace: the logged error, and the
    toast when the message could be read. *)
Definition caught (e : error) : list event :=
  ConsoleError "Error generating PDF:" e
  :: match e with
     | Nullish => []
     | Thrown msg => [Toast (report (Failed (ToString msg)))]
     end.

(** ** Theorems *)

(** [run_cases] runs the handler on the outcomes of the world: one goal per
    outcome of each call that is reached, and per kind of value thrown. *)
Ltac run_cases :=
  rw /generatePDF /generatePDF_settle /export_contract /rejection /stages
     /after_capture /pdf_addImage /pdf_save /new_jsPDF /getWidth /the_options
     /the_pdf_options /file_name /fit;
  simpl;
  repeat (match goal with
          | |- context [match ?r with Returns _ => _ | Throws _ => _ end] =>
            lazymatch r with
            | context [match _ with Returns _ => _ | Throws _ => _ end] => fail
            | _ => destruct r as [?|[|?]] eqn:?
            end
          end; simpl);
  repeat match goal with u : unit |- _ => destruct u end.

Section generatePDF_facts.
Context (wd : World).
Implicit Types (el : node) (c : canvas) (e : error).

(** The cases of a run, by the first stage that throws. *)
Inductive run : option node → list event → Prop :=
| run_unmounted :
    run None [Toast (report PreconditionFailed)]
| run_capture_throws el e :
    html2canvas wd el the_options = Throws e →
    run (Some el) (Html2canvas el the_options :: caught e)
| run_encode_throws el c e :
    html2canvas wd el the_options = Returns c →
    toDataURL wd c "image/png" = Throws e →
    run (Some el) (Html2canvas el the_options :: ToDataURL c "image/png" :: caught e)
| run_addImage_throws el c data e :
    html2canvas wd el the_options = Returns c →
    toDataURL wd c "image/png" = Returns data →
    addImage wd (mkPdf the_pdf_options []) (fit c data) = Throws e →
    run (Some el) (Html2canvas el the_options :: ToDataURL c "image/png"
                   :: NewPDF the_pdf_options :: AddImage (fit c data) :: caught e)
| run_save_throws el c data e :
    html2canvas wd el the_options = Returns c →
    toDataURL wd c "image/png" = Returns data →
    addImage wd (mkPdf the_pdf_options []) (fit c data) = Returns tt →
    save wd (mkPdf the_pdf_options [fit c data]) file_name = Throws e →
    run (Some el) (Html2canvas el the_options :: ToDataURL c "image/png"
                   :: NewPDF the_pdf_options :: AddImage (fit c data)
                   :: Save (mkPdf the_pdf_options [fit c data]) file_name :: caught e)
| run_exported el c data :
    html2canvas wd el the_options = Returns c →
    toDataURL wd c "image/png" = Returns data →
    addImage wd (mkPdf the_pdf_options []) (fit c data) = Returns tt →
    save wd (mkPdf the_pdf_options [fit c data]) file_name = Returns tt →
    run (Some el) [Html2canvas el the_options; ToDataURL c "image/png";
                   NewPDF the_pdf_options; AddImage (fit c data);
                   Save (mkPdf the_pdf_options [fit c data]) file_name;
                   Download file_name (mkPdf the_pdf_options [fit c data]);
                   Toast (report (Exported file_name (mkPdf the_pdf_options [fit c data])))].

Lemma catch_block_trace e : trace (catch_block e) = caught e.
Proof. by destruct e. Qed.

(** The [catch] block returns unless what it caught is [null] or
    [undefined]. *)
Lemma catch_block_result e :
  result (catch_block e)
  = if e is Nullish then Throws (CannotRead "message") else Returns tt.
Proof. by destruct e. Qed.

(** Every run of the handler is one of the cases. *)
Lemma generatePDF_run cur : run cur (trace (generatePDF wd cur)).
Proof.
  destruct cur as [el|]; run_cases;
    by econstructor.
Qed.

(** The handler returns unless a stage throws [null] or [undefined]: then
    the [TypeError] of the [catch] block escapes it. *)
Lemma generatePDF_result cur :
  result (generatePDF wd cur)
  = if rejection wd cur is Some Nullish then Throws (CannotRead "message")
    else Returns tt.
Proof. destruct cur as [el|]; by run_cases. Qed.

(** Rewrites the outcomes of the world that a case of [run] fixes. *)
Ltac run_world :=
  rw /export_contract /rejection /stages;
  repeat match goal with
         | H : _ = Returns _ |- _ => rw H
         | H : _ = Throws _ |- _ => rw H
         end.

(** The contract of a run that fails carries the message of what was
    thrown. *)
Lemma rejection_contract cur e :
  rejection wd cur = Some e → export_contract wd cur = Failed (ToString (message e)).
Proof.
  rw /rejection /export_contract. destruct cur as [el|]; [|done].
  destruct (stages wd el) as [doc|e']; [done|]. by move=> [->].
Qed.

(** A file is downloaded exactly when the contract says so. *)
Lemma run_downloads cur tr : run cur tr → downloads tr = files (export_contract wd cur).
Proof. destruct 1; run_world; try done; by destruct e. Qed.

(** A run whose error has properties shows one toast, the report of the
    outcome of the contract. *)
Lemma run_toasts cur tr :
  run cur tr → rejection wd cur ≠ Some Nullish →
  toasts tr = [report (export_contract wd cur)].
Proof. destruct 1; run_world; try done; by destruct e. Qed.

Lemma run_contract cur tr :
  run cur tr → rejection wd cur ≠ Some Nullish →
  toasts tr = [report (export_contract wd cur)]
  ∧ downloads tr = files (export_contract wd cur).
Proof. move=> Hrun Hp. split; [by apply run_toasts|by apply run_downloads]. Qed.

(** A run that fails logs what was thrown. *)
Lemma run_logged cur tr e :
  run cur tr → rejection wd cur = Some e →
  ConsoleError "Error generating PDF:" e ∈ tr.
Proof. destruct 1; run_world; try done; move=> [<-]; rw /caught; set_solver. Qed.

(** A run shows no toast exactly when it caught [null] or [undefined],
    and then the log tells. *)
Lemma run_nullish cur tr :
  run cur tr →
  existsb nullish_caught tr = bool_decide (rejection wd cur = Some Nullish)
  ∧ (rejection wd cur = Some Nullish → toasts tr = []).
Proof. destruct 1; run_world; try done; by destruct e. Qed.

(** A run with an element behind the ref captures that element, once. *)
Lemma run_captures el tr : run (Some el) tr → captures tr = [el].
Proof. move=> Hrun. inversion Hrun; subst; try done; by destruct e. Qed.

(** Such a run does not show the toast of the missing target. *)
Lemma run_target el tr : run (Some el) tr → toasts tr ≠ [report PreconditionFailed].
Proof. move=> Hrun. inversion Hrun; subst; try done; by destruct e. Qed.

(** The handler returns when no stage throws [null] or [undefined]:
    nothing else that the libraries throw escapes it. *)
Theorem generatePDF_returns cur :
  rejection wd cur ≠ Some Nullish → result (generatePDF wd cur) = Returns tt.
Proof. move=> Hp. rw generatePDF_result. by destruct (rejection wd cur) as [[|]|]. Qed.

(** C5: a run in which no stage throws [null] or [undefined] returns,
    shows exactly one toast, the report of the contract's outcome, and
    saves exactly the files of that outcome. *)
Theorem generatePDF_meets_contract cur :
  rejection wd cur ≠ Some Nullish →
  toasts (trace (generatePDF wd cur)) = [report (export_contract wd cur)]
  ∧ downloads (trace (generatePDF wd cur)) = files (export_contract wd cur)
  ∧ result (generatePDF wd cur) = Returns tt.
Proof.
  move=> Hp. destruct (run_contract cur _ (generatePDF_run cur) Hp) as [Ht Hd].
  split_and!; [done..|by apply generatePDF_returns].
Qed.


(** C7: a file is saved only after the capture, the encoding, the
    placement and the save have each returned, in that order, and the file
    is the document that holds the one placed bitmap. *)
Theorem download_after_all_stages cur name doc :
  (name, doc) ∈ downloads (trace (generatePDF wd cur)) →
  ∃ el c data,
    cur = Some el
    ∧ html2canvas wd el the_options = Returns c
    ∧ toDataURL wd c "image/png" = Returns data
    ∧ addImage wd (mkPdf the_pdf_options []) (fit c data) = Returns tt
    ∧ save wd doc file_name = Returns tt
    ∧ name = file_name ∧ doc = mkPdf the_pdf_options [fit c data]
    ∧ trace (generatePDF wd cur)
      = [Html2canvas el the_options; ToDataURL c "image/png"; NewPDF the_pdf_options;
         AddImage (fit c data); Save doc file_name; Download file_name doc;
         Toast (report (Exported file_name doc))].
Proof.
  destruct (generatePDF_run cur) as [| | | | |el c data]; rw /downloads /=;
    try (by move=> /elem_of_nil); try (by destruct e=> /elem_of_nil).
  move=> /list_elem_of_singleton [-> ->]. by exists el, c, data.
Qed.

(** C8: when a stage throws a value that has properties, the error is
    logged, the toast carries its message and stays for five seconds, no
    file is saved, and the handler returns. *)
Theorem failure_is_reported cur msg :
  rejection wd cur = Some (Thrown msg) →
  downloads (trace (generatePDF wd cur)) = []
  ∧ toasts (trace (generatePDF wd cur))
    = [{| title := "Error";
          description := "Failed to generate PDF: " +:+ ToString msg;
          status := "error"; duration := 5000; isClosable := true |}]
  ∧ ConsoleError "Error generating PDF:" (Thrown msg) ∈ trace (generatePDF wd cur)
  ∧ result (generatePDF wd cur) = Returns tt.
Proof.
  move=> Hc. have Hrun := generatePDF_run cur.
  have Hp : rejection wd cur ≠ Some Nullish by rw Hc.
  destruct (run_contract _ _ Hrun Hp) as [-> ->]. rw (rejection_contract _ _ Hc).
  split_and!; [done..|by apply (run_logged cur)|by apply generatePDF_returns].
Qed.

(** C11: When a stage throws [null] or [undefined], the [catch] block
    logs it and throws on reading its message: no toast is shown, no file
    is saved, and a [TypeError] escapes the handler. *)
Theorem nullish_rejection_is_not_reported cur :
  rejection wd cur = Some Nullish →
  toasts (trace (generatePDF wd cur)) = []
  ∧ downloads (trace (generatePDF wd cur)) = []
  ∧ ConsoleError "Error generating PDF:" Nullish ∈ trace (generatePDF wd cur)
  ∧ result (generatePDF wd cur) = Throws (CannotRead "message").
Proof.
  move=> Hc. have Hrun := generatePDF_run cur.
  destruct (run_nullish _ _ Hrun) as [_ Ht]. rw (run_downloads _ _ Hrun).
  rw (rejection_contract _ _ Hc).
  split_and!; [by apply Ht|done|by apply (run_logged cur)|by rw generatePDF_result Hc].
Qed.

(** A run captures at most one element, the one behind the ref. *)
Theorem captures_the_ref el : captures (trace (generatePDF wd (Some el))) = [el].
Proof. apply run_captures, generatePDF_run. Qed.

(** A run on an element is the call of [html2canvas] followed by the turn
    in which its promise settles. *)
Lemma generatePDF_resumed el :
  generatePDF wd (Some el)
  = emit (Html2canvas el the_options) ≫=
      λ _, generatePDF_settle wd (html2canvas wd el the_options).
Proof. by rw /generatePDF /generatePDF_settle call_settled try_catch_emit. Qed.

(** What a run shows: one toast, the report of the outcome of the
    contract, or none when it has logged [null] or [undefined]. *)
Lemma generatePDF_shows cur :
  toasts (trace (generatePDF wd cur))
  = if existsb nullish_caught (trace (generatePDF wd cur)) then []
    else [report (export_contract wd cur)].
Proof.
  have Hrun := generatePDF_run cur. destruct (run_nullish _ _ Hrun) as [-> Hs].
  case_bool_decide as Hr; [by apply Hs|by apply (run_toasts _ _ Hrun)].
Qed.

Lemma generatePDF_settle_shows el :
  let rest := trace (generatePDF_settle wd (html2canvas wd el the_options)) in
  toasts rest
  = if existsb nullish_caught rest then []
    else [report (export_contract wd (Some el))].
Proof. have := generatePDF_shows (Some el). by rw generatePDF_resumed emit_bind. Qed.

Lemma generatePDF_settle_downloads el :
  downloads (trace (generatePDF_settle wd (html2canvas wd el the_options)))
  = files (export_contract wd (Some el)).
Proof.
  have := run_downloads _ _ (generatePDF_run (Some el)).
  by rw generatePDF_resumed emit_bind.
Qed.


End generatePDF_facts.

(** ** Three worlds to run the model in *)

(** Every call returns; the capture is 1190 by 1684 pixels. *)
Definition ideal_world : World :=
  {| html2canvas _ _ := Returns (mkCanvas 1190 1684);
     toDataURL _ _ := Returns "data:image/png;base64,iVBORw0KGgo=";
     addImage _ _ := Returns tt;
     save _ _ := Returns tt |}.

(** The bitmap cannot be read back: [toDataURL] throws. *)
Definition tainted_world : World :=
  {| html2canvas _ _ := Returns (mkCanvas 1190 1684);
     toDataURL _ _ := Throws (Thrown (Some "Tainted canvases may not be exported."));
     addImage _ _ := Returns tt;
     save _ _ := Returns tt |}.

(** The promise of [html2canvas] is rejected without a reason. *)
Definition silent_world : World :=
  {| html2canvas _ _ := Throws Nullish;
     toDataURL _ _ := Returns "data:image/png;base64,iVBORw0KGgo=";
     addImage _ _ := Returns tt;
     save _ _ := Returns tt |}.

Lemma generatePDF_meets_contract_witness :
  toasts (trace (generatePDF tainted_world (Some (Text ""))))
  = [report (export_contract tainted_world (Some (Text "")))]
  ∧ downloads (trace (generatePDF tainted_world (Some (Text ""))))
    = files (export_contract tainted_world (Some (Text "")))
  ∧ result (generatePDF tainted_world (Some (Text ""))) = Returns tt.
Proof. by apply generatePDF_meets_contract. Defined.

Lemma download_after_all_stages_witness :
  ∃ el c data,
    Some (Text "") = Some el
    ∧ html2canvas ideal_world el the_options = Returns c
    ∧ toDataURL ideal_world c "image/png" = Returns data
    ∧ addImage ideal_world (mkPdf the_pdf_options []) (fit c data) = Returns tt
    ∧ save ideal_world (mkPdf the_pdf_options [fit (mkCanvas 1190 1684)
                          "data:image/png;base64,iVBORw0KGgo="]) file_name = Returns tt
    ∧ file_name = file_name
    ∧ mkPdf the_pdf_options [fit (mkCanvas 1190 1684) "data:image/png;base64,iVBORw0KGgo="]
      = mkPdf the_pdf_options [fit c data]
    ∧ trace (generatePDF ideal_world (Some (Text "")))
      = [Html2canvas el the_options; ToDataURL c "image/png"; NewPDF the_pdf_options;
         AddImage (fit c data);
         Save (mkPdf the_pdf_options [fit (mkCanvas 1190 1684)
                 "data:image/png;base64,iVBORw0KGgo="]) file_name;
         Download file_name (mkPdf the_pdf_options [fit (mkCanvas 1190 1684)
                 "data:image/png;base64,iVBORw0KGgo="]);
         Toast (report (Exported file_name (mkPdf the_pdf_options
                 [fit (mkCanvas 1190 1684) "data:image/png;base64,iVBORw0KGgo="])))].
Proof.
  apply (download_after_all_stages ideal_world (Some (Text "")) file_name).
  apply list_elem_of_singleton. reflexivity.
Defined.

Lemma failure_is_reported_witness :
  downloads (trace (generatePDF tainted_world (Some (Text "")))) = []
  ∧ toasts (trace (generatePDF tainted_world (Some (Text ""))))
    = [{| title := "Error";
          description := "Failed to generate PDF: "
                         +:+ ToString (Some "Tainted canvases may not be exported.");
          status := "error"; duration := 5000; isClosable := true |}]
  ∧ ConsoleError "Error generating PDF:"
      (Thrown (Some "Tainted canvases may not be exported."))
    ∈ trace (generatePDF tainted_world (Some (Text "")))
  ∧ result (generatePDF tainted_world (Some (Text ""))) = Returns tt.
Proof. by apply failure_is_reported. Defined.

Lemma nullish_rejection_is_not_reported_witness :
  toasts (trace (generatePDF silent_world (Some (Text "")))) = []
  ∧ downloads (trace (generatePDF silent_world (Some (Text "")))) = []
  ∧ ConsoleError "Error generating PDF:" Nullish
    ∈ trace (generatePDF silent_world (Some (Text "")))
  ∧ result (generatePDF silent_world (Some (Text ""))) = Throws (CannotRead "message").
Proof. by apply nullish_rejection_is_not_reported. Defined.

End PdfExport.
