(* ===== verification/Placement.v ===== *)
(** * The placement of the image

    The handler places the bitmap at the origin, as wide as the page and
    as high as keeps its proportions (lines 137-140 of
    [src/PaystubGenerator.js]).  It computes with doubles: the width of
    the page is the double nearest 595.28, the product
    [canvas.height * imgWidth] is rounded, and so is the quotient by
    [canvas.width].  [exact_height] is the height of the specification,
    the same expression in exact arithmetic.  For a bitmap whose sides are
    positive and below [2^32] the height the handler computes is finite
    and within [2^-51] of the exact one, the three roundings together; for
    a bitmap of width zero it is [Infinity] or [NaN]; it is never
    negative. *)

From Stdlib Require Import QArith Qabs Qpower Lqa.
From S2P Require Import Prelude JsValue Double VDom Effect ExportPipeline.

#[local] Open Scope Q_scope.

Module Placement.
Import PdfExport Double.

(** The height that keeps the proportions of the bitmap exactly:
    [canvas.height * 595.28 / canvas.width]. *)
Definition exact_height (c : canvas) : number :=
  num_div (num_mul (of_Z (height c)) (Fin a4_width_pt)) (of_Z (width c)).

(** The sides of a bitmap are unsigned 32-bit integers. *)
Definition side_max : Z := 2 ^ 32.

(** The value of the double nearest 595.28. *)
Definition width_value : Q := 2618069127129989 # 4398046511104.

(** The relative error of three roundings. *)
Definition three_roundings : Q := 1 # 2 ^ 51.

(** ** Lemmas *)

Lemma is_zero_inject_Z z : is_zero (inject_Z z) = bool_decide (z = 0%Z).
Proof.
  rw /is_zero /Qeq_bool /=. case_bool_decide as Hz.
  - subst z. done.
  - apply Z.eqb_neq. lia.
Qed.

Lemma inject_Z_nonzero z : z ≠ 0%Z → ¬ inject_Z z == 0.
Proof. move=> Hz. rw /Qeq /=. lia. Qed.

Lemma getWidth_value doc : getWidth doc = Fin width_value.
Proof. by vm_compute. Qed.

Lemma width_value_within : within u width_value a4_width_pt.
Proof. by vm_compute. Qed.

Lemma side_Q z : (0 < z < side_max)%Z → 1 <= inject_Z z <= 4294967296.
Proof. move=> [Hl Hu]. rw /side_max in Hu. split; rw /Qle /=; lia. Qed.

Lemma inject_Z_nonneg z : (0 <= z)%Z → 0 <= inject_Z z.
Proof. rw /Qle /=. lia. Qed.

(** The exact height of a bitmap whose sides are not negative. *)
Lemma exact_height_value c :
  (0 < width c)%Z → (0 <= height c)%Z →
  exact_height c
  = Fin (Qred (Qred (inject_Z (height c) * a4_width_pt) / inject_Z (width c))).
Proof.
  move=> Hw Hh. have Hh0 := inject_Z_nonneg _ Hh.
  rw /exact_height /of_Z num_mul_nonneg // num_div_nonneg //.
  - rewrite -> Qred_correct. apply Qmult_le_0_compat; [done|by vm_compute].
  - rw is_zero_inject_Z bool_decide_false //. lia.
  - apply inject_Z_nonneg. lia.
Qed.

(** The exact height times the width of the bitmap is its height times
    the width of the page. *)
Lemma exact_height_proportional c :
  (0 < width c)%Z → (0 <= height c)%Z →
  ∃ q, exact_height c = Fin q
       ∧ q * inject_Z (width c) == inject_Z (height c) * a4_width_pt.
Proof.
  move=> Hw Hh. eexists. split; [by apply exact_height_value|].
  rewrite -> !Qred_correct. field. apply inject_Z_nonzero. lia.
Qed.

(** The oversampling factor of the capture does not show in the exact
    height: a bitmap [k] times as large in both directions has the same. *)
Lemma exact_height_scale_invariant c (k : Z) :
  (0 < width c)%Z → (0 <= height c)%Z → (0 < k)%Z →
  exact_height (mkCanvas (k * width c) (k * height c)) = exact_height c.
Proof.
  move=> Hw Hh Hk. rw !exact_height_value /=; [|lia..]. f_equal. apply Qred_complete.
  rewrite -> !Qred_correct, !inject_Z_mult. field.
  split; apply inject_Z_nonzero; lia.
Qed.

(** The product is in the normal range and is rounded to a number
    between 1 and [2^43]. *)
Lemma product_normal h : 1 <= h <= 4294967296 → normal (h * width_value).
Proof.
  move=> [Hh1 Hh2].
  apply (normal_between width_value (4294967296 * width_value));
    [by split; vm_compute..|]. rw /width_value. split; lra.
Qed.

Lemma product_rounds h :
  1 <= h <= 4294967296 →
  ∃ p, mul (Fin h) (Fin width_value) = Fin p
       ∧ within u p (h * width_value) ∧ 1 <= p <= 8796093022208.
Proof.
  move=> Hh. destruct (mul_accurate h width_value (product_normal h Hh)) as [p [Hp Hw]].
  exists p. destruct Hh as [Hh1 Hh2].
  destruct (within_range u p (h * width_value)) as [Hl Hu];
    [done|rw /width_value; lra|done|].
  rw /width_value in Hl Hu. split_and!; [done..|lra|lra].
Qed.

(** So is the quotient. *)
Lemma quotient_rounds p w :
  1 <= p <= 8796093022208 → 1 <= w <= 4294967296 →
  ∃ r, div (Fin p) (Fin w) = Fin r ∧ within u r (p / w).
Proof.
  move=> [Hp1 Hp2] [Hw1 Hw2]. apply div_accurate; [lra|].
  apply (normal_between (1 # 4294967296) 8796093022208); [by split; vm_compute..|].
  split; [apply Qle_shift_div_l|apply Qle_shift_div_r]; lra.
Qed.

(** The height the handler computes is the exact quotient up to three
    roundings. *)
Lemma img_height_within c data :
  (0 < width c < side_max)%Z → (0 < height c < side_max)%Z →
  ∃ r, img_height (fit c data) = Fin r
       ∧ within three_roundings r
           (inject_Z (height c) * a4_width_pt / inject_Z (width c)).
Proof.
  move=> /side_Q Hw /side_Q Hh.
  destruct (product_rounds _ Hh) as [p [Hp [Hwp Hpb]]].
  destruct (quotient_rounds p _ Hpb Hw) as [r [Hr Hwr]].
  exists r. split; first by rw /fit /= -/(getWidth (mkPdf the_pdf_options []))
                            getWidth_value /of_Z Hp Hr.
  have Hchain := within_trans u u _ _ _ u_nonneg Hwp
    (within_scale (inject_Z (height c)) _ _ _ ltac:(lra) width_value_within).
  have Hdiv := within_div _ (inject_Z (width c)) _ _ ltac:(lra) Hchain.
  have := within_trans u _ _ _ _ u_nonneg Hwr Hdiv.
  apply within_weaken; [by vm_compute|].
  apply Qle_shift_div_l; [lra|]. rw /a4_width_pt. lra.
Qed.

(** ** Theorems *)

(** C16: the bitmap is placed at the origin, as wide as the page, and
    as high as keeps its proportions, up to rounding.  For a bitmap whose
    sides are positive and below [2^32] the placed width is the double
    nearest 595.28, and the placed height is a finite number within
    [2^-51] of the height [q] for which [q] times the width of the bitmap
    is the height of the bitmap times 595.28. *)
Theorem fit_keeps_proportions c data :
  (0 < width c < side_max)%Z → (0 < height c < side_max)%Z →
  img_x (fit c data) = of_Z 0 ∧ img_y (fit c data) = of_Z 0
  ∧ (∃ wd, img_width (fit c data) = Fin wd ∧ within u wd a4_width_pt)
  ∧ ∃ r q, img_height (fit c data) = Fin r
           ∧ q * inject_Z (width c) == inject_Z (height c) * a4_width_pt
           ∧ within three_roundings r q.
Proof.
  move=> Hw Hh. split_and!; [done..| |].
  - exists width_value. split; [apply (getWidth_value (mkPdf the_pdf_options []))|].
    apply width_value_within.
  - destruct (img_height_within c data Hw Hh) as [r [Hr Hwr]].
    eexists r, _. split_and!; [done| |exact Hwr]. field. apply inject_Z_nonzero. lia.
Qed.

(** The oversampling of the capture does not show on the page.
    [html2canvas] is asked for a bitmap twice as large in both directions
    ([scale: 2]); the placement computed from it is, to the last bit, the
    placement computed from the bitmap at its own size. *)
Theorem oversampling_does_not_show c data :
  (0 < width c)%Z → (0 < height c)%Z → (scale the_options * height c < side_max)%Z →
  fit (mkCanvas (scale the_options * width c) (scale the_options * height c)) data
  = fit c data.
Proof.
  change (scale the_options) with 2%Z. rw /side_max. move=> Hw Hh Hmax.
  have Hh1 : 1 <= inject_Z (height c) <= 4294967296 by (apply side_Q; rw /side_max; lia).
  have Hh2 : 1 <= 2 * inject_Z (height c) <= 4294967296.
  { change 2 with (inject_Z 2). rw -inject_Z_mult. apply side_Q. rw /side_max. lia. }
  rw /fit. f_equal. cbn [width height].
  rw /of_Z !inject_Z_mult -/(getWidth (mkPdf the_pdf_options [])) getWidth_value.
  change (inject_Z 2) with 2. rw mul_double; [|by apply product_normal|].
  - destruct (product_rounds _ Hh1) as [p [-> [_ Hp]]]. rw num_mul_nonneg; [|lra..].
    apply div_double, inject_Z_nonzero. lia.
  - have Heq : 2 * (inject_Z (height c) * width_value)
               == 2 * inject_Z (height c) * width_value by ring.
    rewrite -> Heq. by apply product_normal.
Qed.

(** C40: a bitmap of width zero gets a height that is not a finite
    number, [Infinity] when it has a height and [NaN] when it has none;
    the handler passes it to [addImage] as it is. *)
Theorem fit_degenerate c data :
  width c = 0%Z → (0 <= height c < side_max)%Z →
  img_height (fit c data) = if bool_decide (height c = 0%Z) then NaN else Inf false.
Proof.
  move=> Hw Hh. rw /fit. cbn [img_height]. rw Hw. case_bool_decide as Hz.
  - by rw Hz.
  - destruct (product_rounds (inject_Z (height c))) as [p [Hp [_ Hr]]];
      [apply side_Q; lia|].
    rw -/(getWidth (mkPdf the_pdf_options [])) getWidth_value /of_Z Hp.
    apply div_positive_by_zero. lra.
Qed.

(** The height passed to [addImage] is never negative, and never
    negative zero: the sides of a bitmap are not negative, and the
    operators give the exclusive or of the signs of their operands. *)
Theorem height_is_not_negative c data :
  (0 <= width c)%Z → (0 <= height c)%Z → sign_bit (img_height (fit c data)) = false.
Proof.
  move=> Hw Hh. rw /fit. cbn [img_height].
  rw -/(getWidth (mkPdf the_pdf_options [])) getWidth_value.
  have Hs z : (0 <= z)%Z → sign_bit (of_Z z) = false.
  { move=> Hz. by apply is_neg_nonneg, inject_Z_nonneg. }
  destruct (div_sign (mul (of_Z (height c)) (Fin width_value)) (of_Z (width c)))
    as [-> | ->]; [done|]. rw (Hs (width c)) // xorb_false_r.
  destruct (mul_sign (of_Z (height c)) (Fin width_value)) as [-> | ->]; [done|].
  by rw (Hs (height c)).
Qed.

Lemma fit_keeps_proportions_witness :
  img_x (fit (mkCanvas 1190 1684) "") = of_Z 0
  ∧ img_y (fit (mkCanvas 1190 1684) "") = of_Z 0
  ∧ (∃ wd, img_width (fit (mkCanvas 1190 1684) "") = Fin wd ∧ within u wd a4_width_pt)
  ∧ ∃ r q, img_height (fit (mkCanvas 1190 1684) "") = Fin r
           ∧ q * inject_Z 1190 == inject_Z 1684 * a4_width_pt
           ∧ within three_roundings r q.
Proof. by apply (fit_keeps_proportions (mkCanvas 1190 1684) ""). Defined.

Lemma oversampling_does_not_show_witness :
  fit (mkCanvas (scale the_options * 595) (scale the_options * 842)) "" = fit (mkCanvas 595 842) "".
Proof. by apply (oversampling_does_not_show (mkCanvas 595 842) ""). Defined.

Lemma fit_degenerate_witness :
  img_height (fit (mkCanvas 0 100) "") = Inf false.
Proof. by apply (fit_degenerate (mkCanvas 0 100) ""). Defined.

(** The doubles of one bitmap: the width of the page and the height of an
    A4 bitmap of 1190 by 1684 pixels, as a browser computes them. *)
Example a4_bitmap :
  img_width (fit (mkCanvas 1190 1684) "") = Fin (2618069127129989 # 4398046511104)
  ∧ img_height (fit (mkCanvas 1190 1684) "")
    = Fin (1852448911801219 # 2199023255552).
Proof. by vm_compute. Qed.

(** In doubles an oversampling factor can show: the heights of a bitmap
    and of one five times as large differ in the last place. *)
Example oversampling_shows :
  img_height (fit (mkCanvas 1 3) "") = Fin (7854207381389967 # 4398046511104)
  ∧ img_height (fit (mkCanvas 5 15) "") = Fin (3927103690694983 # 2199023255552).
Proof. by vm_compute. Qed.

End Placement.
