(* ===== verification/LogoResolver.v ===== *)
(** * The logo resolver

    The effect that runs once after the first render (lines 63-79 of
    [src/PaystubGenerator.js]) creates an image element, asks for an
    anonymous cross-origin load, installs the two handlers and only then
    sets the source.  The browser later fires [onload] or [onerror], once.
    [onload] draws the image on a canvas and stores the canvas's PNG data
    URL in the state [logoDataUrl]; [onerror] logs and stores the empty
    string.

    The file holds the three functions as computations, the life cycle of
    the resolver as a step relation, and the invariant that ties the life
    cycle to what the renderer shows. *)

From S2P Require Import Prelude JsValue DateFormat VDom Render Effect.

#[local] Open Scope Z_scope.

Module Logo.

Definition LOGO_URL : string := "/images/evmos-dao-logo-white.png".

(** What is thrown inside a handler. *)
Record error : Type := mkError { message : string }.

Inductive event : Type :=
| NewImage
| SetCrossOrigin (v : string)
| SetOnload
| SetOnerror
| SetSrc (url : string)
| CreateCanvas
| SetCanvasSize (width height : Z)
| GetContext (kind : string)
| DrawImage (x y : Z)
| ToDataURL (type : string)
| ConsoleError (msg : string)
| SetLogoDataUrl (url : string).

(** The image as [onload] reads it. *)
Record image : Type := mkImage { width : Z; height : Z }.

(** The outcomes of the calls [onload] makes on the canvas. *)
Record World : Type := mkWorld {
  (** [ctx.drawImage] on the context [getContext("2d")] gave; it throws
      when there is no context. *)
  drawImage : image → outcome error unit;
  toDataURL : image → string → outcome error string;
}.

(** ** The three functions *)

(** The body of the effect. *)
Definition effect : io event error unit :=
  _ ← emit NewImage;
  _ ← emit (SetCrossOrigin "anonymous");
  _ ← emit SetOnload;
  _ ← emit SetOnerror;
  emit (SetSrc LOGO_URL).

Definition onload (wd : World) (img : image) : io event error unit :=
  _ ← emit CreateCanvas;
  _ ← emit (SetCanvasSize (width img) (height img));
  _ ← emit (GetContext "2d");
  _ ← call (DrawImage 0 0) (drawImage wd img);
  url ← call (ToDataURL "image/png") (toDataURL wd img "image/png");
  emit (SetLogoDataUrl url).

Definition onerror : io event error unit :=
  _ ← emit (ConsoleError "Failed to load the logo");
  emit (SetLogoDataUrl "").

(** The state [logoDataUrl] after the setter calls of a trace. *)
Definition apply_setters (l : list event) (logoDataUrl : string) : string :=
  foldl (λ s e, match e with SetLogoDataUrl url => url | _ => s end) logoDataUrl l.

(** ** The life cycle *)

Inductive phase : Type := Idle | Loading | Loaded | Failed.

#[export] Instance phase_eq_dec : EqDecision phase.
Proof. solve_decision. Defined.

Record state : Type := mkState {
  logoDataUrl : string;
  current : phase;
  log : list event;
}.

(** [useState("")], before the effect has run. *)
Definition initial : state := mkState "" Idle [].

Definition run (m : io event error unit) (st : state) (next : phase) : state :=
  mkState (apply_setters (trace m) (logoDataUrl st)) next (log st ++ trace m).

Inductive step : state → state → Prop :=
| step_mount st :
    current st = Idle → step st (run effect st Loading)
| step_load st wd img :
    current st = Loading → step st (run (onload wd img) st Loaded)
| step_error st :
    current st = Loading → step st (run onerror st Failed).

Definition reachable : state → Prop := rtc step initial.

(** The steps the resolver still has before it: two before the effect has
    run, one while the image is being fetched, none once it has loaded or
    failed. *)
Definition remaining (p : phase) : nat :=
  match p with
  | Idle => 2
  | Loading => 1
  | Loaded | Failed => 0
  end.

(** ** Theorems *)

Lemma effect_trace :
  trace effect = [NewImage; SetCrossOrigin "anonymous"; SetOnload; SetOnerror;
                  SetSrc LOGO_URL].
Proof. done. Qed.

(** The effect asks for the anonymous cross-origin mode and installs
    both handlers before it sets the source, which is what starts the
    load. *)
Theorem effect_sets_source_last :
  ∃ before, trace effect = before ++ [SetSrc LOGO_URL]
            ∧ SetCrossOrigin "anonymous" ∈ before
            ∧ SetOnload ∈ before ∧ SetOnerror ∈ before
            ∧ ∀ url, SetSrc url ∉ before.
Proof.
  exists [NewImage; SetCrossOrigin "anonymous"; SetOnload; SetOnerror].
  split_and!; [done|set_solver..].
Qed.

Lemma onerror_state st : logoDataUrl (run onerror st Failed) = "".
Proof. done. Qed.

(** The data URL after [onload]: the one the canvas gave, or the previous
    state when a call threw. *)
Lemma onload_state wd img st :
  logoDataUrl (run (onload wd img) st Loaded) =
    match drawImage wd img, toDataURL wd img "image/png" with
    | Returns _, Returns url => url
    | _, _ => logoDataUrl st
    end.
Proof.
  rw /run /onload /=. destruct (drawImage wd img) as [[]|e]; [|done].
  by destruct (toDataURL wd img "image/png") as [url|e].
Qed.

(** The invariant: as long as the image has not loaded, the state holds the
    empty string. *)
Definition pending_is_blank (st : state) : Prop :=
  current st ≠ Loaded → logoDataUrl st = "".

Lemma step_pending_is_blank st st' :
  step st st' → pending_is_blank st → pending_is_blank st'.
Proof.
  move=> Hstep Hinv. destruct Hstep as [st Hc|st wd img Hc|st Hc]; rw /pending_is_blank //=.
  move=> _. apply Hinv. by rw Hc.
Qed.

Lemma reachable_pending_is_blank st : reachable st → pending_is_blank st.
Proof.
  move=> Hr. pattern st. eapply (rtc_ind_r (λ s, pending_is_blank s)); [..|exact Hr];
    first done.
  move=> s s' _ Hstep IH. by eapply step_pending_is_blank.
Qed.

(** C33: in every reachable state in which the image has not loaded
    (the effect has not run, the load is in flight, or it failed) the
    renderer shows the placeholder glyph. *)
Theorem pending_or_failed_shows_placeholder st :
  reachable st → current st ≠ Loaded → logo (logoDataUrl st) = placeholder_glyph.
Proof. move=> Hr Hc. by rw (reachable_pending_is_blank st Hr Hc). Qed.

(** The resolver settles once: from [Loaded] and from [Failed] there
    is no step, so a failed load is never retried. *)
Theorem settled_is_final st st' :
  current st = Loaded ∨ current st = Failed → ¬ step st st'.
Proof. move=> Hc Hstep. destruct Hstep; destruct Hc; congruence. Qed.

(** Every step uses up one of the steps that remain. *)
Lemma step_remaining st st' :
  step st st' → (remaining (current st') < remaining (current st))%nat.
Proof. destruct 1 as [st Hc|st wd img Hc|st Hc]; rw /= Hc /=; lia. Qed.


(** When [onload] runs without a throw, the state holds the data
    URL the canvas gave and, if that is not empty, the renderer shows it as
    the image's source. *)
Theorem loaded_shows_image st wd img url :
  drawImage wd img = Returns tt → toDataURL wd img "image/png" = Returns url →
  url ≠ "" →
  let st' := run (onload wd img) st Loaded in
  logoDataUrl st' = url
  ∧ get_attr "src" (logo (logoDataUrl st')) = Some (PExpr (VString url)).
Proof.
  move=> Hd Ht Hu. cbv zeta. rw onload_state Hd Ht. split; [done|]. by rw logo_nonempty.
Qed.

(** ** A world to run the model in *)

Definition good_world : World :=
  {| drawImage _ := Returns tt;
     toDataURL _ _ := Returns "data:image/png;base64,iVBORw0KGgo=" |}.

Definition loading : state := run effect initial Loading.

Lemma loading_reachable : reachable loading.
Proof. apply rtc_once. by apply step_mount. Qed.

Lemma pending_or_failed_shows_placeholder_witness :
  logo (logoDataUrl loading) = placeholder_glyph.
Proof. by apply pending_or_failed_shows_placeholder; [apply loading_reachable|]. Defined.

Lemma settled_is_final_witness :
  current (run onerror loading Failed) = Failed
  ∧ ¬ step (run onerror loading Failed) initial.
Proof. split; [done|]. apply settled_is_final. by right. Defined.

Lemma loaded_shows_image_witness :
  let st' := run (onload good_world (mkImage 512 128)) loading Loaded in
  logoDataUrl st' = "data:image/png;base64,iVBORw0KGgo="
  ∧ get_attr "src" (logo (logoDataUrl st'))
    = Some (PExpr (VString "data:image/png;base64,iVBORw0KGgo=")).
Proof. by apply loaded_shows_image. Defined.

End Logo.
