(* ===== verification/Spec.v ===== *)
(** * The specification as a machine

    What the component is meant to do, written as a transition system of
    its own, without hooks, promises or traces: a paystub record, a
    resolved logo that is pending, available or unavailable, whether the
    layout has been rendered, the exports in progress, each with the layout
    it captured when it began, and what the user has been given so far:
    notifications, in the order they were shown, and downloaded files.

    The steps are the operations of the specification: the first render,
    "set field [name] to [value]", the logo resolving or failing, an export
    beginning, an export ending with the outcome of its contract, and an
    export attempted before any layout exists.  [sequential] is the
    machine in which an export begins only after the prior one has
    resolved, as the concurrency model of the specification has it.

    The layout is a parameter: the machine is the specification of any
    renderer.  [Refinement] instantiates it with the preview of [Render]
    and shows that the component refines the machine. *)

From S2P Require Import Prelude Simulation JsValue RecordModel VDom Effect.
From S2P Require Import ExportPipeline.

Module Spec.
Import PdfExport.

(** The result of the logo resolver, as the renderer sees it. *)
Inductive ResolvedLogo : Type :=
| Pending
| Available (image : string)
| Unavailable.

#[export] Instance ResolvedLogo_eq_dec : EqDecision ResolvedLogo.
Proof. solve_decision. Defined.

Record State : Type := mkState {
  record : gmap string string;
  logo : ResolvedLogo;
  rendered : bool;
  (** The layouts captured by the exports that have begun and not ended. *)
  exporting : list node;
  notifications : list toast;
  downloads : list (string * pdf);
}.

(** All fields blank, the logo pending, nothing rendered. *)
Definition initial : State :=
  mkState Record.initialPaystubData Pending false [] [] [].

(** ** The operations *)

Definition render (st : State) : State :=
  mkState (record st) (logo st) true (exporting st) (notifications st) (downloads st).

Definition set_field (name value : string) (st : State) : State :=
  mkState (<[name := value]> (record st)) (logo st) (rendered st) (exporting st)
    (notifications st) (downloads st).

Definition resolve (l : ResolvedLogo) (st : State) : State :=
  mkState (record st) l (rendered st) (exporting st) (notifications st)
    (downloads st).

Definition begin (snapshot : node) (st : State) : State :=
  mkState (record st) (logo st) (rendered st) (exporting st ++ [snapshot])
    (notifications st) (downloads st).

(** The user is told of an outcome and given its files. *)
Definition deliver (o : export_outcome) (st : State) : State :=
  mkState (record st) (logo st) (rendered st) (exporting st)
    (notifications st ++ [report o]) (downloads st ++ files o).

Definition finish (i : nat) (o : export_outcome) (st : State) : State :=
  deliver o
    (mkState (record st) (logo st) (rendered st) (delete i (exporting st))
       (notifications st) (downloads st)).

(** The notifications of a success. *)
Definition successes (l : list toast) : list toast :=
  filter (λ t, status t = "success") l.

Section machine.
Context (layout : gmap string string → ResolvedLogo → node).

Inductive step : State → State → Prop :=
| step_render st :
    rendered st = false →
    step st (render st)
| step_set_field st name value :
    rendered st = true → name ∈ Record.fields →
    step st (set_field name value st)
| step_resolve st image :
    rendered st = true → logo st = Pending → image ≠ "" →
    step st (resolve (Available image) st)
| step_fail st :
    rendered st = true → logo st = Pending →
    step st (resolve Unavailable st)
| step_missing st :
    rendered st = false →
    step st (deliver PreconditionFailed st)
| step_begin st :
    rendered st = true →
    step st (begin (layout (record st) (logo st)) st)
| step_end st wd i snapshot :
    exporting st !! i = Some snapshot →
    step st (finish i (export_contract wd (Some snapshot)) st).

Definition system : Sys.System := Sys.mkSystem State initial step.

(** An export begins only when none is in progress. *)
Definition one_at_a_time (st st' : State) : Prop :=
  (length (exporting st') ≤ 1)%nat.

Definition sequential : Sys.System := Sys.constrain system one_at_a_time.

(** ** What the machine guarantees *)

(** The record is flat; what is downloaded are the files of the
    successes, one each, under the fixed name; an export in progress holds
    a layout of the machine. *)
Record good (st : State) : Prop := mkGood {
  good_flat : Record.flat (record st);
  good_files : Forall (λ f, f.1 = file_name) (downloads st);
  good_count : length (downloads st) = length (successes (notifications st));
  good_snapshots : Forall (λ el, ∃ d l, el = layout d l) (exporting st);
}.

Lemma successes_app l1 l2 : successes (l1 ++ l2) = successes l1 ++ successes l2.
Proof. apply filter_app. Qed.

(** The file of a successful export has the fixed name. *)
Lemma export_contract_exported wd cur name doc :
  export_contract wd cur = Exported name doc → name = file_name.
Proof. rw /export_contract. repeat case_match; try done. by move=> [<- _]. Qed.

Lemma deliver_good o st :
  (∀ name doc, o = Exported name doc → name = file_name) →
  good st → good (deliver o st).
Proof.
  move=> Ho [Hflat Hfiles Hcount Hsnap]. split; rw //=.
  - apply Forall_app. split; [done|]. destruct o as [| |name doc]; rw /=; [done..|].
    apply Forall_singleton. by eapply Ho.
  - rw successes_app !length_app Hcount. by destruct o.
Qed.

Lemma initial_good : good initial.
Proof. split; rw /=; [side|done..]. Qed.

Lemma step_good st st' : step st st' → good st → good st'.
Proof.
  destruct 1 as [st Hr|st name value Hr Hn|st image Hr Hl Hi|st Hr Hl|st Hr|st Hr
                 |st wd i snapshot Hi].
  1,3,4: by move=> [? ? ? ?].
  - move=> [Hflat ? ? ?]. split; rw //=.
    by apply (Record.handleInputChange_flat (Record.mkChange name value)).
  - by apply deliver_good.
  - move=> [? ? ? Hsnap]. split; rw //=. apply Forall_app. split; [done|].
    apply Forall_singleton. by eexists _, _.
  - move=> [? ? ? Hsnap]. apply deliver_good; [apply export_contract_exported|].
    split; rw //=. by apply Forall_delete.
Qed.

Lemma machine_good : Sys.invariant system good.
Proof.
  apply Sys.invariant_ind; [apply initial_good|].
  move=> s s' _ Hg Hs. by eapply step_good.
Qed.

(** The machine tells the user of every export that ends: a step that
    leaves fewer exports in progress has added a notification. *)
Lemma step_end_notifies st st' :
  step st st' → (length (exporting st') < length (exporting st))%nat →
  length (notifications st') = S (length (notifications st)).
Proof.
  destruct 1 as [st Hr|st name value Hr Hn|st image Hr Hl Hi|st Hr Hl|st Hr|st Hr
                 |st wd i snapshot Hi]; rw /= ?length_app /=; lia.
Qed.

(** In the sequential machine at most one export is in progress. *)
Lemma sequential_one_export :
  Sys.invariant sequential (λ st, (length (exporting st) ≤ 1)%nat).
Proof. apply Sys.constrain_invariant; [rw /=; lia|done]. Qed.

End machine.

End Spec.
