(* ===== verification/App.v ===== *)
(** * The component

    [PaystubGenerator] (lines 47-472 of [src/PaystubGenerator.js]) as a
    transition system.  Its state is what the hooks hold: the paystub record
    and the logo data URL ([useState]), and the ref ([useRef]), which is
    attached when the first render is committed; and what is on its way:
    the runs of [generatePDF] that are suspended at their [await].  Its
    transitions are what can happen to a mounted component: the first
    commit, which also runs the logo effect; a change event from one of the
    inputs on screen; the load or the failure of the logo; a click on the
    button; the settlement of a promise a run is waiting for.

    The tree on screen is a function of the state ([view]), the ref points
    into that tree ([paystubRef_current]), change events come from inputs of
    that tree, and a click runs [generatePDF] on what the ref points to.
    Runs are numbered by their clicks, and every call a run makes is logged
    under its number, so that the order of the calls of different runs is
    part of the state.  The theorems are invariants of the reachable
    states. *)

From S2P Require Import Prelude JsValue RecordModel DateFormat VDom Render.
From S2P Require Import Effect ExportPipeline LogoResolver.

Module App.

(** A run of [generatePDF] that is suspended at the [await]: its number,
    the element given to [html2canvas], and its events so far. *)
Record Pending : Type := mkPending {
  pending_id : nat;
  pending_element : node;
  pending_events : list PdfExport.event;
}.

(** A run of [generatePDF] that has ended: its number, the element the
    ref pointed to at the click, and its events. *)
Record Export : Type := mkExport {
  export_id : nat;
  export_target : option node;
  export_events : list PdfExport.event;
}.

Record State : Type := mkState {
  paystubData : gmap string string;
  logo : Logo.state;
  mounted : bool;
  (** The number of clicks so far. *)
  clicks : nat;
  (** The suspended runs, oldest first. *)
  inflight : list Pending;
  (** The runs that have ended, in the order they ended. *)
  exports : list Export;
  (** Every event of every run, in the order they happened, each under the
      number of its run. *)
  log : list (nat * PdfExport.event);
}.

(** The events [l] as events of run [k]. *)
Definition tag (k : nat) (l : list PdfExport.event) : list (nat * PdfExport.event) :=
  pair k <$> l.

Section app.
Context `{Host}.

(** The state of the hooks during the first render. *)
Definition initial : State :=
  mkState Record.initialPaystubData Logo.initial false 0 [] [] [].

(** The state after the first commit: the ref is attached and the logo
    is being fetched. *)
Definition mounted_state : State :=
  mkState Record.initialPaystubData Logo.loading true 0 [] [] [].

(** The tree on screen. *)
Definition view (st : State) : node :=
  render (paystubData st) (Logo.logoDataUrl (logo st)).

(** [paystubRef.current] *)
Definition paystubRef_current (st : State) : option node :=
  if mounted st then ref_target (view st) else None.

(** The first commit: the ref is attached and the effect runs. *)
Definition mount (lg : Logo.state) (st : State) : State :=
  mkState (paystubData st) lg true (clicks st) (inflight st) (exports st) (log st).

(** The logo resolver takes a step: [setLogoDataUrl] is called. *)
Definition load (lg : Logo.state) (st : State) : State :=
  mkState (paystubData st) lg (mounted st) (clicks st) (inflight st) (exports st)
    (log st).

(** A click on the button ([onClick={generatePDF}], line 274): the handler
    runs up to its [await]. *)
Definition click (st : State) : State :=
  let k := clicks st in
  match PdfExport.generatePDF_click (paystubRef_current st) with
  | (l, None) =>
    mkState (paystubData st) (logo st) (mounted st) (S k) (inflight st)
      (exports st ++ [mkExport k None l]) (log st ++ tag k l)
  | (l, Some el) =>
    mkState (paystubData st) (logo st) (mounted st) (S k)
      (inflight st ++ [mkPending k el l]) (exports st) (log st ++ tag k l)
  end.

(** The promise of the [i]-th suspended run settles: the run continues
    with what [html2canvas] made of its element, and returns. *)
Definition settle (wd : PdfExport.World) (i : nat) (st : State) : State :=
  match inflight st !! i with
  | None => st
  | Some (mkPending k el l) =>
    let promise := PdfExport.html2canvas wd el PdfExport.the_options in
    let rest := trace (PdfExport.generatePDF_settle wd promise) in
    mkState (paystubData st) (logo st) (mounted st) (clicks st)
      (delete i (inflight st))
      (exports st ++ [mkExport k (Some el) (l ++ rest)]) (log st ++ tag k rest)
  end.

(** A change event of an input ([onChange={handleInputChange}]). *)
Definition change (e : Record.ChangeEvent) (st : State) : State :=
  mkState (Record.handleInputChange e (paystubData st)) (logo st) (mounted st)
    (clicks st) (inflight st) (exports st) (log st).

(** What can happen to the component.  Events are handled one at a time,
    each to completion or to an [await]; promises settle in any order. *)
Inductive step : State → State → Prop :=
| step_mount st lg :
    mounted st = false → Logo.step (logo st) lg →
    step st (mount lg st)
| step_change st e :
    mounted st = true →
    Record.target_name e ∈ (inputs (view st)).*1 →
    step st (change e st)
| step_logo st lg :
    mounted st = true → Logo.step (logo st) lg →
    step st (load lg st)
| step_click st :
    mounted st = true →
    step st (click st)
| step_settle st wd i :
    is_Some (inflight st !! i) →
    step st (settle wd i st).

Definition reachable : State → Prop := rtc step initial.

(** ** Invariants *)

(** A suspended run was started on a preview and has called [html2canvas]
    on it, and nothing else. *)
Definition suspended (p : Pending) : Prop :=
  ∃ d l, pending_element p = preview d l
         ∧ pending_events p = [PdfExport.Html2canvas (preview d l) PdfExport.the_options].

(** A finished run had a preview behind the ref, and its events are those
    of one uninterrupted run of the handler on that preview. *)
Definition finished (r : Export) : Prop :=
  ∃ d l wd, export_target r = Some (preview d l)
            ∧ export_events r = trace (PdfExport.generatePDF wd (export_target r)).

Record invariant (st : State) : Prop := mkInvariant {
  (** The record has the eight fields of the form and no other property. *)
  inv_flat : Record.flat (paystubData st);
  (** The logo resolver is in a state of its own life cycle. *)
  inv_logo : Logo.reachable (logo st);
  (** The effect runs at the first commit and not before. *)
  inv_idle : mounted st = false ↔ Logo.current (logo st) = Logo.Idle;
  inv_inflight : Forall suspended (inflight st);
  inv_exports : Forall finished (exports st);
}.

(** Induction on the steps that lead to a state. *)
Lemma reachable_ind (P : State → Prop) :
  P initial → (∀ st st', reachable st → step st st' → P st → P st') →
  ∀ st, reachable st → P st.
Proof. move=> H0 HS st Hr. by eapply (rtc_ind_r P); [..|exact Hr]. Qed.

Lemma view_inputs st : (inputs (view st)).*1 = Record.fields.
Proof. by rw /view inputs_render. Qed.

Lemma ref_after_mount st :
  mounted st = true →
  paystubRef_current st
  = Some (preview (paystubData st) (Logo.logoDataUrl (logo st))).
Proof. move=> Hm. rw /paystubRef_current Hm. apply ref_target_render. Qed.

(** After the first commit a click suspends a run on the preview of the
    moment. *)
Lemma click_mounted st :
  mounted st = true →
  click st
  = let el := preview (paystubData st) (Logo.logoDataUrl (logo st)) in
    let l := [PdfExport.Html2canvas el PdfExport.the_options] in
    mkState (paystubData st) (logo st) (mounted st) (S (clicks st))
      (inflight st ++ [mkPending (clicks st) el l]) (exports st)
      (log st ++ tag (clicks st) l).
Proof. move=> Hm. by rw /click ref_after_mount. Qed.

(** A suspended run that settles is, with the turn of its click, one run
    of the handler. *)
Lemma settle_finished wd p :
  suspended p →
  finished (mkExport (pending_id p) (Some (pending_element p))
              (pending_events p
               ++ trace (PdfExport.generatePDF_settle wd
                           (PdfExport.html2canvas wd (pending_element p)
                              PdfExport.the_options)))).
Proof.
  destruct p as [k el l]. move=> [d [lg /= [-> ->]]]. exists d, lg, wd.
  split; [done|]. by rw PdfExport.generatePDF_resumed emit_bind.
Qed.

Lemma mounted_reachable : reachable mounted_state.
Proof. apply rtc_once. by apply (step_mount initial Logo.loading), Logo.step_mount. Qed.

Lemma initial_invariant : invariant initial.
Proof. split; [side|apply rtc_refl|done..]. Qed.

Lemma logo_step_not_idle lg lg' : Logo.step lg lg' → Logo.current lg' ≠ Logo.Idle.
Proof. by destruct 1. Qed.

Lemma click_invariant st : mounted st = true → invariant st → invariant (click st).
Proof.
  move=> Hm [Hflat Hlogo Hidle Hin Hexp]. rw click_mounted //.
  split; rw //=. apply Forall_app. split; [done|]. apply Forall_singleton.
  by eexists _, _.
Qed.

Lemma settle_invariant st wd i : invariant st → invariant (settle wd i st).
Proof.
  move=> [Hflat Hlogo Hidle Hin Hexp]. rw /settle.
  destruct (inflight st !! i) as [[k el l]|] eqn:Hi; [|done].
  split; rw //=.
  - by apply Forall_delete.
  - apply Forall_app. split; [done|]. apply Forall_singleton.
    apply (settle_finished wd (mkPending k el l)). by eapply Forall_lookup_1.
Qed.

Lemma step_invariant st st' : step st st' → invariant st → invariant st'.
Proof.
  move=> Hstep Hinv.
  destruct Hstep as [st lg Hm Hl|st e Hm He|st lg Hm Hl|st Hm|st wd i Hi];
    [| | |by apply click_invariant|by apply settle_invariant].
  all: destruct Hinv as [Hflat Hlogo Hidle Hin Hexp]; split; rw /=; try done.
  - by eapply rtc_r.
  - split; [done|]. move=> Hi. by apply logo_step_not_idle in Hl.
  - rw view_inputs in He. side.
  - by eapply rtc_r.
  - rw Hm. split; [done|]. move=> Hi. by apply logo_step_not_idle in Hl.
Qed.

Lemma reachable_invariant st : reachable st → invariant st.
Proof.
  apply reachable_ind; first apply initial_invariant.
  move=> s s' _ Hstep IH. by eapply step_invariant.
Qed.

(** In every reachable state the record has exactly the eight
    fields of the form: change events come from the inputs on screen, and
    those are named after the fields. *)
Theorem reachable_record_is_flat st :
  reachable st → Record.flat (paystubData st) ∧ Record.complete (paystubData st).
Proof.
  move=> /reachable_invariant [Hflat _ _ _ _]. split; [done|].
  rw /Record.complete. apply Forall_forall=> k Hk.
  apply elem_of_dom. rw Hflat. by apply elem_of_list_to_set.
Qed.

(** Whatever happened between a click and the settlement of
    its promise (edits, the logo, other clicks, other settlements), the
    events of a finished export are those of one uninterrupted run of
    [generatePDF] on the element that was behind the ref at the click. *)
Theorem finished_export_is_one_run st :
  reachable st →
  Forall (λ r, ∃ wd, export_events r
                     = trace (PdfExport.generatePDF wd (export_target r)))
         (exports st).
Proof.
  move=> /reachable_invariant [_ _ _ _ Hexp]. eapply Forall_impl; [exact Hexp|].
  move=> r [d [lg [wd [_ Hr]]]]. by exists wd.
Qed.

(** C31: in every reachable state, every run of [generatePDF] so far
    had the preview behind the ref: the branch for a missing target was
    never taken, and the run captured that preview and nothing else. *)
Theorem exports_never_miss_target st :
  reachable st →
  Forall (λ r, PdfExport.toasts (export_events r)
               ≠ [PdfExport.report PdfExport.PreconditionFailed]
               ∧ ∃ d l, PdfExport.captures (export_events r) = [preview d l])
         (exports st).
Proof.
  move=> /reachable_invariant [_ _ _ _ Hexp]. eapply Forall_impl; [exact Hexp|].
  move=> [k target l] [d [lg [wd /= [-> ->]]]]. split.
  - apply (PdfExport.run_target wd (preview d lg)), PdfExport.generatePDF_run.
  - exists d, lg. apply (PdfExport.run_captures wd), PdfExport.generatePDF_run.
Qed.

(** A click that follows an edit captures the preview of the
    edited record. *)
Theorem click_after_change_captures_edit st e :
  mounted st = true →
  pending_element <$> last (inflight (click (change e st)))
  = Some (preview (Record.handleInputChange e (paystubData st))
                  (Logo.logoDataUrl (logo st))).
Proof. move=> Hm. by rw click_mounted // last_snoc. Qed.

(** An export that is started while the logo has not loaded, or
    after its load has failed, captures the preview with the placeholder
    glyph in its header: the export does not wait for the logo. *)
Theorem export_before_logo_captures_placeholder st :
  reachable st → mounted st = true → Logo.current (logo st) ≠ Logo.Loaded →
  pending_element <$> last (inflight (click st))
  = Some (preview (paystubData st) "")
  ∧ Render.logo (Logo.logoDataUrl (logo st)) = placeholder_glyph.
Proof.
  move=> /reachable_invariant [_ Hlogo _ _ _] Hm Hc.
  rw click_mounted // last_snoc /= (Logo.reachable_pending_is_blank _ Hlogo Hc).
  by rw logo_empty.
Qed.

(** An edit made while a run is suspended does not reach
    that run: when its promise settles, the export is the one of the element
    given to [html2canvas] at the click, while the screen shows the edited
    record. *)
Theorem edit_during_export_is_not_captured st e wd :
  mounted st = true → inflight st = [] →
  let st' := settle wd 0 (change e (click st)) in
  export_target <$> last (exports st')
  = Some (Some (preview (paystubData st) (Logo.logoDataUrl (logo st))))
  ∧ view st' = render (Record.handleInputChange e (paystubData st))
                      (Logo.logoDataUrl (logo st)).
Proof.
  move=> Hm Hin. by rw /= click_mounted // /settle /change /= Hin /= last_snoc.
Qed.

End app.

(** ** A session to run the model on *)

Section demo.
#[local] Existing Instance tokyo.

Definition jane : Record.ChangeEvent := Record.mkChange "name" "Jane Doe".

(** An edit, a click, and the export runs to its end. *)
Definition demo : State :=
  settle PdfExport.ideal_world 0 (click (change jane mounted_state)).

(** A click, an edit during the export, and a second click before the
    first export has finished. *)
Definition overlap : State := click (change jane (click mounted_state)).

Lemma jane_on_screen st : Record.target_name jane ∈ (inputs (view st)).*1.
Proof. rw view_inputs. set_solver. Qed.

Lemma demo_reachable : reachable demo.
Proof.
  eapply rtc_trans; [apply mounted_reachable|].
  eapply rtc_l; [apply (step_change mounted_state jane); [done|apply jane_on_screen]|].
  eapply rtc_l; [by apply step_click|]. apply rtc_once. by apply step_settle.
Qed.

Lemma overlap_reachable : reachable overlap.
Proof.
  eapply rtc_trans; [apply mounted_reachable|].
  eapply rtc_l; [by apply step_click|].
  eapply rtc_l; [apply step_change; [done|apply jane_on_screen]|].
  apply rtc_once. by apply step_click.
Qed.

(** Nothing keeps a second export from starting while the
    first is suspended: a state is reachable in which two rasterisations
    are in flight, of two different records. *)
Theorem exports_can_overlap :
  ∃ st d1 d2 l,
    reachable st ∧ pending_element <$> inflight st = [preview d1 l; preview d2 l]
    ∧ d1 !! "name" ≠ d2 !! "name".
Proof.
  exists overlap, Record.initialPaystubData,
    (Record.handleInputChange jane Record.initialPaystubData), "".
  split; [apply overlap_reachable|]. by split.
Qed.

Lemma reachable_record_is_flat_witness :
  Record.flat (paystubData demo) ∧ Record.complete (paystubData demo).
Proof. apply reachable_record_is_flat, demo_reachable. Defined.

Lemma finished_export_is_one_run_witness :
  Forall (λ r, ∃ wd, export_events r
                     = trace (PdfExport.generatePDF wd (export_target r)))
         (exports demo).
Proof. apply finished_export_is_one_run, demo_reachable. Defined.

Lemma exports_never_miss_target_witness :
  Forall (λ r, PdfExport.toasts (export_events r)
               ≠ [PdfExport.report PdfExport.PreconditionFailed]
               ∧ ∃ d l, PdfExport.captures (export_events r) = [preview d l])
         (exports demo).
Proof. apply exports_never_miss_target, demo_reachable. Defined.

Lemma click_after_change_captures_edit_witness :
  pending_element <$> last (inflight (click (change jane mounted_state)))
  = Some (preview (Record.handleInputChange jane (paystubData mounted_state))
                  (Logo.logoDataUrl (logo mounted_state))).
Proof. by apply click_after_change_captures_edit. Defined.

Lemma edit_during_export_is_not_captured_witness :
  let st' := settle PdfExport.ideal_world 0 (change jane (click mounted_state)) in
  export_target <$> last (exports st')
  = Some (Some (preview (paystubData mounted_state) (Logo.logoDataUrl (logo mounted_state))))
  ∧ view st' = render (Record.handleInputChange jane (paystubData mounted_state))
                      (Logo.logoDataUrl (logo mounted_state)).
Proof. by apply edit_during_export_is_not_captured. Defined.

End demo.

End App.
