(* ===== verification/Interleaving.v ===== *)
(** * Runs of the export that overlap

    A run of [generatePDF] (lines 113-160 of [src/PaystubGenerator.js])
    gives up control at its [await]; until its promise settles the
    component handles other events, other clicks among them.  The calls of
    the runs that overlap are interleaved in time.  [App] records them in
    one log, each call under the number of its run; this file shows that
    the log is a shuffle of uninterrupted runs: what one run contributes
    to it ([project]) is what the handler does when it is run alone on
    the element it was given, that every click is accounted for by one run,
    suspended or finished, and that every finished run has shown one
    notification, unless what it caught was [null] or [undefined].  The
    order of the notifications of different runs is not the order of the
    clicks ([toasts_out_of_order]). *)

From S2P Require Import Prelude JsValue RecordModel DateFormat VDom Render.
From S2P Require Import Effect ExportPipeline LogoResolver App.

Module Interleaving.
Import App.

(** The events of run [k] in a log, in the order of the log. *)
Definition project (k : nat) (lg : list (nat * PdfExport.event))
  : list PdfExport.event :=
  snd <$> filter (λ p, p.1 = k) lg.

(** The numbers of the runs of a state, the suspended before the
    finished. *)
Definition ids (st : State) : list nat :=
  (pending_id <$> inflight st) ++ (export_id <$> exports st).

(** The notifications of a log, each with the number of its run, in the
    order they were shown. *)
Definition shown (lg : list (nat * PdfExport.event)) : list (nat * PdfExport.toast) :=
  omap (λ p, match p.2 with PdfExport.Toast t => Some (p.1, t) | _ => None end) lg.

(** A finished run that has told the user how it ended: it has not logged
    [null] or [undefined] as its error. *)
Definition reported (r : Export) : Prop :=
  existsb PdfExport.nullish_caught (export_events r) = false.

(** The log accounts for the runs: every click has its run, the log holds
    no call of a run that was not started, what it holds of a run is what
    the run has done so far, and the notifications in it are those of the
    finished runs that reported, one each. *)
Record accounted (st : State) : Prop := mkAccounted {
  acc_ids : ids st ≡ₚ seq 0 (clicks st);
  acc_started : Forall (λ p, (p.1 < clicks st)%nat) (log st);
  acc_inflight :
    Forall (λ p, project (pending_id p) (log st) = pending_events p) (inflight st);
  acc_exports :
    Forall (λ r, project (export_id r) (log st) = export_events r) (exports st);
  acc_shown : (shown (log st)).*1 ≡ₚ export_id <$> filter reported (exports st);
}.

(** ** Projections of a log *)

Section project.
Implicit Types (k j : nat) (l : list PdfExport.event).

Lemma project_app k lg1 lg2 :
  project k (lg1 ++ lg2) = project k lg1 ++ project k lg2.
Proof. by rw /project filter_app fmap_app. Qed.

Lemma project_tag k l : project k (tag k l) = l.
Proof.
  rw /project /tag. elim: l => [|e l IH] //.
  by rw fmap_cons filter_cons_True // fmap_cons IH.
Qed.

Lemma project_tag_ne k j l : k ≠ j → project k (tag j l) = [].
Proof.
  move=> Hne. rw /project /tag. elim: l => [|e l IH] //.
  by rw fmap_cons filter_cons_False.
Qed.

(** A log holds nothing of a run that has not started. *)
Lemma project_fresh k lg : Forall (λ p, (p.1 < k)%nat) lg → project k lg = [].
Proof.
  rw /project. elim=> [|p lg' Hp _ IH] //. rw filter_cons_False //. lia.
Qed.

(** What another run appends to the log does not change the projection. *)
Lemma project_snoc_ne k j lg l :
  k ≠ j → project k (lg ++ tag j l) = project k lg.
Proof. move=> Hne. by rw project_app project_tag_ne // app_nil_r. Qed.

Lemma shown_app lg1 lg2 : shown (lg1 ++ lg2) = shown lg1 ++ shown lg2.
Proof. apply omap_app. Qed.

Lemma shown_tag k l : shown (tag k l) = pair k <$> PdfExport.toasts l.
Proof.
  rw /shown /tag /PdfExport.toasts.
  induction l as [|[] l IH]; rw //=; by f_equal.
Qed.

End project.

Section interleaving.
Context `{Host}.

(** The turn in which a promise settles shows one notification, or none
    when the run does not report. *)
Lemma settle_shown wd k el :
  let rest := trace (PdfExport.generatePDF_settle wd
                       (PdfExport.html2canvas wd el PdfExport.the_options)) in
  let r := mkExport k (Some el)
             (PdfExport.Html2canvas el PdfExport.the_options :: rest) in
  (shown (tag k rest)).*1 = export_id <$> filter reported [r].
Proof.
  rw /= shown_tag (PdfExport.generatePDF_settle_shows wd el) /reported.
  rw filter_cons filter_nil /=. case_decide as Hd; [by rw Hd|].
  by rw (not_false_is_true _ Hd).
Qed.

Lemma initial_accounted : accounted initial.
Proof. by split. Qed.

(** The runs of a state have numbers of their own. *)
Lemma ids_NoDup st : accounted st → NoDup (ids st).
Proof. move=> [Hids _ _ _ _]. rw Hids. apply NoDup_seq. Qed.

Lemma ids_started st k : accounted st → k ∈ ids st → (k < clicks st)%nat.
Proof. move=> [Hids _ _ _ _]. rw Hids elem_of_seq. lia. Qed.

Lemma click_accounted st :
  mounted st = true → accounted st → accounted (click st).
Proof.
  move=> Hm Hacc. have Hlt := ids_started st.
  destruct Hacc as [Hids Hlog Hin Hexp Hshown].
  have Hacc : accounted st by split.
  rw click_mounted //. split; rw ?/ids; cbn [clicks inflight exports log].
  - rw fmap_app seq_S /= -Hids /ids. solve_Permutation.
  - apply Forall_app. split; [|by repeat constructor].
    eapply Forall_impl; [exact Hlog|]. move=> p /=. lia.
  - apply Forall_app. split.
    + apply Forall_forall=> p Hp. rw project_snoc_ne.
      * by move: p Hp; apply Forall_forall.
      * apply Nat.lt_neq, Hlt; [done|]. rw /ids. set_solver.
    + apply Forall_singleton. cbn [pending_id pending_events].
      by rw project_app project_tag project_fresh.
  - apply Forall_forall=> r Hr. rw project_snoc_ne.
    + by move: r Hr; apply Forall_forall.
    + apply Nat.lt_neq, Hlt; [done|]. rw /ids. set_solver.
  - by rw shown_app /= app_nil_r.
Qed.

(** The other runs of a state in which run [i] is suspended. *)
Lemma ids_delete st i p :
  inflight st !! i = Some p →
  ids st ≡ₚ pending_id p :: (pending_id <$> delete i (inflight st))
            ++ (export_id <$> exports st).
Proof. move=> Hi. by rw /ids {1}(delete_Permutation _ _ _ Hi). Qed.

Lemma settle_accounted st wd i :
  Forall suspended (inflight st) → accounted st → accounted (settle wd i st).
Proof.
  move=> Hsus Hacc. have Hnd := ids_NoDup st Hacc. have Hlt := ids_started st.
  rw /settle. destruct (inflight st !! i) as [[k el l]|] eqn:Hi; [|done].
  have Hp := ids_delete _ _ _ Hi. rw Hp /= in Hnd.
  apply NoDup_cons in Hnd as [Hk Hnd]. rw not_elem_of_app in Hk. destruct Hk as [Hk1 Hk2].
  destruct Hacc as [Hids Hlog Hin Hexp Hshown]. have Hacc : accounted st by split.
  split; rw ?/ids; cbn [clicks inflight exports log].
  - rw -Hids Hp fmap_app /=. solve_Permutation.
  - apply Forall_app. split; [done|]. apply Forall_fmap, Forall_true=> e /=.
    apply Hlt; [done|]. rw Hp. set_solver.
  - apply Forall_forall=> p Hp'. rw project_snoc_ne.
    + move: p Hp'. apply Forall_forall. by apply Forall_delete.
    + move=> Heq. apply Hk1. rw -Heq. by apply list_elem_of_fmap_2.
  - apply Forall_app. split.
    + apply Forall_forall=> r Hr. rw project_snoc_ne.
      * by move: r Hr; apply Forall_forall.
      * move=> Heq. apply Hk2. rw -Heq. by apply list_elem_of_fmap_2.
    + apply Forall_singleton. rw /= project_app project_tag.
      by rw (Forall_lookup_1 _ _ _ _ Hin Hi).
  - destruct (Forall_lookup_1 _ _ _ _ Hsus Hi) as [d [lg [Hel Hl]]].
    rw /= in Hel Hl. subst el l.
    by rw shown_app filter_app !fmap_app Hshown (settle_shown wd k).
Qed.

Lemma step_accounted st st' :
  reachable st → step st st' → accounted st → accounted st'.
Proof.
  move=> /reachable_invariant [_ _ _ Hsus _].
  destruct 1 as [st lg Hm Hl|st e Hm He|st lg Hm Hl|st Hm|st wd i Hi];
    [| | |by apply click_accounted|by apply settle_accounted].
  all: by move=> [? ? ? ? ?].
Qed.

Lemma reachable_accounted st : reachable st → accounted st.
Proof.
  apply reachable_ind; first apply initial_accounted.
  move=> s s' Hr Hstep IH. by eapply step_accounted.
Qed.

(** C14: the log of a reachable state is a shuffle of uninterrupted
    runs.  However the calls of overlapping exports are interleaved, what
    the log holds under the number of a finished run, in the order of the
    log, is the trace of [generatePDF] run alone, in some world, on the
    element that was behind the ref at its click. *)
Theorem log_projects_to_runs st :
  reachable st →
  Forall (λ r, ∃ wd, project (export_id r) (log st)
                     = trace (PdfExport.generatePDF wd (export_target r)))
         (exports st).
Proof.
  move=> Hr. destruct (reachable_accounted st Hr) as [_ _ _ Hexp _].
  destruct (reachable_invariant st Hr) as [_ _ _ _ Hfin].
  apply Forall_forall=> r Hr'.
  destruct (proj1 (Forall_forall _ _) Hfin r Hr') as [d [lg [wd [_ Hev]]]].
  exists wd. by rw (proj1 (Forall_forall _ _) Hexp r Hr').
Qed.

(** C28: every click is accounted for: in a reachable state the runs,
    suspended and finished together, are numbered by the clicks so far,
    each number once; and the notifications shown so far are those of the
    finished runs that reported, one each: a run shows no notification
    only when it has logged [null] or [undefined] as its error. *)
Theorem every_click_has_one_run st :
  reachable st →
  ids st ≡ₚ seq 0 (clicks st)
  ∧ (shown (log st)).*1 ≡ₚ export_id <$> filter reported (exports st).
Proof. by move=> /reachable_accounted [? _ _ _ ?]. Qed.

End interleaving.

(** ** Two exports that finish in the other order *)

Section demo.
#[local] Existing Instance tokyo.

(** Two clicks with an edit between them; the promise of the second run
    is rejected before the promise of the first is fulfilled. *)
Definition crossed : State :=
  settle PdfExport.ideal_world 0 (settle PdfExport.tainted_world 1 overlap).

Lemma crossed_reachable : reachable crossed.
Proof.
  eapply rtc_r; [eapply rtc_r; [apply overlap_reachable|]|]; by apply step_settle.
Qed.

(** Notifications are shown in the order the promises settle,
    not in the order of the clicks: a state is reachable in which the
    failure of the second export is reported before the success of the
    first. *)
Theorem toasts_out_of_order :
  ∃ st, reachable st
        ∧ (λ p, (p.1, PdfExport.status p.2)) <$> shown (log st)
          = [(1%nat, "error"); (0%nat, "success")].
Proof. exists crossed. split; [apply crossed_reachable|by vm_compute]. Qed.

Lemma log_projects_to_runs_witness :
  Forall (λ r, ∃ wd, project (export_id r) (log crossed)
                     = trace (PdfExport.generatePDF wd (export_target r)))
         (exports crossed).
Proof. apply log_projects_to_runs, crossed_reachable. Defined.

Lemma every_click_has_one_run_witness :
  ids crossed ≡ₚ seq 0 (clicks crossed)
  ∧ (shown (log crossed)).*1 ≡ₚ export_id <$> filter reported (exports crossed).
Proof. apply every_click_has_one_run, crossed_reachable. Defined.

End demo.

End Interleaving.
