(* ===== verification/Refinement.v ===== *)
(** * The component refines its specification

    [abs] reads a state of the component ([App]) as a state of the machine
    of the specification ([Spec]): the record is the record; the logo is
    pending until [onload] or [onerror] has run, available when a data URL
    is in state and unavailable otherwise; an export in progress is a run
    of [generatePDF] suspended at its [await], with the element it gave to
    [html2canvas]; the notifications and the downloads are the toasts and
    the files in the log of the calls, in the order of the log.

    The machine tells the user of every export that fails.  The component
    does so when what was thrown has a [message] to read, and not when it
    is [null] or [undefined] ([PdfExport.nullish_rejection_is_not_reported]).
    So the system that refines the machine is the component whose
    libraries throw values with properties: [system] keeps the steps after
    which no [null] or [undefined] error is in the log.  Every step of it
    is a step of the machine ([component_refines_spec]), so what the
    machine guarantees holds of it ([machine_guarantees_hold]); the step
    in which a run catches [null] is not a step of the machine
    ([silent_failure_is_no_step]).  The machine in which one export runs
    at a time is refined by the component whose button is disabled while
    an export runs ([guarded_refines_sequential]) and not by the component
    as it is ([component_is_not_sequential]). *)

From S2P Require Import Prelude Simulation JsValue RecordModel DateFormat VDom Render.
From S2P Require Import Effect ExportPipeline LogoResolver Spec App.

Module Refinement.
Import App.

(** The image of a resolved logo: the data URL the renderer is given. *)
Definition image (l : Spec.ResolvedLogo) : string :=
  match l with
  | Spec.Available url => url
  | _ => ""
  end.

(** The state of the logo resolver as the specification names it. *)
Definition resolved (lg : Logo.state) : Spec.ResolvedLogo :=
  match Logo.current lg with
  | Logo.Idle | Logo.Loading => Spec.Pending
  | Logo.Loaded =>
    if decide (Logo.logoDataUrl lg = "") then Spec.Unavailable
    else Spec.Available (Logo.logoDataUrl lg)
  | Logo.Failed => Spec.Unavailable
  end.

(** The calls of a log, without the numbers of their runs. *)
Definition calls (lg : list (nat * PdfExport.event)) : list PdfExport.event :=
  lg.*2.

Section refinement.
Context `{Host}.

(** The layout of the specification is the preview. *)
Definition layout (data : gmap string string) (l : Spec.ResolvedLogo) : node :=
  preview data (image l).

Definition abs (st : State) : Spec.State :=
  {| Spec.record := paystubData st;
     Spec.logo := resolved (logo st);
     Spec.rendered := mounted st;
     Spec.exporting := pending_element <$> inflight st;
     Spec.notifications := PdfExport.toasts (calls (log st));
     Spec.downloads := PdfExport.downloads (calls (log st)) |}.

(** The component as a transition system. *)
Definition component : Sys.System := Sys.mkSystem State initial step.

(** Every export that has failed has told the user: no run has logged
    [null] or [undefined] as its error. *)
Definition well_reported (st : State) : Prop :=
  existsb PdfExport.nullish_caught (calls (log st)) = false.

(** The component with libraries that throw values with properties. *)
Definition system : Sys.System := Sys.constrain component (λ _ st', well_reported st').

(** The button is disabled while an export runs: a click that would
    start a second export is not a step. *)
Definition button_disabled (st st' : State) : Prop :=
  (length (inflight st') ≤ 1)%nat.

Definition guarded : Sys.System := Sys.constrain system button_disabled.

(** ** Lemmas *)

Lemma calls_app lg1 lg2 : calls (lg1 ++ lg2) = calls lg1 ++ calls lg2.
Proof. apply fmap_app. Qed.

Lemma calls_tag k l : calls (tag k l) = l.
Proof. rw /calls /tag -list_fmap_compose. apply list_fmap_id. Qed.

Lemma toasts_app l1 l2 :
  PdfExport.toasts (l1 ++ l2) = PdfExport.toasts l1 ++ PdfExport.toasts l2.
Proof. apply omap_app. Qed.

Lemma downloads_app l1 l2 :
  PdfExport.downloads (l1 ++ l2) = PdfExport.downloads l1 ++ PdfExport.downloads l2.
Proof. apply omap_app. Qed.

(** The renderer is given the image of the resolved logo. *)
Lemma image_resolved lg : Logo.reachable lg → image (resolved lg) = Logo.logoDataUrl lg.
Proof.
  move=> /Logo.reachable_pending_is_blank. rw /Logo.pending_is_blank /resolved.
  destruct (Logo.current lg)=> Hb; rw /=; [by rw Hb..|by case_decide|by rw Hb].
Qed.

(** A step of the resolver before the first commit is the effect; after
    it, the load or the failure. *)
Lemma logo_step_pending lg lg' :
  Logo.step lg lg' → resolved lg = Spec.Pending.
Proof. destruct 1 as [st Hc|st wd img Hc|st Hc]; by rw /resolved Hc. Qed.

Lemma logo_step_effect lg lg' :
  Logo.step lg lg' → Logo.current lg = Logo.Idle → resolved lg' = Spec.Pending.
Proof. destruct 1 as [st Hc|st wd img Hc|st Hc]; rw ?Hc //. Qed.

Lemma logo_step_settles lg lg' :
  Logo.step lg lg' → Logo.current lg ≠ Logo.Idle →
  resolved lg' = Spec.Unavailable
  ∨ ∃ url, url ≠ "" ∧ resolved lg' = Spec.Available url.
Proof.
  destruct 1 as [st Hc|st wd img Hc|st Hc]; rw ?Hc //= => _; [|by left].
  rw /resolved /=. case_decide; [by left|right]. by eexists.
Qed.

(** A step appends to the log. *)
Lemma step_log st st' : step st st' → ∃ l, log st' = log st ++ l.
Proof.
  destruct 1 as [st lg Hm Hl|st e Hm He|st lg Hm Hl|st Hm|st wd i [[k el l] Hi]];
    rw ?click_mounted // /settle ?Hi /=; try (by exists []; rw app_nil_r);
    by eexists.
Qed.

Lemma well_reported_app st lg :
  existsb PdfExport.nullish_caught (calls (log st ++ lg)) = false ↔
  well_reported st ∧ existsb PdfExport.nullish_caught (calls lg) = false.
Proof. by rw /well_reported calls_app existsb_app orb_false_iff. Qed.

(** What is reported in a state was reported before. *)
Lemma step_well_reported st st' : step st st' → well_reported st' → well_reported st.
Proof.
  move=> /step_log [l Hl]. rw /well_reported Hl. by move=> /well_reported_app [? _].
Qed.

(** A reachable state in which every failure is reported is a state of
    [system]. *)
Lemma reachable_system st : reachable st → well_reported st → Sys.reachable system st.
Proof. apply (Sys.constrain_reachable_back component well_reported), step_well_reported. Qed.

(** What the turn in which a promise settles shows and downloads is what
    the contract assigns to the element, when the turn reports. *)
Lemma settle_delivers wd el :
  let rest := trace (PdfExport.generatePDF_settle wd
                       (PdfExport.html2canvas wd el PdfExport.the_options)) in
  existsb PdfExport.nullish_caught rest = false →
  PdfExport.toasts rest
  = [PdfExport.report (PdfExport.export_contract wd (Some el))]
  ∧ PdfExport.downloads rest
    = PdfExport.files (PdfExport.export_contract wd (Some el)).
Proof.
  move=> /= Hrep.
  by rw PdfExport.generatePDF_settle_shows PdfExport.generatePDF_settle_downloads Hrep.
Qed.

Lemma abs_mount st lg :
  reachable st → mounted st = false → Logo.step (logo st) lg →
  abs (mount lg st) = Spec.render (abs st).
Proof.
  move=> /reachable_invariant [_ _ Hidle _ _] Hm Hl. rw /abs /Spec.render /=.
  by rw (logo_step_pending _ _ Hl) (logo_step_effect _ _ Hl (proj1 Hidle Hm)).
Qed.

Lemma abs_click st :
  reachable st → mounted st = true →
  abs (click st) = Spec.begin (layout (paystubData st) (resolved (logo st))) (abs st).
Proof.
  move=> /reachable_invariant [_ Hlogo _ _ _] Hm.
  rw click_mounted // /abs /Spec.begin /layout image_resolved //.
  cbn [paystubData logo mounted inflight log].
  by rw fmap_app !calls_app calls_tag toasts_app downloads_app /= !app_nil_r.
Qed.

Lemma abs_settle st wd i p :
  inflight st !! i = Some p → well_reported (settle wd i st) →
  abs (settle wd i st)
  = Spec.finish i (PdfExport.export_contract wd (Some (pending_element p))) (abs st).
Proof.
  move=> Hi. rw /settle Hi. destruct p as [k el l].
  move=> /well_reported_app [_]. rw calls_tag => Hrep.
  destruct (settle_delivers wd el Hrep) as [Ht Hd]. rw /abs /Spec.finish /Spec.deliver.
  cbn [paystubData logo mounted inflight log pending_element Spec.record Spec.logo
       Spec.rendered Spec.exporting Spec.notifications Spec.downloads] in *.
  by rw list_fmap_delete !calls_app calls_tag toasts_app downloads_app Ht Hd.
Qed.

(** Every step of a reachable state is a step of the machine: the first
    commit is the first render, a change event sets a field, the load and
    the failure of the logo resolve it, a click begins an export of the
    layout of the moment, and a promise that settles ends an export with
    the outcome of its contract. *)
Lemma step_refines st st' :
  reachable st → step st st' → well_reported st' →
  Spec.step layout (abs st) (abs st').
Proof.
  move=> Hr Hstep Hrep.
  destruct Hstep as [st lg Hm Hl|st e Hm He|st lg Hm Hl|st Hm|st wd i [p Hi]].
  - rw abs_mount //. by apply Spec.step_render.
  - apply (Spec.step_set_field _ (abs st)); [done|]. by rw view_inputs in He.
  - destruct (reachable_invariant _ Hr) as [_ _ Hidle _ _].
    have Hc : Logo.current (logo st) ≠ Logo.Idle by (move=> /Hidle; rw Hm).
    have Hp := logo_step_pending _ _ Hl.
    destruct (logo_step_settles _ _ Hl Hc) as [Hu|[url [Hurl Hu]]];
      rw /abs /load /= Hu.
    + by apply (Spec.step_fail _ (abs st)).
    + by apply (Spec.step_resolve _ (abs st)).
  - rw abs_click //. by apply Spec.step_begin.
  - rw (abs_settle _ _ _ p) //. apply Spec.step_end. by rw /= list_lookup_fmap Hi.
Qed.

Lemma refines_machine : Sys.refines system (Spec.system layout) abs.
Proof.
  split; [done|]. move=> st st' /Sys.constrain_reachable Hr [Hstep Hrep]. right.
  by apply step_refines.
Qed.

(** ** Theorems *)

(** C12: the component refines the machine of the specification, as
    long as every failure is reported.  Read through [abs], the initial
    state of the component is the initial state of the machine, every step
    of a reachable state after which no [null] or [undefined] error is in
    the log is a step of the machine, and so every reachable state of
    which that holds is a state that the machine reaches. *)
Theorem component_refines_spec :
  abs initial = Spec.initial
  ∧ (∀ st st', reachable st → step st st' → well_reported st' →
               Spec.step layout (abs st) (abs st'))
  ∧ (∀ st, reachable st → well_reported st →
           rtc (Spec.step layout) Spec.initial (abs st)).
Proof.
  split_and!; [done|apply step_refines|]. move=> st Hr Hrep.
  apply (Sys.refines_reachable (C:=system) (A:=Spec.system layout) abs refines_machine).
  by apply reachable_system.
Qed.

(** C17: what the machine guarantees holds of the component.  In
    every reachable state of the component in which every failure has been
    reported, the record has the eight fields of the form and no other,
    the files downloaded so far are as many as the success toasts shown so
    far, each under the fixed name, and every export in progress was given
    the preview of some record and some resolved logo. *)
Theorem machine_guarantees_hold st :
  reachable st → well_reported st →
  Record.flat (paystubData st)
  ∧ length (PdfExport.downloads (calls (log st)))
    = length (Spec.successes (PdfExport.toasts (calls (log st))))
  ∧ Forall (λ f, f.1 = PdfExport.file_name) (PdfExport.downloads (calls (log st)))
  ∧ Forall (λ p, ∃ d l, pending_element p = layout d l) (inflight st).
Proof.
  move=> Hr Hrep.
  destruct (Sys.refines_invariant (C:=system) (A:=Spec.system layout) abs
              refines_machine _ (Spec.machine_good layout) st
              (reachable_system st Hr Hrep))
    as [Hflat Hfiles Hcount Hsnap].
  split_and!; [done..|]. rw /abs in Hsnap. cbn [Spec.exporting] in Hsnap.
  by rw Forall_fmap in Hsnap.
Qed.


End refinement.

(** ** The component as it is *)

Section demo.
#[local] Existing Instance tokyo.

(** C23: the component as it is does not refine the machine in
    which one export runs at a time: it reaches a state that, read through
    [abs], that machine does not reach. *)
Theorem component_is_not_sequential :
  ∃ st, reachable st ∧ ¬ Sys.reachable (Spec.sequential layout) (abs st).
Proof.
  exists overlap. split; [apply overlap_reachable|].
  move=> /(Spec.sequential_one_export layout). rw /abs. cbn [Spec.exporting].
  rw length_fmap. have -> : length (inflight overlap) = 2%nat by vm_compute. lia.
Qed.

(** A click whose promise is rejected without a reason. *)
Definition silenced : State := settle PdfExport.silent_world 0 (click mounted_state).

(** The step in which a run catches [null] or [undefined] is not a step
    of the machine: the export has ended and the user has not been told.
    The component as it is, with libraries that may reject without a
    reason, does not refine the machine. *)
Theorem silent_failure_is_no_step :
  ∃ st st', reachable st ∧ step st st'
            ∧ abs st ≠ abs st' ∧ ¬ Spec.step layout (abs st) (abs st').
Proof.
  exists (click mounted_state), silenced. split_and!.
  - eapply rtc_r; [apply mounted_reachable|by apply step_click].
  - by apply step_settle.
  - move=> /(f_equal (length ∘ Spec.exporting)). by vm_compute.
  - move=> /Spec.step_end_notifies Hn.
    have : (0 = 1)%nat; [|done]. apply Hn. vm_compute. lia.
Qed.

Lemma machine_guarantees_hold_witness :
  Record.flat (paystubData demo)
  ∧ length (PdfExport.downloads (calls (log demo)))
    = length (Spec.successes (PdfExport.toasts (calls (log demo))))
  ∧ Forall (λ f, f.1 = PdfExport.file_name) (PdfExport.downloads (calls (log demo)))
  ∧ Forall (λ p, ∃ d l, pending_element p = layout d l) (inflight demo).
Proof. apply machine_guarantees_hold; [apply demo_reachable|reflexivity]. Defined.

End demo.

End Refinement.
