(* ===== verification/Progress.v ===== *)
(** * Termination and progress

    What the component does when the user leaves it alone.  The steps of
    [App.step] that are not events of the user are the first commit, the
    load or the failure of the logo (the effect of lines 63-79 of
    [src/PaystubGenerator.js] and its two callbacks) and the settlement of
    the promise a run of [generatePDF] is waiting for (line 124).  Each of
    them uses up one of the things that are still to happen: the resolver
    has at most two steps before it, and each suspended run has one.  So
    these steps end, after exactly as many steps as there are things to
    happen; they end in a state in which the logo is settled and no run is
    suspended; and every run that was suspended has then finished, on the
    element that was behind the ref at its click, with one notification,
    or with none when what it caught was [null] or [undefined].
    Among the steps of the user nothing loses a suspended run either. *)

From S2P Require Import Prelude JsValue RecordModel DateFormat VDom Render.
From S2P Require Import Effect ExportPipeline LogoResolver App Interleaving.

Module Progress.
Import App.

Section progress.
Context `{Host}.

(** The steps that are not events of the user. *)
Inductive background : State → State → Prop :=
| background_mount st lg :
    mounted st = false → Logo.step (logo st) lg →
    background st (mount lg st)
| background_logo st lg :
    mounted st = true → Logo.step (logo st) lg →
    background st (load lg st)
| background_settle st wd i :
    is_Some (inflight st !! i) →
    background st (settle wd i st).

(** What is still to happen: the steps of the logo resolver and the
    settlement of each suspended run. *)
Definition work (st : State) : nat :=
  Logo.remaining (Logo.current (logo st)) + length (inflight st).

(** Nothing is to happen any more. *)
Definition quiescent (st : State) : Prop :=
  Logo.current (logo st) ∈ [Logo.Loaded; Logo.Failed] ∧ inflight st = [].

(** The finished run [r] is the suspended run [p], resumed. *)
Definition answers (p : Pending) (r : Export) : Prop :=
  export_id r = pending_id p ∧ export_target r = Some (pending_element p).

(** ** The measure *)

Lemma background_step st st' : background st st' → step st st'.
Proof. destruct 1; by constructor. Qed.

Lemma logo_step_remaining lg lg' :
  Logo.step lg lg' →
  Logo.remaining (Logo.current lg) = S (Logo.remaining (Logo.current lg')).
Proof. destruct 1 as [st Hc|st wd img Hc|st Hc]; by rw /= Hc. Qed.

(** A step uses up one unit of work. *)
Lemma background_work st st' : background st st' → work st = S (work st').
Proof.
  destruct 1 as [st lg Hm Hl|st lg Hm Hl|st wd i [[k el l] Hi]]; rw /work /=.
  1,2: by rw (logo_step_remaining _ _ Hl).
  have Hlen := length_delete _ _ (mk_is_Some _ _ Hi). have Hlt := lookup_lt_Some _ _ _ Hi.
  rw /settle Hi /= Hlen. lia.
Qed.

Lemma background_decreases st st' : background st st' → (work st' < work st)%nat.
Proof. move=> /background_work. lia. Qed.

(** While something is to happen, it can happen. *)
Lemma background_progress st : work st ≠ 0%nat → red background st.
Proof.
  rw /work. destruct (inflight st) as [|p ps] eqn:Hin.
  - destruct (Logo.current (logo st)) eqn:Hc; rw //= => _.
    + destruct (mounted st) eqn:Hm; eexists.
      * by apply background_logo, Logo.step_mount.
      * by apply background_mount, Logo.step_mount.
    + destruct (mounted st) eqn:Hm; eexists.
      * by apply background_logo, Logo.step_error.
      * by apply background_mount, Logo.step_error.
  - move=> _. exists (settle PdfExport.ideal_world 0 st).
    apply background_settle. by rw Hin.
Qed.

Lemma work_quiescent st : work st = 0%nat ↔ quiescent st.
Proof.
  rw /work /quiescent -length_zero_iff_nil.
  destruct (Logo.current (logo st)); rw /=; split; try lia.
  all: try (move=> [Hc ?]; set_solver). all: move=> ?; split; [set_solver|lia].
Qed.

Lemma nsteps_work n st st' : nsteps background n st st' → work st = (n + work st')%nat.
Proof.
  induction 1 as [|n x y z Hxy _ IH]; [done|]. rw (background_work _ _ Hxy). lia.
Qed.

(** ** Suspended runs are not lost *)

(** A step keeps every finished run, and keeps or finishes every
    suspended one. *)
Lemma step_keeps st st' p :
  step st st' → p ∈ inflight st →
  p ∈ inflight st' ∨ ∃ r, r ∈ exports st' ∧ answers p r.
Proof.
  destruct 1 as [st lg Hm Hl|st e Hm He|st lg Hm Hl|st Hm|st wd i [q Hi]];
    rw ?click_mounted //=; try by left.
  - left. set_solver.
  - rw /settle Hi {1}(delete_Permutation _ _ _ Hi). destruct q as [k el l]=> /=.
    move=> /elem_of_cons [->|Hp]; [right|by left].
    eexists. split; [apply elem_of_app; right; by apply list_elem_of_singleton|done].
Qed.

Lemma step_keeps_exports st st' r : step st st' → r ∈ exports st → r ∈ exports st'.
Proof.
  destruct 1 as [st lg Hm Hl|st e Hm He|st lg Hm Hl|st Hm|st wd i [[k el l] Hi]];
    rw ?click_mounted //= /settle ?Hi /=. set_solver.
Qed.

Lemma steps_keep st st' p :
  rtc step st st' → p ∈ inflight st →
  p ∈ inflight st' ∨ ∃ r, r ∈ exports st' ∧ answers p r.
Proof.
  move=> Hsteps Hp. move: st' Hsteps. apply rtc_ind_r; [by left|].
  move=> y z Hxy Hyz [Hp'|[r [Hr Hans]]]; [by eapply step_keeps|].
  right. exists r. split; [by eapply step_keeps_exports|done].
Qed.

(** ** Theorems *)

(** C15: left alone, the component comes to rest: the steps that are
    not events of the user (the first commit, the logo, promises settling)
    cannot go on for ever, every sequence of them from a state has at most
    as many steps as the state has things to happen, and one of them ends
    in a state that has no step. *)
Theorem background_terminates st :
  sn background st
  ∧ (∀ n st', nsteps background n st st' → (n ≤ work st)%nat)
  ∧ wn background st.
Proof.
  split_and!.
  - apply (sn_measure _ work), background_decreases.
  - move=> n st' /nsteps_work. lia.
  - apply (wn_measure _ work); [apply background_decreases|apply background_progress].
Qed.

(** The states in which nothing more happens by itself are those
    in which the logo has loaded or failed and no export is suspended, and
    every sequence of steps that ends in one has exactly as many steps as
    there were things to happen. *)
Theorem rest_is_quiescent n st st' :
  nsteps background n st st' → nf background st' →
  quiescent st' ∧ n = work st.
Proof.
  move=> Hn /(nf_measure_iff _ work background_decreases background_progress) Hw.
  split; [by apply work_quiescent|]. rw (nsteps_work _ _ _ Hn). lia.
Qed.

(** No run is lost: whatever the component and its user do after
    a click, the run that the click suspended is still suspended or has
    finished, under its number and on the element it was started on. *)
Theorem suspended_run_is_never_lost st st' p :
  rtc step st st' → p ∈ inflight st →
  p ∈ inflight st' ∨ ∃ r, r ∈ exports st' ∧ answers p r.
Proof. apply steps_keep. Qed.

(** C13: every export finishes.  Take a reachable state in which a run
    is suspended and let anything happen, events of the user included,
    until the component is at rest: then the run has finished, on the
    element that was behind the ref at its click, and it has shown one
    notification, the report of what the export of that element came to,
    or none when it has logged [null] or [undefined] as its error.
    Rest is reached by the steps that need no user
    ([background_terminates]). *)
Theorem every_export_finishes st st' p :
  reachable st → p ∈ inflight st →
  rtc step st st' → nf background st' →
  ∃ r wd, r ∈ exports st' ∧ answers p r
          ∧ PdfExport.toasts (export_events r)
            = if existsb PdfExport.nullish_caught (export_events r) then []
              else [PdfExport.report
                      (PdfExport.export_contract wd (Some (pending_element p)))].
Proof.
  move=> Hr Hp Hsteps /(nf_measure_iff _ work background_decreases background_progress)
    /work_quiescent [_ Hin].
  destruct (steps_keep _ _ _ Hsteps Hp) as [Hp'|[r [Hr' Hans]]];
    [rw Hin in Hp'; by apply elem_of_nil in Hp'|].
  have Hr'' : reachable st' by eapply rtc_trans.
  destruct (reachable_invariant _ Hr'') as [_ _ _ _ Hfin].
  destruct (proj1 (Forall_forall _ _) Hfin r Hr') as [d [lg [wd [_ Hev]]]].
  exists r, wd. split_and!; [done..|]. rw Hev (proj2 Hans).
  apply PdfExport.generatePDF_shows.
Qed.

End progress.

(** ** On the session of [App] *)

Section demo.
#[local] Existing Instance tokyo.

(** The first run of [App.overlap]. *)
Definition first_run : Pending :=
  mkPending 0 (preview Record.initialPaystubData "")
    [PdfExport.Html2canvas (preview Record.initialPaystubData "") PdfExport.the_options].

(** The logo fails, the second promise is rejected, the first fulfilled. *)
Definition rest : State :=
  settle PdfExport.ideal_world 0
    (settle PdfExport.tainted_world 1
       (load (Logo.run Logo.onerror (logo overlap) Logo.Failed) overlap)).

Lemma overlap_rest : nsteps background 3 overlap rest.
Proof.
  eapply nsteps_l; [by apply background_logo, Logo.step_error|].
  eapply nsteps_l; [by apply (background_settle _ PdfExport.tainted_world 1)|].
  apply nsteps_once. by apply (background_settle _ PdfExport.ideal_world 0).
Qed.

Lemma rest_nf : nf background rest.
Proof. by apply (nf_measure _ work background_decreases). Qed.

Lemma rest_is_quiescent_witness : quiescent rest ∧ 3%nat = work overlap.
Proof. apply rest_is_quiescent; [apply overlap_rest|apply rest_nf]. Defined.

Lemma suspended_run_is_never_lost_witness :
  first_run ∈ inflight rest ∨ ∃ r, r ∈ exports rest ∧ answers first_run r.
Proof.
  apply (suspended_run_is_never_lost overlap).
  - eapply rtc_subrel; [apply background_step|]. eapply rtc_nsteps_2, overlap_rest.
  - by left.
Defined.

Lemma every_export_finishes_witness :
  ∃ r wd, r ∈ exports rest ∧ answers first_run r
          ∧ PdfExport.toasts (export_events r)
            = if existsb PdfExport.nullish_caught (export_events r) then []
              else [PdfExport.report
                      (PdfExport.export_contract wd (Some (pending_element first_run)))].
Proof.
  apply (every_export_finishes overlap).
  - apply overlap_reachable.
  - by left.
  - eapply rtc_subrel; [apply background_step|]. eapply rtc_nsteps_2, overlap_rest.
  - apply rest_nf.
Defined.

End demo.

End Progress.
