(* ===== verification/Inputs.v ===== *)
(** * The inputs of the form

    The form of the component (lines 177-262 of [src/PaystubGenerator.js])
    declares three inputs of [type="date"], two of [type="number"] and
    three text inputs, and hands the [value] of each change event to
    [handleInputChange].  What that value can be is decided by the browser:
    an input of type [date] or [number] holds the empty string unless what
    was entered is a valid date string or a valid floating-point number
    (the value sanitization algorithm of the HTML Standard, 4.10.5.1).

    Module [Html] models the algorithm and reads the type of an input off
    the tree on screen.  The theorems compose it with the formatters: what
    a number input delivers is never shown as [$NaN], what a date input
    delivers with a year of four digits is never shown as [Invalid Date],
    and the record of a component that is driven through its inputs holds
    sanitized values only. *)

From Stdlib Require Import QArith.
From S2P Require Import Prelude JsValue RecordModel Decimal NumberFormat Calendar.
From S2P Require Import DateFormat VDom Render Effect ExportPipeline LogoResolver App.

#[local] Close Scope Q_scope.
#[local] Open Scope Z_scope.

Module Html.
Import Digits Time.

(** The states of the [type] attribute that the form uses. *)
Inductive input_type : Type := Text | DateInput | NumberInput.

#[export] Instance input_type_eq_dec : EqDecision input_type.
Proof. solve_decision. Defined.

(** The state of the [type] attribute of an element; the missing value
    default is [Text]. *)
Definition type_state (n : node) : input_type :=
  match get_attr "type" n with
  | Some (PStr t) =>
    if bool_decide (t = "date") then DateInput
    else if bool_decide (t = "number") then NumberInput
    else Text
  | _ => Text
  end.

(** The inputs of a tree, each with its type, in document order. *)
Definition input_types (tree : node) : list (string * input_type) :=
  omap (λ n, match get_attr "name" n with
             | Some (PStr k) => Some (k, type_state n)
             | _ => None
             end)
       (find_all (has_tag "Input") tree).

(** The type of the input named [k] of a tree. *)
Definition type_of (tree : node) (k : string) : option input_type :=
  (list_to_map (input_types tree) : gmap string input_type) !! k.

(** *** Valid floating-point numbers (HTML 2.3.4.3) *)

Definition digits1 (s : string) : bool :=
  all_digits s && negb (bool_decide (s = "")).

(** The exponent, when there is one: [e] or [E], an optional sign, and
    one or more digits. *)
Definition exponent_ok (s : string) : bool :=
  match s with
  | "" => true
  | String c r =>
    (Ascii.eqb c "e" || Ascii.eqb c "E")
    && match r with
       | String c' d => if Ascii.eqb c' "+" || Ascii.eqb c' "-" then digits1 d else digits1 r
       | "" => false
       end
  end.

(** One or both of: one or more digits; a point followed by one or more
    digits. *)
Definition unsigned_float (s : string) : bool :=
  let '(ip, r1) := span_digits s in
  match r1 with
  | "" => negb (bool_decide (ip = ""))
  | String c r =>
    if Ascii.eqb c "." then
      let '(fp, r2) := span_digits r in negb (bool_decide (fp = "")) && exponent_ok r2
    else negb (bool_decide (ip = "")) && exponent_ok r1
  end.

Definition valid_float (s : string) : bool :=
  match s with
  | "" => false
  | String c r => if Ascii.eqb c "-" then unsigned_float r else unsigned_float s
  end.

(** *** Valid date strings (HTML 2.3.5.2) *)

(** A year of four or more digits that is not zero, a month, and a day of
    that month, each of two digits, with hyphens between them. *)
Definition valid_date_string (s : string) : bool :=
  let '(ys, r) := span_digits s in
  match r with
  | String s1 (String m1 (String m0 (String s2 (String d1 (String d0 ""))))) =>
    Ascii.eqb s1 "-" && Ascii.eqb s2 "-" && forallb is_digit [m1; m0; d1; d0]
    && (4 <=? String.length ys)%nat && (0 <? read ys)
    && bool_decide (valid_date (read ys) (read (String m1 (String m0 "")))
                      (read (String d1 (String d0 ""))))
  | _ => false
  end.

(** *** Value sanitization (HTML 4.10.5.1) *)

Fixpoint strip_newlines (s : string) : string :=
  match s with
  | "" => ""
  | String c r =>
    if Ascii.eqb c "010" || Ascii.eqb c "013" then strip_newlines r
    else String c (strip_newlines r)
  end.

Definition sanitize (t : input_type) (raw : string) : string :=
  match t with
  | Text => strip_newlines raw
  | DateInput => if valid_date_string raw then raw else ""
  | NumberInput => if valid_float raw then raw else ""
  end.

(** A value that the sanitization leaves as it is. *)
Definition sanitized (t : input_type) (v : string) : Prop := sanitize t v = v.

#[export] Instance sanitized_dec t v : Decision (sanitized t v).
Proof. rw /sanitized. apply _. Defined.

(** The change event of the input named [k] of the tree on screen, when
    the user has entered [raw]: [e.target.name] and [e.target.value]. *)
Definition entry (tree : node) (k raw : string) : option Record.ChangeEvent :=
  t ← type_of tree k; Some (Record.mkChange k (sanitize t raw)).

End Html.

(** ** What a number input delivers *)

Module HtmlFacts.
Import Digits Time Intl IntlFacts Html.

Lemma digits1_spec s : digits1 s = true → all_digits s = true ∧ s ≠ "".
Proof. rw /digits1. move=> /andb_prop [Hd /negb_true_iff /bool_decide_eq_false Hs]. done. Qed.

Lemma digits1_DecimalDigits s : digits1 s = true → DecimalDigits s = Some (read s).
Proof. rw /digits1 /DecimalDigits. by move=> ->. Qed.

Lemma eqb_either c a b :
  Ascii.eqb c a || Ascii.eqb c b = true → c = a ∨ c = b.
Proof. move=> /orb_prop [/Ascii.eqb_eq|/Ascii.eqb_eq]; auto. Qed.

(** A signed run of digits is a [SignedInteger], and has no white space. *)
Lemma signed_digits_spec c d :
  (if Ascii.eqb c "+" || Ascii.eqb c "-" then digits1 d else digits1 (String c d)) = true →
  is_Some (SignedInteger (String c d)) ∧ all_solid (String c d) = true.
Proof.
  rw /SignedInteger. destruct (Ascii.eqb_spec c "+") as [->|Hp]; rw /=.
  { move=> Hd. rw digits1_DecimalDigits //. split; [done|].
    by apply digits_solid, digits1_spec. }
  destruct (Ascii.eqb_spec c "-") as [->|Hm]; rw /=.
  { move=> Hd. rw digits1_DecimalDigits //. split; [done|].
    by apply digits_solid, digits1_spec. }
  move=> Hd. rw digits1_DecimalDigits //. split; [done|].
  by apply (digits_solid (String c d)), digits1_spec.
Qed.

Lemma exponent_ok_spec s :
  exponent_ok s = true → is_Some (ExponentPart_opt s) ∧ all_solid s = true.
Proof.
  destruct s as [|c [|c' d]]; [done|by rw /= andb_false_r|].
  rw /exponent_ok /ExponentPart_opt. move=> /andb_prop [Hc /signed_digits_spec [He Hs]].
  rw Hc. split; [done|]. change (solid c && all_solid (String c' d) = true).
  rw Hs andb_true_r. by destruct (eqb_either _ _ _ Hc) as [->| ->].
Qed.

Lemma not_Infinity_dot ip r : ip +:+ String "." r ≠ "Infinity".
Proof.
  do 9 (destruct ip as [|? ip]; [by rw /= | rw str_app_cons]); try done.
  all: by move=> [*]; subst.
Qed.

(** An unsigned number of the HTML grammar is a decimal literal of the
    ECMAScript grammar, with a finite value, and has no white space. *)
Lemma unsigned_float_literal s :
  unsigned_float s = true →
  (∃ q, StrUnsignedDecimalLiteral s = Some (MFin false q))
  ∧ all_solid s = true ∧ s ≠ "".
Proof.
  rw /unsigned_float /StrUnsignedDecimalLiteral.
  destruct (span_digits s) as [ip r1] eqn:Hs.
  destruct (span_digits_spec _ _ _ Hs) as (-> & Hip & Hr1).
  destruct r1 as [|c r].
  - move=> /negb_true_iff /bool_decide_eq_false Hne. rw str_app_nil_r.
    rw bool_decide_false; last by rw -(str_app_nil_r ip); apply digits_not_Infinity.
    rw bool_decide_false; last by move=> [? _].
    split_and!; [by eexists|by apply digits_solid|done].
  - destruct (Ascii.eqb_spec c ".") as [->|Hc].
    + destruct (span_digits r) as [fp r2] eqn:Hr.
      destruct (span_digits_spec _ _ _ Hr) as (-> & Hfp & Hr2).
      move=> /andb_prop [/negb_true_iff /bool_decide_eq_false Hne /exponent_ok_spec [[e He] Hsolid]].
      rw bool_decide_false; last by apply not_Infinity_dot.
      rw bool_decide_false; last by move=> [_ ?].
      rw He /=. split_and!; [by eexists| |by destruct ip].
      rw all_solid_app /= all_solid_app Hsolid !digits_solid //.
    + move=> /andb_prop [/negb_true_iff /bool_decide_eq_false Hne /exponent_ok_spec [[e He] Hsolid]].
      rw bool_decide_false; last by apply digits_not_Infinity.
      rw bool_decide_false; last by move=> [? _].
      rw He /=. split_and!; [by eexists| |by destruct ip].
      by rw all_solid_app Hsolid digits_solid.
Qed.

(** The value of an unsigned number, and of the number with a minus sign
    before it. *)
Lemma unsigned_float_value r :
  unsigned_float r = true →
  r ≠ "" ∧ ∃ q, StringIntlMV r = MFin false q
                ∧ StringIntlMV (String "-" r) = MFin true q.
Proof.
  move=> Hv. destruct (unsigned_float_literal _ Hv) as ([q Hq] & Hsolid & Hne).
  split; [done|]. exists q. rw /StringIntlMV !trim_solid // ?bool_decide_false //=.
  rw Hq /=. split; [|done]. destruct r as [|c r]; [done|]. rw /StrNumericLiteral.
  destruct (Ascii.eqb_spec c "+") as [->|_]; [by move: Hv; rw /unsigned_float /=|].
  destruct (Ascii.eqb_spec c "-") as [->|_]; [by move: Hv; rw /unsigned_float /=|].
  by rw Hq.
Qed.

(** The value of a valid floating-point number is finite. *)
Lemma valid_float_value s :
  valid_float s = true → s ≠ "" ∧ ∃ neg q, StringIntlMV s = MFin neg q.
Proof.
  destruct s as [|c r]; [done|]. rw /valid_float => Hv. split; [done|].
  destruct (Ascii.eqb_spec c "-") as [->|Hc];
    destruct (unsigned_float_value _ Hv) as (_ & q & Hq & Hq'); by eexists _, q.
Qed.

(** A finite or infinite amount is not shown as [$NaN]. *)
Lemma format_number v : v ≠ MNaN → magnitude v → format v ≠ "$NaN".
Proof.
  destruct v as [|[]|[] q]; rw //= /magnitude => _ Hq.
  have Hc := round_cents_nonneg q Hq. rw /format_cents.
  destruct (print_head (round_cents q / 100)) as (c & r & Hp & Hd); [div_lia|].
  rw Hp. destruct r; rw /= ?str_app_cons; move=> [Heq]; by subst c.
Qed.

(** Sanitization is idempotent: a sanitized value is delivered as it
    is. *)
Lemma strip_newlines_idemp s : strip_newlines (strip_newlines s) = strip_newlines s.
Proof.
  induction s as [|c s IH]; [done|]. rw /=.
  destruct (Ascii.eqb c "010" || Ascii.eqb c "013") eqn:Hc; [done|]. by rw /= Hc IH.
Qed.

Lemma sanitize_sanitized t raw : sanitized t (sanitize t raw).
Proof.
  rw /sanitized. destruct t; rw /=.
  - apply strip_newlines_idemp.
  - destruct (valid_date_string raw) eqn:Hv; [by rw Hv|done].
  - destruct (valid_float raw) eqn:Hv; [by rw Hv|done].
Qed.

(** A sanitized value of a number input is empty or a number. *)
Lemma sanitized_number v : sanitized NumberInput v → v = "" ∨ valid_float v = true.
Proof. rw /sanitized /=. destruct (valid_float v); auto. Qed.

Lemma sanitized_date v : sanitized DateInput v → v = "" ∨ valid_date_string v = true.
Proof. rw /sanitized /=. destruct (valid_date_string v); auto. Qed.

Lemma sanitized_number_format v :
  sanitized NumberInput v → formatCurrency (VString v) ≠ "$NaN".
Proof.
  move=> /sanitized_number [->|Hv]; [done|].
  destruct (valid_float_value _ Hv) as (Hne & neg & q & Hq).
  rw formatCurrency_string //. apply format_number.
  - rw Hq /clamp. by case_match.
  - apply (ToIntlMathematicalValue_magnitude (VString v)).
Qed.

End HtmlFacts.

(** ** Theorems on number inputs *)

Section number_input.
Import Intl IntlFacts Html HtmlFacts.

(** C21: what a number input delivers is never shown as [$NaN]: an
    entry that is not a valid floating-point number reaches the component
    as the empty string and is shown as zero dollars, and a valid one is
    shown as an amount or an infinity. *)
Theorem number_entry_is_an_amount raw :
  formatCurrency (VString (sanitize NumberInput raw)) ≠ "$NaN"
  ∧ (valid_float raw = false
     → formatCurrency (VString (sanitize NumberInput raw)) = "$0.00").
Proof.
  split; [apply sanitized_number_format, sanitize_sanitized|].
  by rw /= => ->.
Qed.

(** C35: the inputs set no minimum, so a negative amount is delivered
    and shown: the amount with a minus sign before the dollar sign. *)
Theorem negative_amount_shows_minus r :
  unsigned_float r = true →
  valid_float ("-" +:+ r) = true
  ∧ formatCurrency (VString ("-" +:+ r)) = "-" +:+ formatCurrency (VString r).
Proof.
  move=> Hv. split; [done|].
  destruct (unsigned_float_value _ Hv) as (Hne & q & Hq & Hq').
  rw !formatCurrency_string // Hq Hq' /clamp. by case_match.
Qed.

Lemma negative_amount_shows_minus_witness :
  valid_float ("-" +:+ "12.5") = true
  ∧ formatCurrency (VString ("-" +:+ "12.5")) = "-" +:+ formatCurrency (VString "12.5").
Proof. by apply negative_amount_shows_minus. Defined.

(** An amount in scientific notation is a valid floating-point
    number; beyond the range of a double it is shown as an infinity. *)
Example huge_amount_shows_infinity :
  sanitize NumberInput "1e309" = "1e309" ∧ formatCurrency (VString "1e309") = "$∞".
Proof. split; by vm_compute. Qed.

End number_input.


(** ** Theorems on date inputs *)

Section date_input.
Context `{Host}.
Import Digits Time Html HtmlFacts.

(** The character of the value of a digit. *)
Lemma digit_char_eq c v : is_digit c = true → v = digit_value c → digit_char v = c.
Proof. move=> Hc ->. by apply digit_char_value. Qed.

(** A string of four digits is the year that [iso_date] prints. *)
Lemma read4 c3 c2 c1 c0 :
  forallb is_digit [c3; c2; c1; c0] = true →
  let y := read (String c3 (String c2 (String c1 (String c0 "")))) in
  0 ≤ y ≤ 9999
  ∧ [digit_char (y / 1000); digit_char (y / 100 mod 10);
     digit_char (y / 10 mod 10); digit_char (y mod 10)] = [c3; c2; c1; c0].
Proof.
  move=> /= /andb_prop [H3 /andb_prop [H2 /andb_prop [H1 /andb_prop [H0 _]]]].
  have := digit_value_range _ H3. have := digit_value_range _ H2.
  have := digit_value_range _ H1. have := digit_value_range _ H0.
  rw /read /= => ? ? ? ?. split; [lia|].
  repeat f_equal; apply digit_char_eq; try done; div_lia.
Qed.

Lemma read2 c1 c0 :
  forallb is_digit [c1; c0] = true →
  print2 (read (String c1 (String c0 ""))) = String c1 (String c0 "").
Proof.
  move=> /= /andb_prop [H1 /andb_prop [H0 _]].
  have := digit_value_range _ H1. have := digit_value_range _ H0.
  rw /read /print2 /= => ? ?.
  repeat f_equal; apply digit_char_eq; try done; div_lia.
Qed.

(** A valid date string of ten characters is the date-only form of a
    valid date of the years 1 to 9999. *)
Lemma valid_date_string_iso s :
  valid_date_string s = true → String.length s = 10%nat →
  ∃ y m d, s = iso_date y m d ∧ 1 ≤ y ≤ 9999 ∧ valid_date y m d.
Proof.
  rw /valid_date_string. destruct (span_digits s) as [ys r] eqn:Hs.
  destruct (span_digits_spec _ _ _ Hs) as (-> & Hys & _).
  destruct r as [|s1 [|m1 [|m0 [|s2 [|d1 [|d0 [|? ?]]]]]]]; try done.
  move=> /andb_prop [/andb_prop [/andb_prop [/andb_prop [/andb_prop
    [/Ascii.eqb_eq -> /Ascii.eqb_eq ->] Hmd] _] /Z.ltb_lt Hpos] /bool_decide_eq_true Hv].
  rw str_length_app /= => Hlen.
  destruct ys as [|c3 [|c2 [|c1 [|c0 [|? ?]]]]]; rw /= in Hlen; try lia.
  have Hy : forallb is_digit [c3; c2; c1; c0] = true by exact Hys.
  destruct (read4 _ _ _ _ Hy) as [Hrange [= E3 E2 E1 E0]].
  have Hm : forallb is_digit [m1; m0] = true.
  { move: Hmd=> /= /andb_prop [-> /andb_prop [-> _]]. done. }
  have Hd : forallb is_digit [d1; d0] = true.
  { move: Hmd=> /= /andb_prop [_ /andb_prop [_ ->]]. done. }
  eexists _, _, _. split_and!; [|by apply Z.lt_pred_le, Hpos|apply Hrange|exact Hv].
  by rw /iso_date E3 E2 E1 E0 (read2 _ _ Hm) (read2 _ _ Hd).
Qed.

(** The date-only form of a valid date of the years 1 to 9999 is a valid
    date string: a date input delivers it as it is. *)
Lemma iso_date_valid_string y m d :
  1 ≤ y ≤ 9999 → valid_date y m d → valid_date_string (iso_date y m d) = true.
Proof.
  move=> Hy Hv. have [Hm Hd] := Hv.
  have Hd' := DaysInMonth_range y (m - 1) ltac:(lia).
  rw /iso_date /print2 /valid_date_string /= !is_digit_char /=; try div_lia.
  rw !is_digit_char /read /= ?digit_value_char; try div_lia.
  have -> : 10 * (10 * (10 * (10 * 0 + y / 1000) + y / 100 mod 10) + y / 10 mod 10)
            + y mod 10 = y by div_lia.
  have -> : 10 * (10 * 0 + m / 10) + m mod 10 = m by div_lia.
  have -> : 10 * (10 * 0 + d / 10) + d mod 10 = d by div_lia.
  rw bool_decide_true // andb_true_r. apply Z.ltb_lt. lia.
Qed.

(** The values of ten characters that a date input delivers are the
    date-only forms of the valid dates of the years 1 to 9999. *)
Theorem date_input_values s :
  sanitize DateInput s = s ∧ String.length s = 10%nat
  ↔ ∃ y m d, s = iso_date y m d ∧ 1 ≤ y ≤ 9999 ∧ valid_date y m d.
Proof.
  split.
  - move=> [/sanitized_date [->|Hv] Hlen]; [done|]. by apply valid_date_string_iso.
  - move=> [y [m [d [-> [Hy Hv]]]]]. by rw /sanitize iso_date_valid_string.
Qed.

(** The text of a date has a month at its head. *)
Lemma render_not_invalid y m d : Date.render y m d ≠ "Invalid Date".
Proof. rw /Date.render /Date.month_short. by repeat case_match. Qed.

(** On a host whose offset is less than a day either way, a valid date of
    the years 0 to 9999 is shown as a date. *)
Lemma formatDate_valid y m d :
  0 ≤ y ≤ 9999 → valid_date y m d →
  -1440 ≤ tzOffset (utc_midnight y m d) < 1440 →
  formatDate (VString (iso_date y m d)) ≠ "Invalid Date".
Proof.
  move=> Hy Hv Ho. rw formatDate_date_only //.
  destruct (Z.le_gt_cases 0 (tzOffset (utc_midnight y m d))) as [Hpos|Hneg].
  - rw utc_midnight_shift toLocaleDateString_MakeDate;
      [apply render_not_invalid|by left|done|rw /msPerDay; lia].
  - rw utc_midnight_shift_prev //.
    have Hpv := prev_date_valid y m d Hv. have Hpr := prev_date_range y m d Hy Hv.
    destruct (prev_date y m d) as [[y' m'] d'].
    rw toLocaleDateString_MakeDate;
      [apply render_not_invalid|done..|rw /msPerDay; lia].
Qed.

(** A valid date string has ten characters or more. *)
Lemma valid_date_string_length s :
  valid_date_string s = true → (10 ≤ String.length s)%nat.
Proof.
  rw /valid_date_string. destruct (span_digits s) as [ys r] eqn:Hs.
  destruct (span_digits_spec _ _ _ Hs) as (-> & _ & _).
  destruct r as [|s1 [|m1 [|m0 [|s2 [|d1 [|d0 [|? ?]]]]]]]; try done.
  move=> /andb_prop [/andb_prop [/andb_prop [_ /Nat.leb_le Hy] _] _].
  rw str_length_app /=. lia.
Qed.

(** A sanitized value of a date input, of ten characters at most, is
    shown as a date or as nothing. *)
Lemma sanitized_date_format v :
  (∀ t, -1440 ≤ tzOffset t < 1440) → sanitized DateInput v →
  (String.length v ≤ 10)%nat →
  formatDate (VString v) ≠ "Invalid Date".
Proof.
  move=> Htz /sanitized_date [->|Hv] Hlen; [done|].
  have Hlen' := valid_date_string_length _ Hv.
  destruct (valid_date_string_iso v Hv) as (y & m & d & -> & Hy & Hvd); [lia|].
  apply formatDate_valid; [lia|done|apply Htz].
Qed.

(** C34: what a date input delivers with a year of four digits is
    never shown as [Invalid Date], on a host whose offset from UTC is less
    than a day: an entry that is not a valid date reaches the component as
    the empty string and is shown as the empty string. *)
Theorem date_entry_is_a_date raw :
  (∀ t, -1440 ≤ tzOffset t < 1440) → (String.length raw ≤ 10)%nat →
  formatDate (VString (sanitize DateInput raw)) ≠ "Invalid Date"
  ∧ (valid_date_string raw = false → formatDate (VString (sanitize DateInput raw)) = "").
Proof.
  move=> Htz Hlen. split; [|by rw /sanitize => ->].
  apply sanitized_date_format; [done|apply sanitize_sanitized|].
  rw /sanitize. case_match; [done|rw /=; lia].
Qed.

End date_input.

Lemma date_entry_is_a_date_witness :
  @formatDate tokyo (VString (Html.sanitize Html.DateInput "2024-02-30")) ≠ "Invalid Date"
  ∧ (Html.valid_date_string "2024-02-30" = false
     → @formatDate tokyo (VString (Html.sanitize Html.DateInput "2024-02-30")) = "").
Proof. apply (@date_entry_is_a_date tokyo); [move=> t /=; lia|rw /=; lia]. Defined.

(** A date input accepts years of more than four digits; the date-only
    form of ECMA-262 does not, and a host that parses that form alone
    shows such a date as [Invalid Date]. *)
Example long_year_is_invalid :
  Html.sanitize Html.DateInput "12024-01-05" = "12024-01-05"
  ∧ @formatDate tokyo (VString "12024-01-05") = "Invalid Date".
Proof. split; by vm_compute. Qed.

(** ** The component behind its inputs *)

Module Form.
Import App Html HtmlFacts.

Section form.
Context `{Host}.

(** The steps of a component whose change events are those of its inputs:
    a change event carries the name of an input on screen and the
    sanitized value of what was entered in it. *)
Inductive step : State → State → Prop :=
| step_entry st k raw e :
    mounted st = true → entry (view st) k raw = Some e →
    step st (change e st)
| step_other st st' :
    App.step st st' → paystubData st' = paystubData st →
    step st st'.

Definition reachable : State → Prop := rtc step initial.

(** The type of the input that edits a field. *)
Definition field_type (k : string) : input_type :=
  default Text (type_of (form Record.initialPaystubData) k).

(** Every property of the record holds a value that the input of its name
    can deliver. *)
Definition well_typed (data : gmap string string) : Prop :=
  map_Forall (λ k v, sanitized (field_type k) v) data.

(** The amounts and the dates that the preview shows. *)
Definition amounts (data : gmap string string) : list string :=
  (λ k, formatCurrency (get_prop data k)) <$> ["grossPay"; "ytdGross"].

(** ** Lemmas *)

Lemma input_types_render data logoDataUrl :
  input_types (render data logoDataUrl)
  = [("name", Text); ("payPeriodStart", DateInput); ("payPeriodEnd", DateInput);
     ("payDate", DateInput); ("grossPay", NumberInput); ("ytdGross", NumberInput);
     ("transactionHash", Text); ("safeUrl", Text)].
Proof.
  rw /input_types. by open_preview logoDataUrl.
Qed.

(** The types of the inputs do not change with the record. *)
Lemma type_of_view st k :
  type_of (view st) k = type_of (form Record.initialPaystubData) k.
Proof. by rw /type_of /view input_types_render. Qed.

Lemma type_of_field k t :
  type_of (form Record.initialPaystubData) k = Some t → k ∈ Record.fields.
Proof.
  rw /type_of. move=> /(elem_of_list_to_map_2 _ _ _) Hk.
  apply (list_elem_of_fmap_2 fst) in Hk. exact Hk.
Qed.

(** The change event of an entry: the name is a field, the value is
    sanitized for the type of its input. *)
Lemma entry_view st k raw e :
  entry (view st) k raw = Some e →
  k ∈ Record.fields ∧ e = Record.mkChange k (sanitize (field_type k) raw).
Proof.
  rw /entry type_of_view /field_type.
  destruct (type_of _ k) as [t|] eqn:Ht; [|done]. move=> [<-].
  split; [by eapply type_of_field|done].
Qed.

(** A step of the component behind its inputs is a step of the
    component. *)
Lemma step_app st st' : step st st' → App.step st st'.
Proof.
  destruct 1 as [st k raw e Hm He|st st' Hs _]; [|done].
  destruct (entry_view _ _ _ _ He) as [Hk ->].
  apply step_change; [done|]. by rw view_inputs.
Qed.

Lemma reachable_app st : reachable st → App.reachable st.
Proof. apply rtc_subrel, step_app. Qed.

Lemma initial_well_typed : well_typed Record.initialPaystubData.
Proof. rw /well_typed. apply (bool_decide_unpack _). by vm_compute. Qed.

Lemma step_well_typed st st' :
  step st st' → well_typed (paystubData st) → well_typed (paystubData st').
Proof.
  destruct 1 as [st k raw e Hm He|st st' _ ->]; [|done].
  destruct (entry_view _ _ _ _ He) as [_ ->].
  rw /change /Record.handleInputChange.
  cbn [paystubData Record.target_name Record.target_value].
  apply map_Forall_insert_2, sanitize_sanitized.
Qed.

Lemma reachable_well_typed st : reachable st → well_typed (paystubData st).
Proof.
  move=> Hr. eapply (rtc_ind_r (λ st, well_typed (paystubData st))); [..|exact Hr].
  - apply initial_well_typed.
  - move=> s s' _ Hs IH. by eapply step_well_typed.
Qed.

(** A field of a number input is shown as an amount. *)
Lemma well_typed_amount data k :
  well_typed data → field_type k = NumberInput →
  formatCurrency (get_prop data k) ≠ "$NaN".
Proof.
  move=> Hwt Hk. rw /get_prop. destruct (data !! k) as [v|] eqn:Hv; [|done].
  apply sanitized_number_format. rw -Hk. by apply (Hwt k v).
Qed.

(** A field of a date input is shown as a date or as nothing, when its
    year has four digits. *)
Lemma well_typed_date data k :
  (∀ t, -1440 ≤ tzOffset t < 1440) →
  well_typed data → field_type k = DateInput →
  (∀ v, data !! k = Some v → (String.length v ≤ 10)%nat) →
  formatDate (get_prop data k) ≠ "Invalid Date".
Proof.
  move=> Htz Hwt Hk Hlen. rw /get_prop. destruct (data !! k) as [v|] eqn:Hv; [|done].
  apply sanitized_date_format; [done| |by apply Hlen]. rw -Hk. by apply (Hwt k v).
Qed.

(** ** Theorems *)

(** The record of a component that is driven through its inputs
    holds sanitized values only: in every state that the component reaches
    by entries in its inputs, by clicks and by the steps of the logo and of
    the exports, each field holds a value that the input of its name
    delivers, and the state is a reachable state of the component. *)
Theorem form_record_is_sanitized st :
  reachable st → App.reachable st ∧ well_typed (paystubData st).
Proof. move=> Hr. split; [by apply reachable_app|by apply reachable_well_typed]. Qed.

(** C20: behind its inputs the preview never shows [$NaN]: in every
    state reached through the form the two amounts of the earnings table
    are amounts, in the line and in the total row. *)
Theorem preview_never_shows_NaN st :
  reachable st →
  Forall (λ cell, cell ≠ "$NaN")
    (mjoin (row_cells "tbody" (earnings_table (paystubData st))
            ++ row_cells "tfoot" (earnings_table (paystubData st)))).
Proof.
  move=> /reachable_well_typed Hwt.
  destruct (earnings_table_rows (paystubData st)) as (_ & -> & ->).
  have Hg := well_typed_amount _ "grossPay" Hwt eq_refl.
  have Hy := well_typed_amount _ "ytdGross" Hwt eq_refl.
  by repeat constructor.
Qed.

(** Behind its inputs the preview never shows [Invalid Date]
    for a date with a year of four digits: in every state reached through
    the form, on a host whose offset is less than a day, each of the three
    dates whose field has ten characters at most is shown as a date or as
    nothing. *)
Theorem preview_never_shows_invalid_date st k :
  (∀ t, -1440 ≤ tzOffset t < 1440) →
  reachable st → k ∈ ["payPeriodStart"; "payPeriodEnd"; "payDate"] →
  (∀ v, paystubData st !! k = Some v → (String.length v ≤ 10)%nat) →
  formatDate (get_prop (paystubData st) k) ≠ "Invalid Date".
Proof.
  move=> Htz /reachable_well_typed Hwt Hk Hlen. apply well_typed_date; [done..| |done].
  move: Hk. rw !elem_of_cons elem_of_nil. by move=> [->|[->|[->|[]]]].
Qed.

End form.

(** ** A session through the form *)

Section demo.
#[local] Existing Instance tokyo.

(** Letters are entered in the input of the gross pay. *)
Definition typo : State :=
  change (Record.mkChange "grossPay" (sanitize NumberInput "12oo")) mounted_state.

Lemma typo_reachable : reachable typo.
Proof.
  apply (rtc_l _ _ mounted_state); [apply step_other; [|done]|].
  { by apply (App.step_mount initial Logo.loading), Logo.step_mount. }
  apply rtc_once. by apply (step_entry mounted_state "grossPay" "12oo").
Qed.

Lemma form_record_is_sanitized_witness :
  App.reachable typo ∧ well_typed (paystubData typo).
Proof. apply form_record_is_sanitized, typo_reachable. Defined.

Lemma preview_never_shows_NaN_witness :
  Forall (λ cell, cell ≠ "$NaN")
    (mjoin (row_cells "tbody" (earnings_table (paystubData typo))
            ++ row_cells "tfoot" (earnings_table (paystubData typo)))).
Proof. apply preview_never_shows_NaN, typo_reachable. Defined.

(** The same letters given to [handleInputChange] as they are, as a
    change event of the component alone may, are shown as [$NaN]. *)
Example unsanitized_shows_NaN :
  row_cells "tbody"
    (earnings_table (Record.handleInputChange (Record.mkChange "grossPay" "12oo")
                       Record.initialPaystubData))
  = [["Regular Pay"; "$NaN"; "$0.00"]].
Proof. by vm_compute. Qed.

End demo.

End Form.
