(* ===== verification/FormRefinement.v ===== *)
(** * The component behind its inputs refines the typed specification

    The three parts composed: the inputs of the browser ([Inputs]) deliver
    sanitized values, the component ([App]) stores what they deliver, and
    the specification ([Spec]) is the machine that the component refines
    ([Refinement]).  The component driven through its inputs is a system
    of its own, included in the component; like the component it is taken
    with libraries whose errors are reported.  Refinements compose, so it
    refines the machine, and since every entry is sanitized it refines
    the machine in which each field holds a value of the type of its
    input: a date or nothing in the date fields, a number or nothing in
    the amounts. *)

From S2P Require Import Prelude Simulation JsValue RecordModel DateFormat VDom Render.
From S2P Require Import Effect ExportPipeline LogoResolver Spec App Refinement Inputs.

Module FormRefinement.
Import App Refinement.

Section typed.
Context `{Host}.

(** The component behind its inputs, as a transition system, with
    libraries that throw values with properties. *)
Definition form_system : Sys.System :=
  Sys.constrain (Sys.mkSystem State initial Form.step) (λ _ st', well_reported st').

(** A step of the machine after which every field holds a value of its
    type. *)
Definition typed (st st' : Spec.State) : Prop := Form.well_typed (Spec.record st').

(** The machine of the specification with typed records. *)
Definition typed_spec : Sys.System := Sys.constrain (Spec.system layout) typed.

(** ** Lemmas *)

(** The component behind its inputs is included in the component. *)
Lemma form_refines_component : Sys.refines form_system system id.
Proof.
  split; [done|]. move=> st st' _ [Hs Hrep]. right. split; [|done].
  by apply Form.step_app.
Qed.

Lemma form_system_reachable st : Sys.reachable form_system st → Form.reachable st.
Proof. apply Sys.constrain_reachable. Qed.

(** A state reached through the inputs in which every failure is reported
    is a state of [form_system]. *)
Lemma reachable_form_system st :
  Form.reachable st → well_reported st → Sys.reachable form_system st.
Proof.
  apply (Sys.constrain_reachable_back (Sys.mkSystem State initial Form.step)
           well_reported).
  move=> x y /Form.step_app. apply step_well_reported.
Qed.

Lemma form_refines_spec : Sys.refines form_system (Spec.system layout) abs.
Proof.
  exact (Sys.refines_trans (S1:=form_system) (S2:=system) (S3:=Spec.system layout)
           id abs form_refines_component refines_machine).
Qed.

(** Every step that the component takes when its change events are the
    entries of its inputs is a step of the machine that leaves each field
    with a value of the type of its input. *)
Lemma form_refines_typed : Sys.refines form_system typed_spec abs.
Proof.
  split; [done|]. move=> st st' Hr Hs.
  destruct (Sys.refines_step _ _ _ form_refines_spec st st' Hr Hs) as [Heq|Hstep];
    [by left|right].
  split; [done|]. apply (Form.step_well_typed st st' (proj1 Hs)).
  by apply Form.reachable_well_typed, form_system_reachable.
Qed.

(** In the typed specification every record is typed. *)
Lemma typed_spec_invariant :
  Sys.invariant typed_spec (λ st, Form.well_typed (Spec.record st)).
Proof. apply Sys.constrain_invariant; [apply Form.initial_well_typed|done]. Qed.

(** ** Theorems *)

(** C30: the component behind its inputs refines the typed
    specification.  Read through [abs], the component whose change events
    are the entries of its inputs, and whose failures are reported,
    refines the machine of the specification in which each field holds a
    value of the type of its input, so every state it reaches with its
    failures reported is a state of that machine, with a typed record. *)
Theorem form_refines_typed_spec :
  Sys.refines form_system typed_spec abs
  ∧ ∀ st, Form.reachable st → well_reported st →
      Sys.reachable typed_spec (abs st) ∧ Form.well_typed (Spec.record (abs st)).
Proof.
  split; [apply form_refines_typed|]. move=> st Hr Hrep.
  have Hs := Sys.refines_reachable (C:=form_system) (A:=typed_spec) abs
               form_refines_typed st (reachable_form_system st Hr Hrep).
  split; [done|]. by apply typed_spec_invariant.
Qed.

End typed.

End FormRefinement.
