(* ===== verification/Scenarios.v ===== *)
(** * Scenarios

    The two end-to-end scenarios of the specification, run on the model:
    a record with every field filled in and a record with every field
    blank, from the change events that build the record to the file that
    is downloaded.  The hosts are those of [DateFormat]: [bogota], west of
    Greenwich, and [tokyo], east of it; the world is the one of
    [ExportPipeline] in which every call returns. *)

From S2P Require Import Prelude JsValue RecordModel NumberFormat DateFormat VDom Render.
From S2P Require Import Effect ExportPipeline LogoResolver App.

Import Record PdfExport.

(** ** The records *)

(** The change events that fill the form, in the order of its fields. *)
Definition jane_doe_events : list ChangeEvent :=
  [ mkChange "name" "Jane Doe";
    mkChange "payPeriodStart" "2024-01-01";
    mkChange "payPeriodEnd" "2024-01-15";
    mkChange "payDate" "2024-01-16";
    mkChange "grossPay" "2500";
    mkChange "ytdGross" "2500";
    mkChange "transactionHash" "0xabc";
    mkChange "safeUrl" "https://safe.example/tx/1" ].

Definition jane_doe : gmap string string :=
  applyChanges jane_doe_events initialPaystubData.

(** What is read off a preview: the texts of its blocks, and the body and
    total rows of its table. *)
Record statement : Type := mkStatement {
  st_name : string;
  st_pay_date : string;
  st_pay_period : string;
  st_body : list (list string);
  st_total : list (list string);
  st_references : string;
}.

Definition read_statement `{Host} (paystubData : gmap string string) : statement :=
  {| st_name := text_content (name_box paystubData);
     st_pay_date := text_content (pay_date_box paystubData);
     st_pay_period := text_content (pay_period_box paystubData);
     st_body := row_cells "tbody" (earnings_table paystubData);
     st_total := row_cells "tfoot" (earnings_table paystubData);
     st_references := text_content (references paystubData) |}.

(** A whole session: the first commit, the change events, a click, and the
    settlement of the promise in the world [wd]. *)
Definition session `{Host} (wd : World) (events : list ChangeEvent) : App.State :=
  App.settle wd 0
    (App.click (foldl (λ st e, App.change e st) App.mounted_state events)).

(** ** Theorems *)

Lemma changes_reachable `{Host} events st :
  App.reachable st → App.mounted st = true →
  Forall (λ e, target_name e ∈ fields) events →
  App.reachable (foldl (λ st e, App.change e st) st events)
  ∧ App.mounted (foldl (λ st e, App.change e st) st events) = true.
Proof.
  move=> Hr Hm Hev. move: st Hr Hm.
  induction Hev as [|e events He _ IH]=> st Hr Hm; first done.
  apply IH; [|done]. eapply rtc_r; [exact Hr|].
  apply App.step_change; [done|]. by rw App.view_inputs.
Qed.

(** A session of change events on fields of the form is a run of the
    component. *)
Lemma session_reachable `{Host} wd events :
  Forall (λ e, target_name e ∈ fields) events → App.reachable (session wd events).
Proof.
  move=> Hev.
  destruct (changes_reachable events App.mounted_state App.mounted_reachable eq_refl Hev)
    as [Hr Hm].
  eapply rtc_r; [eapply rtc_r; [exact Hr|by apply App.step_click]|].
  apply App.step_settle. rw App.click_mounted //=.
  by destruct (App.inflight _).
Qed.


(** The same record on a host east of Greenwich: every
    date of the statement is the day before the one entered. *)
Theorem scenario_jane_doe_east :
  st_pay_date (@read_statement tokyo jane_doe) = "Pay DateJan 15, 2024"
  ∧ st_pay_period (@read_statement tokyo jane_doe)
    = "Pay PeriodDec 31, 2023 - Jan 14, 2024".
Proof. split; by vm_compute. Qed.

(** The record with every field blank.  Name and
    references read N/A, the dates are empty, the amounts are zero, and the
    export downloads its file all the same. *)
Theorem scenario_all_blank :
  @read_statement tokyo initialPaystubData
  = {| st_name := "NameN/A";
       st_pay_date := "Pay Date";
       st_pay_period := "Pay Period - ";
       st_body := [["Regular Pay"; "$0.00"; "$0.00"]];
       st_total := [["Total"; "$0.00"; "$0.00"]];
       st_references := "Transaction Hash: N/ASafe URL: N/A" |}
  ∧ (downloads ∘ App.export_events <$> App.exports (@session tokyo ideal_world []))
    = [[(file_name,
         mkPdf the_pdf_options
           [fit (mkCanvas 1190 1684) "data:image/png;base64,iVBORw0KGgo="])]].
Proof. split; by vm_compute. Qed.
